(** * BioDrive+ wearable integration: credentials, sync and webhook ingestion

    A shallow embedding of the Express handlers of [routes.ts] that acquire,
    refresh and revoke wearable credentials, synchronise provider data and
    ingest aggregator webhooks, together with the storage layer of
    [storage.ts] they run against.

    Conventions.
    - A JavaScript number that the handlers use as an identifier, a score or a
      timestamp is an integer [Z]; [NaN] is [None] where a handler tests for it.
      Timestamps ([Date]) are milliseconds since the epoch.
    - [Math.random()] is a rational in the unit interval and the arithmetic on
      it is exact.
    - Handlers are computations in a state-and-exception monad [M].  The state
      holds the two database tables the handlers touch, the handler's local
      [results] array and the positions reached in the streams of clock
      readings, random draws and database statements.  The environment [Env]
      holds what the outside world answers: the clock, the random stream, which
      database statements are rejected, and the provider client and
      transformer of [services/wearableIntegration], which the handlers
      import and which are left abstract.
    - [console.log] and [console.error] have no counterpart. *)

From Stdlib Require Import ZArith QArith Qround String Ascii List Bool Lia Lqa DecimalString.
Import ListNotations.

Open Scope string_scope.
Open Scope Z_scope.

(* ================================================================== *)
(** ** JavaScript values and built-ins used by the handlers *)

Module Js.

(** The JSON values a request body can carry where the handlers read a
    field without checking its type. *)
Inductive jsval : Type :=
| JUndefined
| JNull
| JNum (n : Z)
| JStr (s : string).

Definition jsval_eqb_str (v : jsval) (lit : string) : bool :=
  match v with
  | JStr s => String.eqb s lit
  | _ => false
  end.

(** [String(n)] for an integer. *)
Definition String_of_Z (n : Z) : string := NilZero.string_of_int (Z.to_int n).

Definition is_white_space (c : ascii) : bool :=
  let n := Z.of_N (N_of_ascii c) in
  ((9 <=? n) && (n <=? 13)) || (n =? 32).

Fixpoint trimStart (s : string) : string :=
  match s with
  | String c rest => if is_white_space c then trimStart rest else s
  | EmptyString => s
  end.

Definition digit_value (radix : Z) (c : ascii) : option Z :=
  let n := Z.of_N (N_of_ascii c) in
  let v :=
    if (48 <=? n) && (n <=? 57) then Some (n - 48)
    else if (97 <=? n) && (n <=? 122) then Some (n - 87)
    else if (65 <=? n) && (n <=? 90) then Some (n - 55)
    else None in
  match v with
  | Some d => if d <? radix then Some d else None
  | None => None
  end.

(** The value of the longest prefix of [s] made of digits of [radix];
    [acc] is [None] until a first digit has been read. *)
Fixpoint digits_prefix (radix : Z) (s : string) (acc : option Z) : option Z :=
  match s with
  | String c rest =>
      match digit_value radix c with
      | Some d =>
          digits_prefix radix rest
            (Some (match acc with Some a => a * radix + d | None => d end))
      | None => acc
      end
  | EmptyString => acc
  end.

(** [parseInt(s)] without a radix argument: leading white space, an
    optional sign, an optional [0x] prefix, then digits.  [None] is [NaN]. *)
Definition parseInt (s : string) : option Z :=
  let s1 := trimStart s in
  let '(sign, s2) :=
    match s1 with
    | String "-"%char rest => (-1, rest)
    | String "+"%char rest => (1, rest)
    | _ => (1, s1)
    end in
  let '(radix, s3) :=
    match s2 with
    | String "0"%char (String "x"%char rest) => (16, rest)
    | String "0"%char (String "X"%char rest) => (16, rest)
    | _ => (10, s2)
    end in
  match digits_prefix radix s3 None with
  | Some z => Some (sign * z)
  | None => None
  end.

Definition isNaN (n : option Z) : bool :=
  match n with None => true | Some _ => false end.

(** [!n] for a number: [NaN] and [0] are falsy. *)
Definition number_falsy (n : option Z) : bool :=
  match n with
  | None => true
  | Some z => z =? 0
  end.

(** [x || null] for a nullable number and for a nullable string. *)
Definition num_or_null (x : option Z) : option Z :=
  match x with
  | Some z => if z =? 0 then None else Some z
  | None => None
  end.

Definition str_or_null (x : option string) : option string :=
  match x with
  | Some s => if String.eqb s "" then None else Some s
  | None => None
  end.

(** [s.replace(pat, "")] for a string pattern: the first occurrence goes. *)
Fixpoint remove_first (pat s : string) : string :=
  match s with
  | EmptyString => s
  | String c rest =>
      if String.prefix pat s
      then String.substring (String.length pat) (String.length s - String.length pat) s
      else String c (remove_first pat rest)
  end.

(** A finite number that need not be an integer, as the decimal
    [mantissa / 10 ^ scale] with the fewest digits that identifies it: the
    digits [Number.prototype.toString] prints. *)
Record decimal : Type := mkDecimal { mantissa : Z; scale : nat }.

Fixpoint zeros (n : nat) : string :=
  match n with
  | O => ""
  | S n' => String "0" (zeros n')
  end.

(** [s.padStart(width, "0")] *)
Definition pad_zeros (width : nat) (s : string) : string :=
  zeros (width - String.length s)%nat ++ s.

(** [m / 10 ^ k] for [0 <= m], printed with exactly [k] fraction digits. *)
Definition render_fixed (m : Z) (k : nat) : string :=
  let p := 10 ^ Z.of_nat k in
  String_of_Z (m / p) ++
  match k with
  | O => ""
  | S _ => "." ++ pad_zeros k (String_of_Z (m mod p))
  end.

(** The digits of [s] without the zeros at its end. *)
Fixpoint drop_trailing_zeros (s : string) : string :=
  match s with
  | EmptyString => EmptyString
  | String c rest =>
      match drop_trailing_zeros rest with
      | EmptyString => if Ascii.eqb c "0" then EmptyString else String c EmptyString
      | kept => String c kept
      end
  end.

(** [x.toString()], the algorithm Number::toString of the language
    specification for radix 10.  With [digits] the [k] significant digits
    of [x] and [n] the position of the decimal point after the first of
    them: the digits followed by zeros when [k <= n <= 21], the digits
    with a point among them when [0 < n <= 21], [0.] and zeros before the
    digits when [-6 < n <= 0], and the exponent form otherwise: the first
    digit, a point and the other digits if there are any, [e], the sign of
    [n - 1] and its digits. *)
Definition Number_toString (x : decimal) : string :=
  if mantissa x =? 0 then "0"
  else
    let all_digits := String_of_Z (Z.abs (mantissa x)) in
    let digits := drop_trailing_zeros all_digits in
    let k := String.length digits in
    let n := Z.of_nat (String.length all_digits) - Z.of_nat (scale x) in
    (if mantissa x <? 0 then "-" else "") ++
    (if (Z.of_nat k <=? n) && (n <=? 21)
     then digits ++ zeros (Z.to_nat (n - Z.of_nat k))
     else if (0 <? n) && (n <=? 21)
     then String.substring 0 (Z.to_nat n) digits ++ "."
          ++ String.substring (Z.to_nat n) (k - Z.to_nat n) digits
     else if (-6 <? n) && (n <=? 0)
     then "0." ++ zeros (Z.to_nat (- n)) ++ digits
     else
       let e := n - 1 in
       let exponent := (if e <? 0 then "-" else "+") ++ String_of_Z (Z.abs e) in
       match digits with
       | EmptyString => ""
       | String d rest =>
           String d ((match rest with EmptyString => "" | _ => "." ++ rest end)
                     ++ "e" ++ exponent)
       end).

Definition Math_floor (x : Q) : Z := Qfloor x.

(** [x.toFixed(1)] for [0 <= x]: the nearest tenth, the larger one on a tie,
    printed with one fraction digit.  [toFixed1_tenths] is that number of
    tenths. *)
Definition toFixed1_tenths (x : Q) : Z := Qfloor (x * 10 + (1 # 2))%Q.

Definition toFixed1 (x : Q) : string := render_fixed (toFixed1_tenths x) 1.

End Js.
Export Js.

(* ================================================================== *)
(** ** Rows, request bodies and responses *)

(** A row of the [wearable_tokens] table: the Credential of one user with
    one provider.  [updatedAt] is written by [updateWearableToken]; an
    inserted row carries one only if the caller supplies it. *)
Module WearableToken.
Record t : Type := mk {
  userId : Z;
  provider : string;
  accessToken : string;
  refreshToken : option string;
  externalUserId : option string;
  expiresAt : option Z;
  updatedAt : option Z
}.
End WearableToken.

(** [Partial<WearableToken>]: [None] leaves the column as it is. *)
Module TokenUpdates.
Record t : Type := mk {
  accessToken : option string;
  refreshToken : option (option string);
  externalUserId : option (option string);
  expiresAt : option (option Z);
  updatedAt : option Z
}.
Definition none : t := mk None None None None None.
End TokenUpdates.

(** [InsertWearableData]: what a handler passes to [createWearableData]. *)
Module InsertWearableData.
Record t : Type := mk {
  userId : Z;
  deviceType : string;
  sleepScore : option Z;
  sleepDuration : option string;
  strainLevel : option string;
  hrv : option Z;
  heartRate : option Z
}.
End InsertWearableData.

(** A row of the [wearable_data] table: a canonical biometric record. *)
Module WearableData.
Record t : Type := mk {
  id : Z;
  userId : Z;
  deviceType : string;
  sleepScore : option Z;
  sleepDuration : option string;
  strainLevel : option string;
  hrv : option Z;
  heartRate : option Z;
  recordedAt : Z
}.
End WearableData.

(** The raw JSON a provider or a webhook delivers; the handlers only pass it
    on to the transformer. *)
Definition Payload : Type := string.

(** What [WearableDataTransformer] returns. *)
Module Transformed.
Record t : Type := mk {
  deviceType : string;
  sleepScore : option Z;
  sleepDuration : option string;
  strainLevel : option decimal;
  hrv : option Z;
  heartRate : option Z
}.
End Transformed.

(** The object literal [demoData] / [mockData] of the sync handler.  Its
    [strainLevel] is a string on the tracker path ([toFixed]) and a number on
    the aggregator path. *)
Module Simulated.
Record t : Type := mk {
  deviceType : string;
  sleepScore : Z;
  sleepDuration : string;
  strainLevel : jsval;
  hrv : Z;
  heartRate : Z;
  recordedAt : Z
}.
End Simulated.

Inductive OutcomeData : Type :=
| FromProvider (d : Transformed.t)
| FromSimulator (d : Simulated.t).

(** An element of the [results] array of the sync handler. *)
Module SyncOutcome.
Record t : Type := mk {
  provider : string;
  status : string;
  data : option OutcomeData;
  error : option string
}.
Definition success (p : string) (d : OutcomeData) : t := mk p "success" (Some d) None.
Definition failure (p : string) (msg : string) : t := mk p "error" None (Some msg).
End SyncOutcome.

(** What [WHOOPIntegration.refreshAccessToken] resolves to. *)
Module RefreshedTokens.
Record t : Type := mk {
  access_token : string;
  refresh_token : string;
  expires_in : Z
}.
End RefreshedTokens.

(** One provider entry of the wearable-status response. *)
Module ProviderStatus.
Record t : Type := mk {
  connected : bool;
  lastSync : option Z;
  needsReauth : bool
}.
End ProviderStatus.

Inductive Body : Type :=
| JsonError (error : string)
| JsonMessage (message : string)
| JsonSuccess (message : string)
| JsonSync (results : list SyncOutcome.t)
| JsonStatus (whoop apple_health : ProviderStatus.t)
| Html (title : string).

Module Response.
Record t : Type := mk { status : Z; body : Body }.
(** [res.json(b)] and [res.send(b)] answer 200. *)
Definition json (b : Body) : t := mk 200 b.
End Response.

(** The body of a Terra webhook request, [{ type, user, data }]. *)
Module WebhookBody.
Record t : Type := mk {
  type : jsval;
  user : option jsval;   (* [user.user_id] when [user] is an object *)
  data : Payload
}.
End WebhookBody.

(** The body of the Apple Health callback, [{ user_id, provider, status, state }]. *)
Module CallbackBody.
Record t : Type := mk {
  user_id : jsval;
  provider : jsval;
  status : jsval;
  state : jsval
}.
End CallbackBody.

(* ================================================================== *)
(** ** The handler monad *)

Inductive Result (A : Type) : Type :=
| Ok (a : A)
| Throw (message : string).
Arguments Ok {A} a.
Arguments Throw {A} message.

(** The calls a handler makes to the tracker's API, in order. *)
Inductive ProviderCall : Type :=
| CallRefresh (refreshToken : option string)
| CallRecovery (accessToken : string)
| CallSleep (accessToken : string)
| CallCycle (accessToken : string).

Record Env : Type := mkEnv {
  Date_now : nat -> Z;
  Math_random : nat -> Q;
  db_rejects : nat -> bool;
  refreshAccessToken : option string -> Result RefreshedTokens.t;
  getRecoveryData : string -> Z -> Result Payload;
  getSleepData : string -> Z -> Result Payload;
  getCycleData : string -> Z -> Result Payload;
  transformWHOOPData : Payload -> Payload -> Payload -> Result Transformed.t;
  transformAppleHealthData :
    option Payload -> option Payload -> option Payload -> Result Transformed.t
}.

Record State : Type := mkState {
  wearableTokens : list WearableToken.t;
  wearableData : list WearableData.t;
  results : list SyncOutcome.t;
  clock_reads : nat;
  random_draws : nat;
  db_statements : nat;
  provider_calls : list ProviderCall
}.

Definition M (A : Type) : Type := Env -> State -> Result A * State.

Definition ret {A : Type} (a : A) : M A := fun _ s => (Ok a, s).

Definition bind {A B : Type} (m : M A) (k : A -> M B) : M B :=
  fun e s =>
    match m e s with
    | (Ok a, s') => k a e s'
    | (Throw msg, s') => (Throw msg, s')
    end.

Definition throw {A : Type} (msg : string) : M A := fun _ s => (Throw msg, s).

(** [try { body } catch (error) { handler(error.message) }]: the state the
    body reached when it threw is the state the handler starts from. *)
Definition try_catch {A : Type} (body : M A) (handler : string -> M A) : M A :=
  fun e s =>
    match body e s with
    | (Ok a, s') => (Ok a, s')
    | (Throw msg, s') => handler msg e s'
    end.

(** [await] of a value the environment already holds. *)
Definition lift {A : Type} (r : Env -> Result A) : M A :=
  fun e s => (r e, s).

Declare Scope monad_scope.
Delimit Scope monad_scope with monad.
Notation "x <- c1 ;; c2" := (bind c1 (fun x => c2))
  (at level 61, c1 at next level, right associativity) : monad_scope.
Notation "c1 ;; c2" := (bind c1 (fun _ => c2))
  (at level 61, right associativity) : monad_scope.
Open Scope monad_scope.

Definition set_wearableTokens (f : list WearableToken.t -> list WearableToken.t) (s : State) : State :=
  mkState (f (wearableTokens s)) (wearableData s) (results s)
          (clock_reads s) (random_draws s) (db_statements s) (provider_calls s).

Definition set_wearableData (f : list WearableData.t -> list WearableData.t) (s : State) : State :=
  mkState (wearableTokens s) (f (wearableData s)) (results s)
          (clock_reads s) (random_draws s) (db_statements s) (provider_calls s).

Definition set_results (f : list SyncOutcome.t -> list SyncOutcome.t) (s : State) : State :=
  mkState (wearableTokens s) (wearableData s) (f (results s))
          (clock_reads s) (random_draws s) (db_statements s) (provider_calls s).

Definition tick_clock (s : State) : State :=
  mkState (wearableTokens s) (wearableData s) (results s)
          (S (clock_reads s)) (random_draws s) (db_statements s) (provider_calls s).

Definition tick_random (s : State) : State :=
  mkState (wearableTokens s) (wearableData s) (results s)
          (clock_reads s) (S (random_draws s)) (db_statements s) (provider_calls s).

Definition log_call (c : ProviderCall) (s : State) : State :=
  mkState (wearableTokens s) (wearableData s) (results s)
          (clock_reads s) (random_draws s) (db_statements s)
          (provider_calls s ++ [c])%list.

Definition count_statement (s : State) : State :=
  mkState (wearableTokens s) (wearableData s) (results s)
          (clock_reads s) (random_draws s) (S (db_statements s)) (provider_calls s).

(** [new Date()] and [Date.now()]: the next reading of the clock. *)
Definition now : M Z :=
  fun e s => (Ok (Date_now e (clock_reads s)), tick_clock s).

(** [Math.random()]: the next draw. *)
Definition random : M Q :=
  fun e s => (Ok (Math_random e (random_draws s)), tick_random s).

(** A call to the tracker's API: it is recorded, then the provider answers. *)
Definition call_provider {A : Type} (c : ProviderCall) (answer : Env -> Result A) : M A :=
  fun e s => (answer e, log_call c s).

(** A promise that has settled: its outcome as a value.  [Promise.all] over
    promises started one after the other throws when one of them rejected. *)
Definition settle {A : Type} (m : M A) : M (Result A) :=
  try_catch (bind m (fun a => ret (Ok a))) (fun msg => ret (Throw msg)).

Definition await {A : Type} (p : Result A) : M A := fun _ s => (p, s).

(** [const results = []] and a read of [results]. *)
Definition reset_results : M unit :=
  fun _ s => (Ok tt, set_results (fun _ => []) s).

Definition get_results : M (list SyncOutcome.t) :=
  fun _ s => (Ok (results s), s).

(** [results.push(o)]. *)
Definition push_result (o : SyncOutcome.t) : M unit :=
  fun _ s => (Ok tt, set_results (fun rs => (rs ++ [o])%list) s).

(* ================================================================== *)
(** ** storage.ts *)

(** [DatabaseStorage], the class behind the exported [storage].  Each method
    issues one statement; a statement the database rejects throws and leaves
    the tables as they were.  The tables are lists of rows in insertion
    order. *)
Module DatabaseStorage.

Definition statement {A : Type} (run : State -> A * State) : M A :=
  fun e s =>
    if db_rejects e (db_statements s)
    then (Throw "database error", count_statement s)
    else let '(a, s') := run (count_statement s) in (Ok a, s').

(** [and(eq(wearableTokens.userId, userId), eq(wearableTokens.provider, provider))] *)
Definition token_matches (userId : Z) (provider : string) (t : WearableToken.t) : bool :=
  (WearableToken.userId t =? userId) && String.eqb (WearableToken.provider t) provider.

Definition getWearableToken (userId : Z) (provider : string) : M (option WearableToken.t) :=
  statement (fun s => (find (token_matches userId provider) (wearableTokens s), s)).

Definition createWearableToken (insertToken : WearableToken.t) : M WearableToken.t :=
  statement (fun s =>
    (insertToken, set_wearableTokens (fun rows => (rows ++ [insertToken])%list) s)).

Definition apply_updates (u : TokenUpdates.t) (t : WearableToken.t) : WearableToken.t :=
  WearableToken.mk
    (WearableToken.userId t)
    (WearableToken.provider t)
    (match TokenUpdates.accessToken u with Some v => v | None => WearableToken.accessToken t end)
    (match TokenUpdates.refreshToken u with Some v => v | None => WearableToken.refreshToken t end)
    (match TokenUpdates.externalUserId u with Some v => v | None => WearableToken.externalUserId t end)
    (match TokenUpdates.expiresAt u with Some v => v | None => WearableToken.expiresAt t end)
    (match TokenUpdates.updatedAt u with Some v => Some v | None => WearableToken.updatedAt t end).

(** [{ ...updates, updatedAt: new Date() }] *)
Definition with_updatedAt (u : TokenUpdates.t) (at_ : Z) : TokenUpdates.t :=
  TokenUpdates.mk (TokenUpdates.accessToken u) (TokenUpdates.refreshToken u)
                  (TokenUpdates.externalUserId u) (TokenUpdates.expiresAt u) (Some at_).

Definition update_rows (userId : Z) (provider : string) (u : TokenUpdates.t)
           (rows : list WearableToken.t) : list WearableToken.t :=
  map (fun t => if token_matches userId provider t then apply_updates u t else t) rows.

Definition updateWearableToken (userId : Z) (provider : string) (updates : TokenUpdates.t)
  : M (option WearableToken.t) :=
  at_ <- now ;;
  statement (fun s =>
    let s' := set_wearableTokens (update_rows userId provider (with_updatedAt updates at_)) s in
    (find (token_matches userId provider) (wearableTokens s'), s')).

Definition deleteWearableToken (userId : Z) (provider : string) : M unit :=
  statement (fun s =>
    (tt, set_wearableTokens (filter (fun t => negb (token_matches userId provider t))) s)).

(** The inserted row gets the columns the schema fills in: the next serial
    [id] and the time of insertion. *)
Definition inserted_row (id : Z) (insertData : InsertWearableData.t) (at_ : Z)
  : WearableData.t :=
  WearableData.mk
    id
    (InsertWearableData.userId insertData)
    (InsertWearableData.deviceType insertData)
    (InsertWearableData.sleepScore insertData)
    (InsertWearableData.sleepDuration insertData)
    (InsertWearableData.strainLevel insertData)
    (InsertWearableData.hrv insertData)
    (InsertWearableData.heartRate insertData)
    at_.

Definition createWearableData (insertData : InsertWearableData.t) : M WearableData.t :=
  at_ <- now ;;
  statement (fun s =>
    let row := inserted_row (Z.of_nat (length (wearableData s)) + 1) insertData at_ in
    (row, set_wearableData (fun rows => (rows ++ [row])%list) s)).

Fixpoint all_white_space (s : string) : bool :=
  match s with
  | EmptyString => true
  | String c rest => is_white_space c && all_white_space rest
  end.

Fixpoint decimal_literal (s : string) (acc : option Z) : option Z :=
  match s with
  | EmptyString => acc
  | String c rest =>
      match digit_value 10 c with
      | Some d => decimal_literal rest (Some (match acc with Some a => a * 10 + d | None => d end))
      | None => if all_white_space s then acc else None
      end
  end.

(** What the database makes of a value bound where the integer column
    [user_id] is compared: a number as it is, a string through the integer
    input syntax (an error when it is not an integer literal), and
    [null] as a comparison no row satisfies. *)
Definition int4_param (v : jsval) : Result (option Z) :=
  match v with
  | JNum n => Ok (Some n)
  | JStr s =>
      let s1 := trimStart s in
      let '(sign, s2) :=
        match s1 with
        | String "-"%char rest => (-1, rest)
        | String "+"%char rest => (1, rest)
        | _ => (1, s1)
        end in
      match decimal_literal s2 None with
      | Some z => Ok (Some (sign * z))
      | None => Throw "invalid input syntax for type integer"
      end
  | JUndefined | JNull => Ok None
  end.

(** [getWearableToken] called with a value of type [any] as [userId]. *)
Definition getWearableToken_any (userId : jsval) (provider : string)
  : M (option WearableToken.t) :=
  match int4_param userId with
  | Ok (Some n) => getWearableToken n provider
  | Ok None => statement (fun s => (None, s))
  | Throw msg => fun e s => (Throw msg, count_statement s)
  end.

End DatabaseStorage.

(** [MemStorage], the in-memory class.  Its token methods are stubs; its
    [createWearableData] builds the stored row itself. *)
Module MemStorage.

Record t : Type := mk {
  wearableData : list (Z * WearableData.t);
  currentWearableDataId : Z
}.

(** [Map.prototype.set] *)
Fixpoint map_set (k : Z) (v : WearableData.t) (m : list (Z * WearableData.t))
  : list (Z * WearableData.t) :=
  match m with
  | [] => [(k, v)]
  | (k', v') :: rest => if k' =? k then (k, v) :: rest else (k', v') :: map_set k v rest
  end.

Definition createWearableData (insertData : InsertWearableData.t) (date : Z) (this : t)
  : WearableData.t * t :=
  let id := currentWearableDataId this in
  let data :=
    WearableData.mk
      id
      (InsertWearableData.userId insertData)
      (InsertWearableData.deviceType insertData)
      (num_or_null (InsertWearableData.sleepScore insertData))
      (str_or_null (InsertWearableData.sleepDuration insertData))
      (str_or_null (InsertWearableData.strainLevel insertData))
      (num_or_null (InsertWearableData.hrv insertData))
      (num_or_null (InsertWearableData.heartRate insertData))
      date in
  (data, mk (map_set id data (wearableData this)) (id + 1)).

Definition getWearableToken (userId : Z) (provider : string) (this : t)
  : option WearableToken.t := None.

Definition createWearableToken (insertToken : WearableToken.t) (this : t)
  : Result WearableToken.t :=
  Throw "Wearable token management requires database storage".

Definition updateWearableToken (userId : Z) (provider : string) (updates : TokenUpdates.t)
           (this : t) : Result WearableToken.t :=
  Throw "Wearable token management requires database storage".

Definition deleteWearableToken (userId : Z) (provider : string) (this : t) : t := this.

End MemStorage.

(* ================================================================== *)
(** ** routes.ts *)

Module Routes.

Import DatabaseStorage.

(** [expiresAt && new Date() > expiresAt], the staleness test of the sync
    handler and of the status handler, as a function of the reading [at_] of
    the clock: a Credential is stale when its expiry is set and strictly
    before the current time. *)
Definition is_stale (at_ : Z) (t : WearableToken.t) : bool :=
  match WearableToken.expiresAt t with
  | Some expiresAt => expiresAt <? at_
  | None => false
  end.

Definition year_ms : Z := 365 * 24 * 60 * 60 * 1000.

(** [GET /api/auth/whoop/demo] *)
Definition whoop_demo_auth (query_userId : option string) : M Response.t :=
  try_catch
    (let userIdStr := match query_userId with Some q => q | None => "undefined" end in
     let userId := parseInt userIdStr in
     match userId with
     | None => ret (Response.mk 400 (JsonError ("Invalid user ID: " ++ userIdStr)))
     | Some userId =>
         if userId <=? 0
         then ret (Response.mk 400 (JsonError ("Invalid user ID: " ++ userIdStr)))
         else
           existingToken <- getWearableToken userId "whoop" ;;
           match existingToken with
           | Some _ =>
               t <- now ;;
               updateWearableToken userId "whoop"
                 (TokenUpdates.mk (Some "demo_whoop_token") (Some (Some "demo_refresh_token"))
                                  None (Some (Some (t + year_ms))) None) ;;
               ret tt
           | None =>
               t <- now ;;
               createWearableToken
                 (WearableToken.mk userId "whoop" "demo_whoop_token" (Some "demo_refresh_token")
                                   (Some ("demo_whoop_" ++ String_of_Z userId))
                                   (Some (t + year_ms)) None) ;;
               ret tt
           end ;;
           r1 <- random ;;
           r2 <- random ;;
           r3 <- random ;;
           r4 <- random ;;
           r5 <- random ;;
           r6 <- random ;;
           createWearableData
             (InsertWearableData.mk userId "whoop"
                (Some (Math_floor (r1 * 40) + 60))
                (Some (String_of_Z (Math_floor (r2 * 2) + 7) ++ "h "
                       ++ String_of_Z (Math_floor (r3 * 60)) ++ "m"))
                (Some (toFixed1 (r4 * 15 + 5)))
                (Some (Math_floor (r5 * 50) + 25))
                (Some (Math_floor (r6 * 40) + 60))) ;;
           ret (Response.json (Html "WHOOP Connected"))
     end)
    (fun _ => ret (Response.mk 500 (JsonError "Failed to connect WHOOP demo"))).

(** [GET /api/auth/apple/mock] *)
Definition apple_mock_auth (query_userId : option string) : M Response.t :=
  try_catch
    (let userId := parseInt (match query_userId with Some q => q | None => "undefined" end) in
     if number_falsy userId || isNaN userId
     then ret (Response.mk 400 (JsonError "Invalid user ID"))
     else
       let userId := match userId with Some n => n | None => 0 end in
       t <- now ;;
       let mockTerraUserId := "mock_apple_" ++ String_of_Z userId ++ "_" ++ String_of_Z t in
       existingToken <- getWearableToken userId "apple_health" ;;
       match existingToken with
       | Some _ =>
           updateWearableToken userId "apple_health"
             (TokenUpdates.mk (Some "mock_apple_authenticated") None
                              (Some (Some mockTerraUserId)) None None) ;;
           ret tt
       | None =>
           createWearableToken
             (WearableToken.mk userId "apple_health" "mock_apple_authenticated" None
                               (Some mockTerraUserId) None None) ;;
           ret tt
       end ;;
       r1 <- random ;;
       r2 <- random ;;
       r3 <- random ;;
       r4 <- random ;;
       r5 <- random ;;
       r6 <- random ;;
       createWearableData
         (InsertWearableData.mk userId "apple_watch"
            (Some (Math_floor (r1 * 40) + 60))
            (Some (String_of_Z (Math_floor (r2 * 2) + 7) ++ "h "
                   ++ String_of_Z (Math_floor (r3 * 60)) ++ "m"))
            (Some (toFixed1 (r4 * 15 + 5)))
            (Some (Math_floor (r5 * 50) + 25))
            (Some (Math_floor (r6 * 40) + 60))) ;;
       ret (Response.json (Html "Apple Health Connected")))
    (fun _ => ret (Response.mk 500 (JsonError "Failed to connect Apple Health"))).

(** The text column [external_user_id] as a request value reaches it:
    in an insert, [undefined] and [null] are both stored as [NULL]. *)
Definition text_column (v : jsval) : option string :=
  match v with
  | JStr s => Some s
  | JNum n => Some (String_of_Z n)
  | JUndefined | JNull => None
  end.

(** The same value as a member of [updates]: an [undefined] member is left
    out of the [SET] clause. *)
Definition text_update (v : jsval) : option (option string) :=
  match v with
  | JUndefined => None
  | _ => Some (text_column v)
  end.

(** [POST /api/auth/apple/callback] *)
Definition apple_callback (reqBody : option CallbackBody.t) : M Response.t :=
  try_catch
    (match reqBody with
     | None => throw "TypeError: Cannot destructure property 'user_id' of 'req.body'"
     | Some b =>
         let user_id := CallbackBody.user_id b in
         if negb (jsval_eqb_str (CallbackBody.status b) "success")
         then ret (Response.mk 400 (JsonError "Apple Health authentication failed"))
         else
           match CallbackBody.state b with
           | JStr state =>
               let userId := parseInt (remove_first "apple_" state) in
               if number_falsy userId || isNaN userId
               then ret (Response.mk 400 (JsonError "Invalid state parameter"))
               else
                 let userId := match userId with Some n => n | None => 0 end in
                 existingToken <- getWearableToken userId "apple_health" ;;
                 match existingToken with
                 | Some _ =>
                     updateWearableToken userId "apple_health"
                       (TokenUpdates.mk (Some "terra_authenticated") None
                                        (text_update user_id) None None) ;;
                     ret tt
                 | None =>
                     createWearableToken
                       (WearableToken.mk userId "apple_health" "terra_authenticated" None
                                         (text_column user_id) None None) ;;
                     ret tt
                 end ;;
                 ret (Response.json (JsonSuccess "Apple Health connected successfully"))
           | _ => throw "TypeError: state.replace is not a function"
           end
     end)
    (fun _ => ret (Response.mk 500 (JsonError "Failed to process Apple Health authentication"))).

(** [transformedData.strainLevel?.toString() || null] *)
Definition strain_text (x : option decimal) : option string :=
  str_or_null (option_map Number_toString x).

(** The [createWearableData] argument both the sync handler and the
    webhook handler build from a transformer result. *)
Definition insert_of_transformed (userId : Z) (transformedData : Transformed.t)
  : InsertWearableData.t :=
  InsertWearableData.mk userId
    (Transformed.deviceType transformedData)
    (num_or_null (Transformed.sleepScore transformedData))
    (str_or_null (Transformed.sleepDuration transformedData))
    (strain_text (Transformed.strainLevel transformedData))
    (num_or_null (Transformed.hrv transformedData))
    (num_or_null (Transformed.heartRate transformedData)).

Definition is_health_event (type : jsval) : bool :=
  jsval_eqb_str type "body" || jsval_eqb_str type "daily" || jsval_eqb_str type "sleep".

(** The [try] block of [POST /api/terra/webhook]. *)
Definition terra_webhook_try (reqBody : option WebhookBody.t) : M Response.t :=
  match reqBody with
  | None => throw "TypeError: Cannot destructure property 'type' of 'req.body'"
  | Some b =>
      let type := WebhookBody.type b in
      let data := WebhookBody.data b in
      if is_health_event type
      then
        match WebhookBody.user b with
        | None => throw "TypeError: Cannot read properties of undefined (reading 'user_id')"
        | Some user_id =>
            userToken <- getWearableToken_any user_id "apple_health" ;;
            match userToken with
            | None => ret (Response.mk 200 (JsonMessage "User not found, ignoring webhook"))
            | Some userToken =>
                transformedData <-
                  lift (fun e =>
                    transformAppleHealthData e
                      (if jsval_eqb_str type "sleep" then Some data else None)
                      (if jsval_eqb_str type "daily" then Some data else None)
                      (if jsval_eqb_str type "body" then Some data else None)) ;;
                createWearableData
                  (insert_of_transformed (WearableToken.userId userToken) transformedData) ;;
                ret (Response.mk 200 (JsonMessage "Webhook processed successfully"))
            end
        end
      else ret (Response.mk 200 (JsonMessage "Webhook processed successfully"))
  end.

(** [POST /api/terra/webhook] *)
Definition terra_webhook (reqBody : option WebhookBody.t) : M Response.t :=
  try_catch (terra_webhook_try reqBody)
            (fun _ => ret (Response.mk 500 (JsonError "Failed to process webhook"))).

Definition known_provider (provider : string) : bool :=
  String.eqb provider "whoop" || String.eqb provider "apple_health".

(** [DELETE /api/auth/:provider/:userId] *)
Definition disconnect (provider userId : string) : M Response.t :=
  try_catch
    (let userIdNum := parseInt userId in
     if number_falsy userIdNum || isNaN userIdNum
     then ret (Response.mk 400 (JsonError "Invalid user ID"))
     else if negb (known_provider provider)
     then ret (Response.mk 400 (JsonError "Invalid provider"))
     else
       let userIdNum := match userIdNum with Some n => n | None => 0 end in
       deleteWearableToken userIdNum provider ;;
       ret (Response.json (JsonSuccess (provider ++ " disconnected successfully"))))
    (fun _ => ret (Response.mk 500 (JsonError "Failed to disconnect device"))).

(** [results.find(r => r.provider === 'whoop')?.status !== 'success'] *)
Definition no_whoop_success (rs : list SyncOutcome.t) : bool :=
  match find (fun r => String.eqb (SyncOutcome.provider r) "whoop") rs with
  | Some r => negb (String.eqb (SyncOutcome.status r) "success")
  | None => true
  end.

Definition useRealWhoop : bool := true.

(** [// Check if token needs refresh]: the access token the rest of the
    block uses, refreshed and stored when the Credential is stale. *)
Definition refresh_if_stale (userId : Z) (whoopToken : WearableToken.t) : M string :=
  match WearableToken.expiresAt whoopToken with
  | Some expiresAt =>
      t <- now ;;
      if expiresAt <? t
      then
        refreshedTokens <-
          call_provider (CallRefresh (WearableToken.refreshToken whoopToken))
            (fun e => refreshAccessToken e (WearableToken.refreshToken whoopToken)) ;;
        t' <- now ;;
        let newExpiresAt := t' + RefreshedTokens.expires_in refreshedTokens * 1000 in
        updateWearableToken userId "whoop"
          (TokenUpdates.mk (Some (RefreshedTokens.access_token refreshedTokens))
                           (Some (Some (RefreshedTokens.refresh_token refreshedTokens)))
                           None (Some (Some newExpiresAt)) None) ;;
        ret (RefreshedTokens.access_token refreshedTokens)
      else ret (WearableToken.accessToken whoopToken)
  | None => ret (WearableToken.accessToken whoopToken)
  end.

(** [if (useRealWhoop) { try { ... } catch { } }]: fetch, transform, store
    and report; any exception is swallowed. *)
Definition fetch_real (userId : Z) (accessToken : string) : M unit :=
  try_catch
    (p1 <- settle (call_provider (CallRecovery accessToken)
                                 (fun e => getRecoveryData e accessToken 1)) ;;
     p2 <- settle (call_provider (CallSleep accessToken)
                                 (fun e => getSleepData e accessToken 1)) ;;
     p3 <- settle (call_provider (CallCycle accessToken)
                                 (fun e => getCycleData e accessToken 1)) ;;
     recoveryData <- await p1 ;;
     sleepData <- await p2 ;;
     cycleData <- await p3 ;;
     transformedData <-
       lift (fun e => transformWHOOPData e recoveryData sleepData cycleData) ;;
     createWearableData (insert_of_transformed userId transformedData) ;;
     push_result (SyncOutcome.success "whoop" (FromProvider transformedData)))
    (fun _ => ret tt).

(** The demo branch: simulate, store, touch the Credential and report. *)
Definition demo_fallback (userId : Z) : M unit :=
  r1 <- random ;;
  r2 <- random ;;
  r3 <- random ;;
  r4 <- random ;;
  r5 <- random ;;
  r6 <- random ;;
  t <- now ;;
  let strainLevel := toFixed1 (r4 * 15 + 5) in
  let demoData :=
    Simulated.mk "whoop"
      (Math_floor (r1 * 40) + 60)
      (String_of_Z (Math_floor (r2 * 2) + 7) ++ "h "
       ++ String_of_Z (Math_floor (r3 * 60)) ++ "m")
      (JStr strainLevel)
      (Math_floor (r5 * 50) + 25)
      (Math_floor (r6 * 40) + 60)
      t in
  createWearableData
    (InsertWearableData.mk userId
       (Simulated.deviceType demoData)
       (Some (Simulated.sleepScore demoData))
       (Some (Simulated.sleepDuration demoData))
       (Some strainLevel)
       (Some (Simulated.hrv demoData))
       (Some (Simulated.heartRate demoData))) ;;
  t' <- now ;;
  updateWearableToken userId "whoop"
    (TokenUpdates.mk None None None None (Some t')) ;;
  push_result (SyncOutcome.success "whoop" (FromSimulator demoData)).

(** The tracker block of the sync handler: [if (whoopToken) { try ... catch ... }]. *)
Definition sync_whoop (userId : Z) (whoopToken : WearableToken.t) : M unit :=
  try_catch
    (accessToken <- refresh_if_stale userId whoopToken ;;
     (if useRealWhoop then fetch_real userId accessToken else ret tt) ;;
     rs <- get_results ;;
     if negb useRealWhoop || no_whoop_success rs
     then demo_fallback userId
     else ret tt)
    (fun message => push_result (SyncOutcome.failure "whoop" message)).

(** [appleToken?.externalUserId] as a condition. *)
Definition has_externalUserId (appleToken : option WearableToken.t) : bool :=
  match appleToken with
  | Some t =>
      match WearableToken.externalUserId t with
      | Some x => negb (String.eqb x "")
      | None => false
      end
  | None => false
  end.

(** The aggregator block of the sync handler. *)
Definition sync_apple (userId : Z) : M unit :=
  try_catch
    (r1 <- random ;;
     r2 <- random ;;
     r3 <- random ;;
     r4 <- random ;;
     r5 <- random ;;
     r6 <- random ;;
     t <- now ;;
     let strainLevel := Math_floor (r4 * 15) + 5 in
     let mockData :=
       Simulated.mk "apple_watch"
         (Math_floor (r1 * 40) + 60)
         (String_of_Z (Math_floor (r2 * 2) + 7) ++ "h "
          ++ String_of_Z (Math_floor (r3 * 60)) ++ "m")
         (JNum strainLevel)
         (Math_floor (r5 * 50) + 25)
         (Math_floor (r6 * 40) + 60)
         t in
     createWearableData
       (InsertWearableData.mk userId
          (Simulated.deviceType mockData)
          (Some (Simulated.sleepScore mockData))
          (Some (Simulated.sleepDuration mockData))
          (Some (String_of_Z strainLevel))
          (Some (Simulated.hrv mockData))
          (Some (Simulated.heartRate mockData))) ;;
     push_result (SyncOutcome.success "apple_health" (FromSimulator mockData)))
    (fun message => push_result (SyncOutcome.failure "apple_health" message)).

(** [POST /api/sync/:userId] *)
Definition sync (userId : string) : M Response.t :=
  try_catch
    (let userId := parseInt userId in
     if number_falsy userId || isNaN userId
     then ret (Response.mk 400 (JsonError "Invalid user ID"))
     else
       let userId := match userId with Some n => n | None => 0 end in
       reset_results ;;
       whoopToken <- getWearableToken userId "whoop" ;;
       match whoopToken with
       | Some whoopToken => sync_whoop userId whoopToken
       | None => ret tt
       end ;;
       appleToken <- getWearableToken userId "apple_health" ;;
       (if has_externalUserId appleToken then sync_apple userId else ret tt) ;;
       rs <- get_results ;;
       ret (Response.json (JsonSync rs)))
    (fun _ => ret (Response.mk 500 (JsonError "Failed to sync wearable data"))).

(** [GET /api/wearable-status/:userId].  [Promise.all] issues both lookups;
    the handler fails when either does. *)
Definition wearable_status (userId : string) : M Response.t :=
  try_catch
    (let userId := parseInt userId in
     if number_falsy userId || isNaN userId
     then ret (Response.mk 400 (JsonError "Invalid user ID"))
     else
       let userId := match userId with Some n => n | None => 0 end in
       p1 <- settle (getWearableToken userId "whoop") ;;
       p2 <- settle (getWearableToken userId "apple_health") ;;
       whoopToken <- await p1 ;;
       appleToken <- await p2 ;;
       whoopNeedsReauth <-
         match whoopToken with
         | Some w =>
             match WearableToken.expiresAt w with
             | Some expiresAt => t <- now ;; ret (expiresAt <? t)
             | None => ret false
             end
         | None => ret false
         end ;;
       let status_whoop :=
         ProviderStatus.mk
           (match whoopToken with Some _ => true | None => false end)
           (match whoopToken with Some w => WearableToken.updatedAt w | None => None end)
           whoopNeedsReauth in
       let status_apple :=
         ProviderStatus.mk
           (match appleToken with Some _ => true | None => false end)
           (match appleToken with Some a => WearableToken.updatedAt a | None => None end)
           false in
       ret (Response.json (JsonStatus status_whoop status_apple)))
    (fun _ => ret (Response.mk 500 (JsonError "Failed to check connection status"))).

End Routes.

(* ================================================================== *)
(** ** whoopStrategy.ts *)

Module WhoopStrategy.

Import DatabaseStorage.

(** What [done] is called with: the user object or the error. *)
Inductive Done : Type :=
| DoneUser (userId : Z) (whoopUserId : jsval) (accessToken : string)
| DoneError (message : string).

(** [user_id.toString()] *)
Definition toString (v : jsval) : M string :=
  match v with
  | JNum n => ret (String_of_Z n)
  | JStr s => ret s
  | JUndefined | JNull =>
      throw "TypeError: Cannot read properties of undefined (reading 'toString')"
  end.

(** The verify callback of the tracker's OAuth strategy, called with the
    tokens, [results.expires_in] and [profile.user_id]. *)
Definition handleAuthentication (accessToken refreshToken : string) (expires_in : Z)
           (user_id : jsval) : M Done :=
  try_catch
    (t <- now ;;
     let expiresAt := t + expires_in * 1000 in
     let userId := 1 in
     existingToken <- getWearableToken userId "whoop" ;;
     match existingToken with
     | Some _ =>
         externalUserId <- toString user_id ;;
         updateWearableToken userId "whoop"
           (TokenUpdates.mk (Some accessToken) (Some (Some refreshToken))
                            (Some (Some externalUserId)) (Some (Some expiresAt)) None) ;;
         ret tt
     | None =>
         externalUserId <- toString user_id ;;
         createWearableToken
           (WearableToken.mk userId "whoop" accessToken (Some refreshToken)
                             (Some externalUserId) (Some expiresAt) None) ;;
         ret tt
     end ;;
     ret (DoneUser userId user_id accessToken))
    (fun message => ret (DoneError message)).

End WhoopStrategy.


(* ================================================================== *)
(** ** A program logic for the handler monad *)

Section ProgramLogic.

Context (e : Env).

(** [wp m Q X s]: run from [s] in the environment [e], [m] either returns
    [a] in a state satisfying [Q a] or throws [msg] in a state satisfying
    [X msg]. *)
Definition wp {A : Type} (m : M A)
           (Q : A -> State -> Prop) (X : string -> State -> Prop) (s : State) : Prop :=
  match m e s with
  | (Ok a, s') => Q a s'
  | (Throw msg, s') => X msg s'
  end.

Lemma wp_ret {A : Type} (a : A) Q X s : Q a s -> wp (ret a) Q X s.
Proof. exact (fun H => H). Qed.

Lemma wp_throw {A : Type} msg (Q : A -> State -> Prop) X s : X msg s -> wp (throw msg) Q X s.
Proof. exact (fun H => H). Qed.

Lemma wp_bind {A B : Type} (m : M A) (k : A -> M B) Q X s :
  wp m (fun a s' => wp (k a) Q X s') X s -> wp (bind m k) Q X s.
Proof.
  unfold wp, bind. destruct (m e s) as [[a | msg] s']; trivial.
Qed.

Lemma wp_try_catch {A : Type} (body : M A) (handler : string -> M A) Q X s :
  wp body Q (fun msg s' => wp (handler msg) Q X s') s -> wp (try_catch body handler) Q X s.
Proof.
  unfold wp, try_catch. destruct (body e s) as [[a | msg] s']; trivial.
Qed.

Lemma wp_weaken {A : Type} (m : M A) (Q Q' : A -> State -> Prop) (X X' : string -> State -> Prop) s :
  wp m Q X s ->
  (forall a s', Q a s' -> Q' a s') ->
  (forall msg s', X msg s' -> X' msg s') ->
  wp m Q' X' s.
Proof.
  unfold wp. destruct (m e s) as [[a | msg] s']; auto.
Qed.

Lemma wp_result {A : Type} (m : M A) Q X s :
  wp m Q X s ->
  match fst (m e s) with
  | Ok a => Q a (snd (m e s))
  | Throw msg => X msg (snd (m e s))
  end.
Proof.
  unfold wp. destruct (m e s) as [[a | msg] s']; trivial.
Qed.

(** [triple P m Q X]: a Hoare triple with a postcondition for each exit. *)
Definition triple {A : Type} (P : State -> Prop) (m : M A)
           (Q : A -> State -> Prop) (X : string -> State -> Prop) : Prop :=
  forall s, P s -> wp m Q X s.

Lemma triple_bind {A B : Type} (P : State -> Prop) (m : M A) (k : A -> M B)
      (Q1 : A -> State -> Prop) Q X :
  triple P m Q1 X -> (forall a, triple (Q1 a) (k a) Q X) -> triple P (bind m k) Q X.
Proof.
  intros Hm Hk s Hs. apply wp_bind.
  eapply wp_weaken; [apply Hm, Hs | | trivial].
  intros a s' Ha. apply (Hk a s' Ha).
Qed.

Lemma triple_try_catch {A : Type} (P : State -> Prop) (body : M A) (handler : string -> M A)
      (X1 : string -> State -> Prop) Q X :
  triple P body Q X1 -> (forall msg, triple (X1 msg) (handler msg) Q X) ->
  triple P (try_catch body handler) Q X.
Proof.
  intros Hb Hh s Hs. apply wp_try_catch.
  eapply wp_weaken; [apply Hb, Hs | trivial | ].
  intros msg s' Hs'. apply (Hh msg s' Hs').
Qed.

Lemma triple_weaken {A : Type} (P P' : State -> Prop) (m : M A)
      (Q Q' : A -> State -> Prop) (X X' : string -> State -> Prop) :
  triple P m Q X ->
  (forall s, P' s -> P s) ->
  (forall a s, Q a s -> Q' a s) ->
  (forall msg s, X msg s -> X' msg s) ->
  triple P' m Q' X'.
Proof.
  intros Hm HP HQ HX s Hs. eapply wp_weaken; [apply Hm, HP, Hs | exact HQ | exact HX].
Qed.

(** [keeps Inv m V]: [m] preserves the invariant [Inv], whether it returns or
    throws, and a value it returns satisfies [V]. *)
Definition keeps {A : Type} (Inv : State -> Prop) (m : M A) (V : A -> Prop) : Prop :=
  triple Inv m (fun a s' => Inv s' /\ V a) (fun _ s' => Inv s').

(** [stable Inv f]: the state change [f] does not disturb [Inv]. *)
Definition stable (Inv : State -> Prop) (f : State -> State) : Prop :=
  forall s, Inv s -> Inv (f s).

Section Keeps.

Context (Inv : State -> Prop).

Lemma keeps_ret {A : Type} (a : A) (V : A -> Prop) : V a -> keeps Inv (ret a) V.
Proof. intros Ha s Hs. apply wp_ret. auto. Qed.

Lemma keeps_throw {A : Type} msg (V : A -> Prop) : keeps Inv (throw msg) V.
Proof. intros s Hs. apply wp_throw. exact Hs. Qed.

Lemma keeps_bind {A B : Type} (m : M A) (k : A -> M B) (V1 : A -> Prop) (V2 : B -> Prop) :
  keeps Inv m V1 -> (forall a, V1 a -> keeps Inv (k a) V2) -> keeps Inv (bind m k) V2.
Proof.
  intros Hm Hk. eapply triple_bind; [exact Hm | ].
  intros a s [Hs Ha]. apply (Hk a Ha s Hs).
Qed.

Lemma keeps_try_catch {A : Type} (body : M A) (handler : string -> M A) (V : A -> Prop) :
  keeps Inv body V -> (forall msg, keeps Inv (handler msg) V) -> keeps Inv (try_catch body handler) V.
Proof.
  intros Hb Hh. eapply triple_try_catch; [exact Hb | exact Hh].
Qed.

Lemma keeps_weaken {A : Type} (m : M A) (V V' : A -> Prop) :
  keeps Inv m V -> (forall a, V a -> V' a) -> keeps Inv m V'.
Proof.
  intros Hm HV. eapply triple_weaken; [exact Hm | trivial | | trivial].
  intros a s [Hs Ha]. auto.
Qed.

Lemma keeps_settle {A : Type} (m : M A) (V : A -> Prop) :
  keeps Inv m V -> keeps Inv (settle m) (fun r => forall a, r = Ok a -> V a).
Proof.
  intros Hm. unfold settle. apply keeps_try_catch.
  - eapply keeps_bind; [exact Hm | ].
    intros a Ha. apply keeps_ret. intros a' E. injection E as <-. exact Ha.
  - intros msg. apply keeps_ret. intros a E. discriminate E.
Qed.

Lemma keeps_await {A : Type} (p : Result A) : keeps Inv (await p) (fun a => p = Ok a).
Proof. intros s Hs. unfold wp, await. destruct p; auto. Qed.

Lemma keeps_lift {A : Type} (f : Env -> Result A) : keeps Inv (lift f) (fun a => f e = Ok a).
Proof. intros s Hs. unfold wp, lift. destruct (f e); auto. Qed.

Lemma keeps_now : stable Inv tick_clock -> keeps Inv now (fun _ => True).
Proof. intros H s Hs. unfold wp, now. auto. Qed.

Lemma keeps_random :
  stable Inv tick_random -> keeps Inv random (fun r => exists i, r = Math_random e i).
Proof. intros H s Hs. unfold wp, random. split; [auto | eauto]. Qed.

Lemma keeps_call_provider {A : Type} c (answer : Env -> Result A) :
  stable Inv (log_call c) -> keeps Inv (call_provider c answer) (fun a => answer e = Ok a).
Proof. intros H s Hs. unfold wp, call_provider. destruct (answer e); auto. Qed.

Lemma keeps_push_result o :
  stable Inv (set_results (fun rs => rs ++ [o])%list) -> keeps Inv (push_result o) (fun _ => True).
Proof. intros H s Hs. unfold wp, push_result. auto. Qed.

Lemma keeps_reset_results :
  stable Inv (set_results (fun _ => [])) -> keeps Inv reset_results (fun _ => True).
Proof. intros H s Hs. unfold wp, reset_results. auto. Qed.

Lemma keeps_get_results : keeps Inv get_results (fun _ => True).
Proof. intros s Hs. unfold wp, get_results. auto. Qed.

Import DatabaseStorage.

Lemma keeps_statement {A : Type} (run : State -> A * State) (V : A -> Prop) :
  stable Inv count_statement ->
  (forall s, Inv s -> Inv (snd (run s)) /\ V (fst (run s))) ->
  keeps Inv (statement run) V.
Proof.
  intros Hc Hrun s Hs. unfold wp, statement.
  destruct (db_rejects e (db_statements s)).
  - apply Hc, Hs.
  - specialize (Hrun _ (Hc s Hs)). destruct (run (count_statement s)) as [a s']. exact Hrun.
Qed.

Lemma keeps_getWearableToken userId provider :
  stable Inv count_statement -> keeps Inv (getWearableToken userId provider) (fun _ => True).
Proof. intros Hc. apply keeps_statement; auto. Qed.

Lemma keeps_getWearableToken_any userId provider :
  stable Inv count_statement -> keeps Inv (getWearableToken_any userId provider) (fun _ => True).
Proof.
  intros Hc. unfold getWearableToken_any. destruct (int4_param userId) as [[n | ] | msg].
  - apply keeps_getWearableToken, Hc.
  - apply keeps_statement; auto.
  - intros s Hs. apply Hc, Hs.
Qed.

Lemma keeps_createWearableToken tok :
  stable Inv count_statement ->
  stable Inv (set_wearableTokens (fun rows => rows ++ [tok])%list) ->
  keeps Inv (createWearableToken tok) (fun _ => True).
Proof.
  intros Hc HT. apply keeps_statement; [exact Hc | ].
  intros s Hs. split; [apply HT, Hs | exact I].
Qed.

Lemma keeps_updateWearableToken userId provider updates :
  stable Inv tick_clock ->
  stable Inv count_statement ->
  (forall at_, stable Inv (set_wearableTokens
                           (update_rows userId provider (with_updatedAt updates at_)))) ->
  keeps Inv (updateWearableToken userId provider updates) (fun _ => True).
Proof.
  intros Ht Hc HT. unfold updateWearableToken.
  eapply keeps_bind; [apply keeps_now, Ht | ].
  intros at_ _. apply keeps_statement; [exact Hc | ].
  intros s Hs. split; [apply HT, Hs | exact I].
Qed.

Lemma keeps_deleteWearableToken userId provider :
  stable Inv count_statement ->
  stable Inv (set_wearableTokens (filter (fun t => negb (token_matches userId provider t)))) ->
  keeps Inv (deleteWearableToken userId provider) (fun _ => True).
Proof.
  intros Hc HT. apply keeps_statement; [exact Hc | ].
  intros s Hs. split; [apply HT, Hs | exact I].
Qed.

Lemma keeps_createWearableData insertData :
  stable Inv tick_clock ->
  stable Inv count_statement ->
  (forall id at_, stable Inv (set_wearableData
                              (fun rows => rows ++ [inserted_row id insertData at_])%list)) ->
  keeps Inv (createWearableData insertData) (fun _ => True).
Proof.
  intros Ht Hc HT. unfold createWearableData.
  eapply keeps_bind; [apply keeps_now, Ht | ].
  intros at_ _. apply keeps_statement; [exact Hc | ].
  intros s Hs. split; [apply HT, Hs | exact I].
Qed.

End Keeps.

End ProgramLogic.

Lemma keeps_final {A : Type} e (Inv : State -> Prop) (m : M A) V s :
  keeps e Inv m V -> Inv s -> Inv (snd (m e s)).
Proof.
  intros Hm Hs. pose proof (wp_result e m _ _ s (Hm s Hs)) as H.
  destruct (fst (m e s)); [exact (proj1 H) | exact H].
Qed.

Lemma keeps_value {A : Type} e (Inv : State -> Prop) (m : M A) V s a :
  keeps e Inv m V -> Inv s -> fst (m e s) = Ok a -> V a.
Proof.
  intros Hm Hs E. pose proof (wp_result e m _ _ s (Hm s Hs)) as H.
  rewrite E in H. exact (proj2 H).
Qed.

(** Walks a handler and applies the rule for each construct; what is left
    are the side conditions of the statements that write to a table. *)
Ltac stable_by_conversion :=
  first
    [ intros ? H_stable; exact H_stable
    | intros ? ? H_stable; exact H_stable
    | intros ? ? ? H_stable; exact H_stable ].

Ltac keeps_leaf :=
  lazymatch goal with
  | |- keeps _ _ now _ => apply keeps_now
  | |- keeps _ _ (push_result _) _ => apply keeps_push_result
  | |- keeps _ _ reset_results _ => apply keeps_reset_results
  | |- keeps _ _ get_results _ => apply keeps_get_results
  | |- keeps _ _ (DatabaseStorage.getWearableToken _ _) _ => apply keeps_getWearableToken
  | |- keeps _ _ (DatabaseStorage.getWearableToken_any _ _) _ =>
      apply keeps_getWearableToken_any
  | |- keeps _ _ (throw _) _ => apply keeps_throw
  | |- keeps _ _ (ret _) _ => apply keeps_ret; try exact I
  | |- keeps _ _ (DatabaseStorage.createWearableToken _) _ => apply keeps_createWearableToken
  | |- keeps _ _ (DatabaseStorage.updateWearableToken _ _ _) _ =>
      apply keeps_updateWearableToken
  | |- keeps _ _ (DatabaseStorage.deleteWearableToken _ _) _ =>
      apply keeps_deleteWearableToken
  | |- keeps _ _ (DatabaseStorage.createWearableData _) _ => apply keeps_createWearableData
  | |- keeps _ _ random _ =>
      eapply keeps_weaken; [apply keeps_random | exact (fun _ _ => I)]
  | |- keeps _ _ (call_provider _ _) _ =>
      eapply keeps_weaken; [apply keeps_call_provider | exact (fun _ _ => I)]
  | |- keeps _ _ (lift _) _ =>
      eapply keeps_weaken; [apply keeps_lift | exact (fun _ _ => I)]
  | |- keeps _ _ (await _) _ =>
      eapply keeps_weaken; [apply keeps_await | exact (fun _ _ => I)]
  | |- _ => idtac
  end;
  try stable_by_conversion.

Ltac keeps_walk :=
  lazymatch goal with
  | |- keeps _ _ (bind random _) _ =>
      eapply keeps_bind;
      [apply keeps_random; try stable_by_conversion | intros ? [? ->]; keeps_walk]
  | |- keeps _ _ (bind (lift _) _) _ =>
      eapply keeps_bind; [apply keeps_lift | intros ? ?; cbv beta in *; keeps_walk]
  | |- keeps _ _ (bind _ _) _ =>
      eapply keeps_bind with (V1 := fun _ => True); [keeps_walk | intros ? _; keeps_walk]
  | |- keeps _ _ (try_catch _ _) _ =>
      apply keeps_try_catch; [keeps_walk | intros ?; keeps_walk]
  | |- keeps _ _ (settle _) _ =>
      eapply keeps_weaken;
      [apply keeps_settle with (V := fun _ => True); keeps_walk | exact (fun _ _ => I)]
  | |- keeps _ _ (match ?x with _ => _ end) _ => destruct x eqn:?; keeps_walk
  | |- keeps _ _ (let _ := _ in _) _ => cbv zeta; keeps_walk
  | |- _ => keeps_leaf
  end.

(* ================================================================== *)
(** ** Simulated records *)

Module SimulatedRanges.

Import DatabaseStorage Routes.

(** A draw of [Math.random()]. *)
Definition unit_draw (r : Q) : Prop := (0 <= r)%Q /\ (r < 1)%Q.

Definition Zrange (lo hi : Z) : list Z :=
  map (fun i => lo + Z.of_nat i) (seq 0 (Z.to_nat (hi - lo + 1))).

Definition between (lo hi : Z) (x : option Z) : bool :=
  match x with
  | Some v => (lo <=? v) && (v <=? hi)
  | None => false
  end.

(** ["<h>h <m>m"] with [h] and [m] in the given ranges. *)
Definition duration_between (hlo hhi mlo mhi : Z) (x : option string) : bool :=
  match x with
  | Some s =>
      existsb (fun h =>
        existsb (fun m => String.eqb s (String_of_Z h ++ "h " ++ String_of_Z m ++ "m"))
                (Zrange mlo mhi))
        (Zrange hlo hhi)
  | None => false
  end.

(** A decimal with one fraction digit, between [lo] and [hi] tenths. *)
Definition one_decimal_between (lo hi : Z) (x : option string) : bool :=
  match x with
  | Some s => existsb (fun t => String.eqb s (render_fixed t 1)) (Zrange lo hi)
  | None => false
  end.

(** An integer printed without a fraction. *)
Definition integer_between (lo hi : Z) (x : option string) : bool :=
  match x with
  | Some s => existsb (fun n => String.eqb s (String_of_Z n)) (Zrange lo hi)
  | None => false
  end.

Definition ranges_with (strain_ok : option string -> bool) (row : WearableData.t) : bool :=
  between 60 99 (WearableData.sleepScore row)
  && duration_between 7 8 0 59 (WearableData.sleepDuration row)
  && strain_ok (WearableData.strainLevel row)
  && between 25 74 (WearableData.hrv row)
  && between 60 99 (WearableData.heartRate row).

(** The ranges as the specification lists them: strain 5.0 to 19.9. *)
Definition documented_ranges : WearableData.t -> bool :=
  ranges_with (one_decimal_between 50 199).

(** The ranges of the [toFixed(1)] paths: strain 5.0 to 20.0. *)
Definition tracker_ranges : WearableData.t -> bool :=
  ranges_with (one_decimal_between 50 200).

(** The ranges of the aggregator block of the sync handler: strain 5 to 19,
    an integer. *)
Definition aggregator_ranges : WearableData.t -> bool :=
  ranges_with (integer_between 5 19).

Lemma in_Zrange lo hi t : lo <= t <= hi -> In t (Zrange lo hi).
Proof.
  intros H. unfold Zrange. apply in_map_iff.
  exists (Z.to_nat (t - lo)). split; [lia | ].
  apply in_seq. lia.
Qed.

Lemma floor_between (x : Q) (lo hi : Z) :
  (inject_Z lo <= x)%Q -> (x < inject_Z (hi + 1))%Q -> lo <= Math_floor x <= hi.
Proof.
  intros Hlo Hhi. unfold Math_floor. split.
  - rewrite <- (Qfloor_Z lo). apply Qfloor_resp_le. exact Hlo.
  - assert (H : (inject_Z (Qfloor x) < inject_Z (hi + 1))%Q).
    { eapply Qle_lt_trans; [apply Qfloor_le | exact Hhi]. }
    rewrite <- Zlt_Qlt in H. lia.
Qed.

Lemma floor_scaled r (n : Z) :
  unit_draw r -> 0 < n -> 0 <= Math_floor (r * inject_Z n) <= n - 1.
Proof.
  intros [H0 H1] Hn. apply floor_between.
  - change (inject_Z 0) with 0%Q. apply Qmult_le_0_compat; [exact H0 | ].
    change 0%Q with (inject_Z 0). rewrite <- Zle_Qle. lia.
  - replace (n - 1 + 1) with n by lia.
    assert (Hp : (0 < inject_Z n)%Q) by (change 0%Q with (inject_Z 0); rewrite <- Zlt_Qlt; lia).
    setoid_replace (inject_Z n) with (1 * inject_Z n)%Q at 2 by ring.
    apply Qmult_lt_compat_r; assumption.
Qed.

Lemma score_between r (n base : Z) :
  unit_draw r -> 0 < n ->
  between base (base + n - 1) (Some (Math_floor (r * inject_Z n) + base)) = true.
Proof.
  intros Hr Hn. pose proof (floor_scaled r n Hr Hn). unfold between.
  apply andb_true_intro. split; apply Z.leb_le; lia.
Qed.

Lemma sleepScore_simulated r :
  unit_draw r -> between 60 99 (Some (Math_floor (r * 40) + 60)) = true.
Proof. intros Hr. exact (score_between r 40 60 Hr eq_refl). Qed.

Lemma hrv_simulated r :
  unit_draw r -> between 25 74 (Some (Math_floor (r * 50) + 25)) = true.
Proof. intros Hr. exact (score_between r 50 25 Hr eq_refl). Qed.

Lemma duration_simulated r2 r3 :
  unit_draw r2 -> unit_draw r3 ->
  duration_between 7 8 0 59
    (Some (String_of_Z (Math_floor (r2 * 2) + 7) ++ "h "
           ++ String_of_Z (Math_floor (r3 * 60)) ++ "m")) = true.
Proof.
  intros H2 H3. unfold duration_between.
  pose proof (floor_scaled r2 2 H2 eq_refl) as Hh.
  pose proof (floor_scaled r3 60 H3 eq_refl) as Hm.
  apply existsb_exists. exists (Math_floor (r2 * 2) + 7). split.
  - apply in_Zrange. change (2%Q) with (inject_Z 2). lia.
  - apply existsb_exists. exists (Math_floor (r3 * 60)). split.
    + apply in_Zrange. change (60%Q) with (inject_Z 60). lia.
    + apply String.eqb_refl.
Qed.

Lemma strain_tenths r : unit_draw r -> 50 <= toFixed1_tenths (r * 15 + 5) <= 200.
Proof.
  intros [H0 H1]. unfold toFixed1_tenths. change (Qfloor ?x) with (Math_floor x).
  apply floor_between; unfold inject_Z; simpl Z.add; lra.
Qed.

Lemma strain_tracker r :
  unit_draw r -> one_decimal_between 50 200 (Some (toFixed1 (r * 15 + 5))) = true.
Proof.
  intros Hr. unfold one_decimal_between, toFixed1.
  apply existsb_exists. exists (toFixed1_tenths (r * 15 + 5)). split.
  - apply in_Zrange, strain_tenths, Hr.
  - apply String.eqb_refl.
Qed.

Lemma strain_aggregator r :
  unit_draw r -> integer_between 5 19 (Some (String_of_Z (Math_floor (r * 15) + 5))) = true.
Proof.
  intros Hr. unfold integer_between.
  pose proof (floor_scaled r 15 Hr eq_refl) as H.
  apply existsb_exists. exists (Math_floor (r * 15) + 5). split.
  - apply in_Zrange. change (15%Q) with (inject_Z 15). lia.
  - apply String.eqb_refl.
Qed.

End SimulatedRanges.

Module Provenance.

Import DatabaseStorage Routes SimulatedRanges.

(** The rows appended to [wearable_data] since the table held [base] all
    satisfy [Good]. *)
Definition rows_from (base : list WearableData.t) (Good : WearableData.t -> Prop)
           (s : State) : Prop :=
  exists new, wearableData s = (base ++ new)%list /\ Forall Good new.

Lemma rows_from_start Good s : rows_from (wearableData s) Good s.
Proof. exists []. split; [symmetry; apply app_nil_r | constructor]. Qed.

Lemma rows_from_append base Good row :
  Good row ->
  stable (rows_from base Good) (set_wearableData (fun rows => rows ++ [row])%list).
Proof.
  intros Hrow s [new [E Hnew]]. exists (new ++ [row])%list. split.
  - simpl. rewrite E. symmetry. apply app_assoc.
  - apply Forall_app. split; [exact Hnew | repeat constructor; exact Hrow].
Qed.

(** A row that carries the transformer result [td] as the handlers store
    it, each field passed through [|| null]. *)
Definition from_transformer (td : Transformed.t) (row : WearableData.t) : Prop :=
  exists id at_,
    row = inserted_row id (insert_of_transformed (WearableData.userId row) td) at_.

Definition tracker_output (e : Env) (td : Transformed.t) : Prop :=
  exists a b c, transformWHOOPData e a b c = Ok td.

Definition aggregator_output (e : Env) (td : Transformed.t) : Prop :=
  exists a b c, transformAppleHealthData e a b c = Ok td.

(** Where a row written by the sync handler comes from. *)
Definition written_by_sync (e : Env) (row : WearableData.t) : Prop :=
  (exists td, tracker_output e td /\ from_transformer td row)
  \/ (WearableData.deviceType row = "whoop" /\ tracker_ranges row = true)
  \/ (WearableData.deviceType row = "apple_watch" /\ aggregator_ranges row = true).

(** Where a row written by the webhook handler comes from. *)
Definition written_by_webhook (e : Env) (row : WearableData.t) : Prop :=
  exists td, aggregator_output e td /\ from_transformer td row.

Section Handlers.

Context (e : Env) (draws : forall i, unit_draw (Math_random e i)).
Context (base : list WearableData.t).

Lemma simulated_row_tracker id userId deviceType i1 i2 i3 i4 i5 i6 at_ :
  tracker_ranges
    (inserted_row id
       (InsertWearableData.mk userId deviceType
          (Some (Math_floor (Math_random e i1 * 40) + 60))
          (Some (String_of_Z (Math_floor (Math_random e i2 * 2) + 7) ++ "h "
                 ++ String_of_Z (Math_floor (Math_random e i3 * 60)) ++ "m"))
          (Some (toFixed1 (Math_random e i4 * 15 + 5)))
          (Some (Math_floor (Math_random e i5 * 50) + 25))
          (Some (Math_floor (Math_random e i6 * 40) + 60)))
       at_) = true.
Proof.
  unfold tracker_ranges, ranges_with. cbn [inserted_row InsertWearableData.sleepScore
    InsertWearableData.sleepDuration InsertWearableData.strainLevel InsertWearableData.hrv
    InsertWearableData.heartRate WearableData.sleepScore WearableData.sleepDuration
    WearableData.strainLevel WearableData.hrv WearableData.heartRate].
  rewrite (sleepScore_simulated _ (draws i1)).
  rewrite (duration_simulated _ _ (draws i2) (draws i3)).
  rewrite (strain_tracker _ (draws i4)).
  rewrite (hrv_simulated _ (draws i5)).
  rewrite (sleepScore_simulated _ (draws i6)).
  reflexivity.
Qed.

Lemma simulated_row_aggregator id userId deviceType i1 i2 i3 i4 i5 i6 at_ :
  aggregator_ranges
    (inserted_row id
       (InsertWearableData.mk userId deviceType
          (Some (Math_floor (Math_random e i1 * 40) + 60))
          (Some (String_of_Z (Math_floor (Math_random e i2 * 2) + 7) ++ "h "
                 ++ String_of_Z (Math_floor (Math_random e i3 * 60)) ++ "m"))
          (Some (String_of_Z (Math_floor (Math_random e i4 * 15) + 5)))
          (Some (Math_floor (Math_random e i5 * 50) + 25))
          (Some (Math_floor (Math_random e i6 * 40) + 60)))
       at_) = true.
Proof.
  unfold aggregator_ranges, ranges_with. cbn [inserted_row InsertWearableData.sleepScore
    InsertWearableData.sleepDuration InsertWearableData.strainLevel InsertWearableData.hrv
    InsertWearableData.heartRate WearableData.sleepScore WearableData.sleepDuration
    WearableData.strainLevel WearableData.hrv WearableData.heartRate].
  rewrite (sleepScore_simulated _ (draws i1)).
  rewrite (duration_simulated _ _ (draws i2) (draws i3)).
  rewrite (strain_aggregator _ (draws i4)).
  rewrite (hrv_simulated _ (draws i5)).
  rewrite (sleepScore_simulated _ (draws i6)).
  reflexivity.
Qed.

Lemma whoop_demo_auth_rows q :
  keeps e (rows_from base (fun row => tracker_ranges row = true)) (whoop_demo_auth q)
        (fun _ => True).
Proof.
  unfold whoop_demo_auth. keeps_walk.
  intros id at_. apply rows_from_append. apply simulated_row_tracker.
Qed.

Lemma apple_mock_auth_rows q :
  keeps e (rows_from base (fun row => tracker_ranges row = true)) (apple_mock_auth q)
        (fun _ => True).
Proof.
  unfold apple_mock_auth. keeps_walk.
  intros id at_. apply rows_from_append. apply simulated_row_tracker.
Qed.

Lemma sync_whoop_rows userId whoopToken :
  keeps e (rows_from base (written_by_sync e)) (sync_whoop userId whoopToken) (fun _ => True).
Proof.
  unfold sync_whoop, refresh_if_stale, fetch_real, demo_fallback. keeps_walk.
  - intros id at_. apply rows_from_append. left.
    eexists. split; [do 3 eexists; eassumption | do 2 eexists; reflexivity].
  - intros id at_. apply rows_from_append. right. left.
    split; [reflexivity | apply simulated_row_tracker].
Qed.

Lemma sync_apple_rows userId :
  keeps e (rows_from base (written_by_sync e)) (sync_apple userId) (fun _ => True).
Proof.
  unfold sync_apple. keeps_walk.
  intros id at_. apply rows_from_append. right. right.
  split; [reflexivity | apply simulated_row_aggregator].
Qed.

Lemma sync_rows userId :
  keeps e (rows_from base (written_by_sync e)) (sync userId) (fun _ => True).
Proof.
  unfold sync. keeps_walk.
  - apply sync_whoop_rows.
  - apply sync_apple_rows.
Qed.

Lemma terra_webhook_rows reqBody :
  keeps e (rows_from base (written_by_webhook e)) (terra_webhook reqBody) (fun _ => True).
Proof.
  unfold terra_webhook, terra_webhook_try. keeps_walk.
  intros id at_. apply rows_from_append.
  eexists. split; [do 3 eexists; eassumption | do 2 eexists; reflexivity].
Qed.

End Handlers.

End Provenance.

(* ================================================================== *)
(** ** Concrete worlds *)

Module Scenarios.

Import SimulatedRanges.

(** A clock that advances one millisecond per reading. *)
Definition clock_from (start : Z) : nat -> Z := fun i => start + Z.of_nat i.

(** The tracker's API answers every request with an error and rejects
    every refresh token; the database accepts every statement. *)
Definition tracker_down : Env :=
  mkEnv (clock_from 1700000000000)
        (fun _ => 1023 # 1024)
        (fun _ => false)
        (fun _ => Throw "WHOOP token refresh failed: invalid_grant")
        (fun _ _ => Throw "WHOOP API error: 503")
        (fun _ _ => Throw "WHOOP API error: 503")
        (fun _ _ => Throw "WHOOP API error: 503")
        (fun _ _ _ => Throw "unexpected payload")
        (fun _ _ _ => Throw "unexpected payload").

(** The tracker's API answers, and the transformer returns a record whose
    strain is 10.005. *)
Definition tracker_reports : Env :=
  mkEnv (clock_from 1700000000000)
        (fun _ => 1 # 2)
        (fun _ => false)
        (fun _ => Throw "WHOOP token refresh failed: invalid_grant")
        (fun _ _ => Ok "{}")
        (fun _ _ => Ok "{}")
        (fun _ _ => Ok "{}")
        (fun _ _ _ => Ok (Transformed.mk "whoop" (Some 82) (Some "7h 10m")
                                         (Some (mkDecimal 10005 3)) (Some 48) (Some 61)))
        (fun _ _ _ => Throw "unexpected payload").

Definition store_of (tokens : list WearableToken.t) : State :=
  mkState tokens [] [] 0 0 0 [].

(** User 5 with a tracker Credential that expires in the future. *)
Definition fresh_tracker_credential : WearableToken.t :=
  WearableToken.mk 5 "whoop" "access-1" (Some "refresh-1") (Some "whoop-user-77")
                   (Some 1800000000000) None.

(** The same Credential, expired. *)
Definition stale_tracker_credential : WearableToken.t :=
  WearableToken.mk 5 "whoop" "access-1" (Some "refresh-1") (Some "whoop-user-77")
                   (Some 1600000000000) None.

Definition outage_sync : Result Response.t * State :=
  Routes.sync "5" tracker_down (store_of [fresh_tracker_credential]).

Lemma tracker_down_draws : forall i, unit_draw (Math_random tracker_down i).
Proof. intros i. split; unfold Qle, Qlt; simpl; lia. Qed.

Lemma tracker_reports_draws : forall i, unit_draw (Math_random tracker_reports i).
Proof. intros i. split; unfold Qle, Qlt; simpl; lia. Qed.

End Scenarios.

(* ================================================================== *)
(** ** Simulated records and their ranges *)

Module SimulatedClaims.

Import DatabaseStorage Routes SimulatedRanges Provenance Scenarios.

(** The rows a handler run appends to [wearable_data] all satisfy [Good]. *)
Definition appends (Good : WearableData.t -> Prop) (before after : State) : Prop :=
  exists new, wearableData after = (wearableData before ++ new)%list /\ Forall Good new.

Lemma appends_of_keeps {A : Type} e Good (m : M A) V s :
  keeps e (rows_from (wearableData s) Good) m V -> appends Good s (snd (m e s)).
Proof.
  intros Hm. exact (keeps_final e _ m V s Hm (rows_from_start Good s)).
Qed.

(** The simulator's ranges on the record of an outcome; its strain is a
    one-decimal text from 5.0 to 20.0 or an integer from 5 to 19. *)
Definition simulated_ranges (d : Simulated.t) : bool :=
  between 60 99 (Some (Simulated.sleepScore d))
  && duration_between 7 8 0 59 (Some (Simulated.sleepDuration d))
  && match Simulated.strainLevel d with
     | JStr text => one_decimal_between 50 200 (Some text)
     | JNum v => (5 <=? v) && (v <=? 19)
     | JUndefined | JNull => false
     end
  && between 25 74 (Some (Simulated.hrv d))
  && between 60 99 (Some (Simulated.heartRate d)).

(** Every outcome that carries a simulated record carries one within the
    simulator's ranges. *)
Definition reports_within_ranges (rs : list SyncOutcome.t) : Prop :=
  forall o d,
    In o rs -> SyncOutcome.data o = Some (FromSimulator d) -> simulated_ranges d = true.

Section Reported.

Context (e : Env) (draws : forall i, unit_draw (Math_random e i)).

Let reported (s : State) : Prop := reports_within_ranges (results s).

Lemma reports_push o :
  (forall d, SyncOutcome.data o = Some (FromSimulator d) -> simulated_ranges d = true) ->
  stable reported (set_results (fun rs => rs ++ [o])%list).
Proof.
  intros Ho s Hs o' d Hin. simpl in Hin. apply in_app_or in Hin.
  destruct Hin as [Hin | [<- | []]]; [apply (Hs o' d Hin) | apply Ho].
Qed.

Lemma reports_reset : stable reported (set_results (fun _ => [])).
Proof. intros s Hs o d []. Qed.

Lemma simulated_tracker_ranges i1 i2 i3 i4 i5 i6 at_ :
  simulated_ranges
    (Simulated.mk "whoop"
       (Math_floor (Math_random e i1 * 40) + 60)
       (String_of_Z (Math_floor (Math_random e i2 * 2) + 7) ++ "h "
        ++ String_of_Z (Math_floor (Math_random e i3 * 60)) ++ "m")
       (JStr (toFixed1 (Math_random e i4 * 15 + 5)))
       (Math_floor (Math_random e i5 * 50) + 25)
       (Math_floor (Math_random e i6 * 40) + 60)
       at_) = true.
Proof.
  unfold simulated_ranges.
  cbn [Simulated.sleepScore Simulated.sleepDuration Simulated.strainLevel Simulated.hrv
       Simulated.heartRate].
  rewrite (sleepScore_simulated _ (draws i1)).
  rewrite (duration_simulated _ _ (draws i2) (draws i3)).
  rewrite (strain_tracker _ (draws i4)).
  rewrite (hrv_simulated _ (draws i5)).
  rewrite (sleepScore_simulated _ (draws i6)).
  reflexivity.
Qed.

Lemma simulated_aggregator_ranges i1 i2 i3 i4 i5 i6 at_ :
  simulated_ranges
    (Simulated.mk "apple_watch"
       (Math_floor (Math_random e i1 * 40) + 60)
       (String_of_Z (Math_floor (Math_random e i2 * 2) + 7) ++ "h "
        ++ String_of_Z (Math_floor (Math_random e i3 * 60)) ++ "m")
       (JNum (Math_floor (Math_random e i4 * 15) + 5))
       (Math_floor (Math_random e i5 * 50) + 25)
       (Math_floor (Math_random e i6 * 40) + 60)
       at_) = true.
Proof.
  unfold simulated_ranges.
  cbn [Simulated.sleepScore Simulated.sleepDuration Simulated.strainLevel Simulated.hrv
       Simulated.heartRate].
  rewrite (sleepScore_simulated _ (draws i1)).
  rewrite (duration_simulated _ _ (draws i2) (draws i3)).
  rewrite (hrv_simulated _ (draws i5)).
  rewrite (sleepScore_simulated _ (draws i6)).
  pose proof (floor_scaled _ 15 (draws i4) eq_refl) as H.
  change (inject_Z 15) with 15%Q in H.
  replace ((5 <=? Math_floor (Math_random e i4 * 15) + 5)
           && (Math_floor (Math_random e i4 * 15) + 5 <=? 19)) with true; [reflexivity | ].
  symmetry. apply andb_true_intro. split; apply Z.leb_le; lia.
Qed.

Ltac report_side_conditions :=
  lazymatch goal with
  | |- stable _ (set_results (fun _ => [])) => apply reports_reset
  | |- stable _ (set_results (fun rs => (rs ++ [_])%list)) =>
      apply reports_push; intros d E; simpl in E;
      first
        [ discriminate E
        | injection E as <-;
          first [apply simulated_tracker_ranges | apply simulated_aggregator_ranges] ]
  end.

Lemma sync_whoop_reports userId whoopToken :
  keeps e reported (sync_whoop userId whoopToken) (fun _ => True).
Proof.
  unfold sync_whoop, refresh_if_stale, fetch_real, demo_fallback.
  keeps_walk; report_side_conditions.
Qed.

Lemma sync_apple_reports userId :
  keeps e reported (sync_apple userId) (fun _ => True).
Proof. unfold sync_apple. keeps_walk; report_side_conditions. Qed.

Definition answers_within_ranges (resp : Response.t) : Prop :=
  forall rs, Response.body resp = JsonSync rs -> reports_within_ranges rs.

Lemma sync_rest_reports userId :
  keeps e reported
        (whoopToken <- getWearableToken userId "whoop" ;;
         match whoopToken with
         | Some whoopToken => sync_whoop userId whoopToken
         | None => ret tt
         end ;;
         appleToken <- getWearableToken userId "apple_health" ;;
         (if has_externalUserId appleToken then sync_apple userId else ret tt) ;;
         rs <- get_results ;;
         ret (Response.json (JsonSync rs)))
        answers_within_ranges.
Proof.
  eapply keeps_bind with (V1 := fun _ => True); [keeps_walk | ]. intros whoopToken _.
  eapply keeps_bind with (V1 := fun _ => True).
  { destruct whoopToken; [apply sync_whoop_reports | keeps_walk]. }
  intros _ _.
  eapply keeps_bind with (V1 := fun _ => True); [keeps_walk | ]. intros appleToken _.
  eapply keeps_bind with (V1 := fun _ => True).
  { destruct (has_externalUserId appleToken); [apply sync_apple_reports | keeps_walk]. }
  intros _ _ s Hs. apply wp_bind. unfold wp, get_results, ret.
  split; [exact Hs | ]. intros rs E. injection E as <-. exact Hs.
Qed.

Lemma sync_answers userId s :
  wp e (sync userId) (fun resp _ => answers_within_ranges resp) (fun _ _ => False) s.
Proof.
  unfold sync. apply wp_try_catch.
  destruct (number_falsy (parseInt userId) || isNaN (parseInt userId)).
  - apply wp_ret. intros rs E. discriminate E.
  - apply wp_bind. unfold wp at 1, reset_results.
    eapply wp_weaken; [apply sync_rest_reports | | ].
    + intros o d [].
    + intros resp s' [_ H]. exact H.
    + intros msg s' _. apply wp_ret. intros rs E. discriminate E.
Qed.

End Reported.

(** C3, counterexample: the tracker fallback of the sync handler stores a
    strain of 20.0 when the draw is 1023/1024, outside the documented
    5.0 to 19.9. *)
Lemma simulated_strain_reaches_20 :
  (forall i, unit_draw (Math_random tracker_down i)) /\
  exists d row,
    fst outage_sync
    = Ok (Response.json (JsonSync [SyncOutcome.success "whoop" (FromSimulator d)])) /\
    Simulated.strainLevel d = JStr "20.0" /\
    wearableData (snd outage_sync) = [row] /\
    WearableData.strainLevel row = Some "20.0" /\
    documented_ranges row = false.
Proof.
  split; [exact tracker_down_draws | ].
  do 2 eexists. vm_compute. repeat split; reflexivity.
Qed.

(** C3, amended: with every draw of [Math.random()] in the unit interval,
    each simulated record has sleep score 60 to 99, sleep duration 7 or 8
    hours and 0 to 59 minutes, HRV 25 to 74 and heart rate 60 to 99; its
    strain is a one-decimal text from 5.0 to 20.0 on the [toFixed(1)] paths
    (tracker demo authorization, aggregator mock authorization, tracker
    fallback of sync) and an integer from 5 to 19 on the aggregator block of
    sync.  This holds of every row the two authorization handlers append,
    of every row the sync handler appends that does not carry a transformer
    result, and of every simulated record in the answer of the sync
    handler. *)
Theorem simulated_records_within_ranges (e : Env) (s : State) :
  (forall i, unit_draw (Math_random e i)) ->
  (forall q, appends (fun row => tracker_ranges row = true) s (snd (whoop_demo_auth q e s)))
  /\ (forall q, appends (fun row => tracker_ranges row = true) s (snd (apple_mock_auth q e s)))
  /\ (forall userId, appends (written_by_sync e) s (snd (sync userId e s)))
  /\ (forall userId resp, fst (sync userId e s) = Ok resp -> answers_within_ranges resp).
Proof.
  intros draws. split; [ | split; [ | split]].
  - intros q. eapply appends_of_keeps. apply whoop_demo_auth_rows, draws.
  - intros q. eapply appends_of_keeps. apply apple_mock_auth_rows, draws.
  - intros userId. eapply appends_of_keeps. apply sync_rows, draws.
  - intros userId resp E.
    pose proof (wp_result e _ _ _ s (sync_answers e draws userId s)) as H.
    rewrite E in H. exact H.
Qed.

Lemma simulated_records_within_ranges_witness :
  (forall i, unit_draw (Math_random tracker_down i))
  /\ appends (written_by_sync tracker_down) (store_of [fresh_tracker_credential])
             (snd (sync "5" tracker_down (store_of [fresh_tracker_credential])))
  /\ (forall resp,
         fst (sync "5" tracker_down (store_of [fresh_tracker_credential])) = Ok resp ->
         answers_within_ranges resp).
Proof.
  pose proof (simulated_records_within_ranges tracker_down
                (store_of [fresh_tracker_credential]) tracker_down_draws)
    as [_ [_ [Hrows Hanswer]]].
  split; [exact tracker_down_draws | split].
  - exact (Hrows "5").
  - exact (Hanswer "5").
Defined.

End SimulatedClaims.

(* ================================================================== *)
(** ** Stored fields: absent or non-zero *)

Module StoredFields.

Import DatabaseStorage Routes SimulatedRanges Provenance Scenarios SimulatedClaims.

Definition is_zero (x : option Z) : bool :=
  match x with Some v => v =? 0 | None => false end.

Definition is_empty (x : option string) : bool :=
  match x with Some s => String.eqb s "" | None => false end.

(** No score is stored as 0 and no strain as the empty text. *)
Definition never_zero (row : WearableData.t) : bool :=
  negb (is_zero (WearableData.sleepScore row))
  && negb (is_zero (WearableData.hrv row))
  && negb (is_zero (WearableData.heartRate row))
  && negb (is_empty (WearableData.strainLevel row)).

Definition absent_or (ok : Z -> bool) (x : option Z) : bool :=
  match x with Some v => ok v | None => true end.

(** The ranges of the data model: a sleep score from 0 to 100, a positive
    HRV, a positive heart rate, each possibly absent. *)
Definition documented_fields (row : WearableData.t) : bool :=
  absent_or (fun v => (0 <=? v) && (v <=? 100)) (WearableData.sleepScore row)
  && absent_or (fun v => 0 <? v) (WearableData.hrv row)
  && absent_or (fun v => 0 <? v) (WearableData.heartRate row).

Lemma num_or_null_not_zero x : is_zero (num_or_null x) = false.
Proof.
  destruct x as [v | ]; [ | reflexivity].
  unfold num_or_null. destruct (v =? 0) eqn:E; [reflexivity | exact E].
Qed.

Lemma str_or_null_not_empty x : is_empty (str_or_null x) = false.
Proof.
  destruct x as [v | ]; [ | reflexivity].
  unfold str_or_null. destruct (String.eqb v "") eqn:E; [reflexivity | exact E].
Qed.

Lemma from_transformer_never_zero td row : from_transformer td row -> never_zero row = true.
Proof.
  intros [id [at_ E]]. rewrite E. unfold never_zero, inserted_row, insert_of_transformed.
  cbn [WearableData.sleepScore WearableData.hrv WearableData.heartRate
       WearableData.strainLevel InsertWearableData.sleepScore InsertWearableData.hrv
       InsertWearableData.heartRate InsertWearableData.strainLevel].
  unfold strain_text. rewrite !num_or_null_not_zero, str_or_null_not_empty. reflexivity.
Qed.

Lemma between_not_zero lo hi x : 0 < lo -> between lo hi x = true -> is_zero x = false.
Proof.
  intros Hlo H. destruct x as [v | ]; [ | reflexivity].
  unfold between in H. apply andb_prop in H. destruct H as [H1 H2].
  apply Z.leb_le in H1. apply Z.eqb_neq. lia.
Qed.

Lemma one_decimal_not_empty lo hi x : one_decimal_between lo hi x = true -> is_empty x = false.
Proof.
  destruct x as [s | ]; [ | reflexivity]. unfold one_decimal_between. intros H.
  apply existsb_exists in H. destruct H as [t [_ E]]. apply String.eqb_eq in E. subst s.
  unfold is_empty, render_fixed. destruct (String_of_Z (t / 10 ^ Z.of_nat 1)); reflexivity.
Qed.

Lemma integer_5_19_not_empty x : integer_between 5 19 x = true -> is_empty x = false.
Proof.
  destruct x as [s | ]; [ | reflexivity]. unfold integer_between. intros H.
  apply existsb_exists in H. destruct H as [n [Hn E]]. apply String.eqb_eq in E. subst s.
  vm_compute in Hn.
  repeat (destruct Hn as [<- | Hn]; [reflexivity | ]). contradiction.
Qed.

Lemma ranges_never_zero strain_ok row :
  (forall x, strain_ok x = true -> is_empty x = false) ->
  ranges_with strain_ok row = true -> never_zero row = true.
Proof.
  intros Hstrain H. unfold ranges_with in H.
  repeat (apply andb_prop in H; destruct H as [H ?]).
  unfold never_zero.
  rewrite (between_not_zero 60 99 _ eq_refl H).
  rewrite (between_not_zero 25 74 (WearableData.hrv row) eq_refl) by assumption.
  rewrite (between_not_zero 60 99 (WearableData.heartRate row) eq_refl) by assumption.
  rewrite Hstrain by assumption. reflexivity.
Qed.

Lemma tracker_ranges_never_zero row : tracker_ranges row = true -> never_zero row = true.
Proof. apply ranges_never_zero. exact (one_decimal_not_empty 50 200). Qed.

Lemma written_by_sync_never_zero e row : written_by_sync e row -> never_zero row = true.
Proof.
  intros [[td [_ H]] | [[_ H] | [_ H]]].
  - exact (from_transformer_never_zero td row H).
  - exact (tracker_ranges_never_zero row H).
  - exact (ranges_never_zero _ row integer_5_19_not_empty H).
Qed.

Lemma appends_impl (Good Good' : WearableData.t -> Prop) s s' :
  (forall row, Good row -> Good' row) -> appends Good s s' -> appends Good' s s'.
Proof.
  intros H [new [E Hnew]]. exists new. split; [exact E | ].
  eapply Forall_impl; [exact H | exact Hnew].
Qed.

(** [x.toString()] at some numbers: fractions with zeros after the point,
    integers, a negative number, and the exponent forms below 0.000001 and
    from 10 ^ 21 on. *)
Lemma strain_text_examples :
  strain_text (Some (mkDecimal 10005 3)) = Some "10.005"
  /\ strain_text (Some (mkDecimal 5 3)) = Some "0.005"
  /\ strain_text (Some (mkDecimal 125 1)) = Some "12.5"
  /\ strain_text (Some (mkDecimal 14 0)) = Some "14"
  /\ strain_text (Some (mkDecimal 1500 2)) = Some "15"
  /\ strain_text (Some (mkDecimal (-25) 1)) = Some "-2.5"
  /\ strain_text (Some (mkDecimal 1 6)) = Some "0.000001"
  /\ strain_text (Some (mkDecimal 1 7)) = Some "1e-7"
  /\ strain_text (Some (mkDecimal 15 8)) = Some "1.5e-7"
  /\ strain_text (Some (mkDecimal (10 ^ 20) 0)) = Some "100000000000000000000"
  /\ strain_text (Some (mkDecimal (10 ^ 21) 0)) = Some "1e+21"
  /\ strain_text None = None.
Proof. vm_compute. repeat split; reflexivity. Qed.

(** C8, counterexample: the storage layer checks no range.  A sleep score
    of 150, outside 0 to 100, is stored as it is by
    [MemStorage.createWearableData] and by
    [DatabaseStorage.createWearableData], the method the handlers call. *)
Lemma out_of_range_score_stored :
  (WearableData.sleepScore
     (fst (MemStorage.createWearableData
             (InsertWearableData.mk 5 "whoop" (Some 150) None None None None)
             1700000000000 (MemStorage.mk [] 1))) = Some 150
   /\ documented_fields
        (fst (MemStorage.createWearableData
                (InsertWearableData.mk 5 "whoop" (Some 150) None None None None)
                1700000000000 (MemStorage.mk [] 1))) = false)
  /\ (exists row,
         fst (DatabaseStorage.createWearableData
                (InsertWearableData.mk 5 "whoop" (Some 150) None None None None)
                tracker_down (store_of [])) = Ok row
         /\ wearableData
              (snd (DatabaseStorage.createWearableData
                      (InsertWearableData.mk 5 "whoop" (Some 150) None None None None)
                      tracker_down (store_of []))) = [row]
         /\ WearableData.sleepScore row = Some 150
         /\ documented_fields row = false).
Proof.
  split; [split; reflexivity | ].
  eexists. split; [reflexivity | ]. repeat split.
Qed.

(** C8, amended: every record created by the sync, webhook and demo
    authorization paths has sleepScore, hrv and heartRate either absent or
    different from 0, and strainLevel either absent or a non-empty text; so
    has every record built by [MemStorage.createWearableData].  A record of
    the sync handler is a simulated one within the simulator's ranges or
    carries a transformer result as returned, and a record of the webhook
    handler carries a transformer result as returned, each field passed
    through [|| null], the strain as [toString] prints it, and nothing
    checked against a range; a strain of 0 is stored as the text [0]. *)
Theorem stored_scores_absent_or_nonzero (e : Env) (s : State) :
  (forall i, unit_draw (Math_random e i)) ->
  (forall q, appends (fun row => never_zero row = true) s (snd (whoop_demo_auth q e s)))
  /\ (forall q, appends (fun row => never_zero row = true) s (snd (apple_mock_auth q e s)))
  /\ (forall userId,
        appends (fun row => never_zero row = true /\ written_by_sync e row)
                s (snd (sync userId e s)))
  /\ (forall reqBody,
        appends (fun row => never_zero row = true /\ written_by_webhook e row)
                s (snd (terra_webhook reqBody e s)))
  /\ (forall insertData date this,
        never_zero (fst (MemStorage.createWearableData insertData date this)) = true)
  /\ strain_text (Some (mkDecimal 0 0)) = Some "0".
Proof.
  intros draws. repeat split.
  - intros q. eapply appends_impl; [exact tracker_ranges_never_zero | ].
    eapply appends_of_keeps. apply whoop_demo_auth_rows, draws.
  - intros q. eapply appends_impl; [exact tracker_ranges_never_zero | ].
    eapply appends_of_keeps. apply apple_mock_auth_rows, draws.
  - intros userId. eapply appends_impl.
    + intros row H. split; [exact (written_by_sync_never_zero e row H) | exact H].
    + eapply appends_of_keeps. apply sync_rows, draws.
  - intros reqBody. eapply appends_impl.
    + intros row H. split; [ | exact H].
      destruct H as [td [_ H]]. exact (from_transformer_never_zero td row H).
    + eapply appends_of_keeps. apply terra_webhook_rows.
  - intros insertData date this. unfold MemStorage.createWearableData, never_zero.
    cbn [fst WearableData.sleepScore WearableData.hrv WearableData.heartRate
         WearableData.strainLevel].
    rewrite !num_or_null_not_zero, str_or_null_not_empty. reflexivity.
Qed.

Lemma stored_scores_absent_or_nonzero_witness :
  (forall i, unit_draw (Math_random tracker_reports i))
  /\ appends (fun row => never_zero row = true /\ written_by_sync tracker_reports row)
             (store_of [fresh_tracker_credential])
             (snd (sync "5" tracker_reports (store_of [fresh_tracker_credential])))
  /\ map WearableData.strainLevel
         (wearableData (snd (sync "5" tracker_reports (store_of [fresh_tracker_credential]))))
     = [Some "10.005"].
Proof.
  split; [exact tracker_reports_draws | ]. split; [ | reflexivity].
  apply (stored_scores_absent_or_nonzero tracker_reports
           (store_of [fresh_tracker_credential]) tracker_reports_draws).
Defined.

End StoredFields.

(* ================================================================== *)
(** ** Aggregator Credentials do not expire *)

Module AggregatorCredentials.

Import DatabaseStorage Routes Scenarios.

(** An aggregator Credential without refresh token and without expiry. *)
Definition non_expiring (t : WearableToken.t) : Prop :=
  WearableToken.provider t = "apple_health" ->
  WearableToken.refreshToken t = None /\ WearableToken.expiresAt t = None.

Definition aggregator_non_expiring (s : State) : Prop :=
  Forall non_expiring (wearableTokens s).

(** [t] is the row [t0] with its key, refresh token and expiry untouched. *)
Definition same_expiry (t0 t : WearableToken.t) : Prop :=
  WearableToken.userId t = WearableToken.userId t0
  /\ WearableToken.provider t = WearableToken.provider t0
  /\ WearableToken.refreshToken t = WearableToken.refreshToken t0
  /\ WearableToken.expiresAt t = WearableToken.expiresAt t0.

Definition created_non_expiring (t : WearableToken.t) : Prop :=
  WearableToken.provider t = "apple_health"
  /\ WearableToken.refreshToken t = None
  /\ WearableToken.expiresAt t = None.

(** Every row of the table is a row of [base] with the same expiry, or an
    aggregator row created without one. *)
Definition kept_or_created (base : list WearableToken.t) (s : State) : Prop :=
  Forall (fun t => (exists t0, In t0 base /\ same_expiry t0 t) \/ created_non_expiring t)
         (wearableTokens s).

Lemma kept_or_created_start s : kept_or_created (wearableTokens s) s.
Proof.
  apply Forall_forall. intros t Ht. left. exists t. split; [exact Ht | ].
  repeat split; reflexivity.
Qed.

Lemma token_matches_provider userId provider t :
  token_matches userId provider t = true -> WearableToken.provider t = provider.
Proof.
  unfold token_matches. intros H. apply andb_prop in H. destruct H as [_ H].
  apply String.eqb_eq. exact H.
Qed.

Lemma stable_append (P : WearableToken.t -> Prop) tok :
  P tok ->
  stable (fun s => Forall P (wearableTokens s))
         (set_wearableTokens (fun rows => rows ++ [tok])%list).
Proof.
  intros Htok s Hs. simpl. apply Forall_app. split; [exact Hs | repeat constructor; exact Htok].
Qed.

Lemma stable_update (P : WearableToken.t -> Prop) userId provider updates :
  (forall t, token_matches userId provider t = true -> P t -> P (apply_updates updates t)) ->
  stable (fun s => Forall P (wearableTokens s))
         (set_wearableTokens (update_rows userId provider updates)).
Proof.
  intros Hupd s Hs. simpl. unfold update_rows. apply Forall_map.
  eapply Forall_impl; [ | exact Hs]. intros t Ht. simpl.
  destruct (token_matches userId provider t) eqn:E; [apply Hupd; assumption | exact Ht].
Qed.

Lemma stable_filter (P : WearableToken.t -> Prop) f :
  stable (fun s => Forall P (wearableTokens s)) (set_wearableTokens (filter f)).
Proof.
  intros s Hs. simpl. apply Forall_forall. intros t Ht. apply filter_In in Ht.
  rewrite Forall_forall in Hs. apply Hs, Ht.
Qed.

(** An update that sets neither the refresh token nor the expiry, or that
    goes to the rows of another provider. *)
Definition spares_aggregator (provider : string) (updates : TokenUpdates.t) : Prop :=
  provider <> "apple_health"
  \/ (TokenUpdates.refreshToken updates = None /\ TokenUpdates.expiresAt updates = None).

Lemma non_expiring_update userId provider updates at_ t :
  spares_aggregator provider updates ->
  token_matches userId provider t = true ->
  non_expiring t -> non_expiring (apply_updates (with_updatedAt updates at_) t).
Proof.
  intros Hsp Hm Ht Hp. simpl in Hp. destruct Hsp as [Hne | [Hr He]].
  - apply token_matches_provider in Hm. congruence.
  - simpl. rewrite Hr, He. exact (Ht Hp).
Qed.

Ltac aggregator_side_conditions :=
  intros;
  lazymatch goal with
  | |- stable _ (set_wearableTokens (update_rows _ _ _)) =>
      apply stable_update; intros ? ? ?;
      eapply non_expiring_update; [ | eassumption | assumption];
      first [left; discriminate | right; split; reflexivity]
  | |- stable _ (set_wearableTokens (fun rows => (rows ++ [_])%list)) =>
      apply stable_append; intros H_provider;
      first [discriminate H_provider | split; reflexivity]
  | |- stable _ (set_wearableTokens (filter _)) => apply stable_filter
  end.

Section Preservation.

Context (e : Env).

Lemma apple_mock_auth_keeps q :
  keeps e aggregator_non_expiring (apple_mock_auth q) (fun _ => True).
Proof. unfold apple_mock_auth. keeps_walk; aggregator_side_conditions. Qed.

Lemma apple_callback_keeps reqBody :
  keeps e aggregator_non_expiring (apple_callback reqBody) (fun _ => True).
Proof. unfold apple_callback. keeps_walk; aggregator_side_conditions. Qed.

Lemma whoop_demo_auth_keeps q :
  keeps e aggregator_non_expiring (whoop_demo_auth q) (fun _ => True).
Proof. unfold whoop_demo_auth. keeps_walk; aggregator_side_conditions. Qed.

Lemma handleAuthentication_keeps accessToken refreshToken expires_in user_id :
  keeps e aggregator_non_expiring
        (WhoopStrategy.handleAuthentication accessToken refreshToken expires_in user_id)
        (fun _ => True).
Proof.
  unfold WhoopStrategy.handleAuthentication, WhoopStrategy.toString.
  keeps_walk; aggregator_side_conditions.
Qed.

Lemma terra_webhook_keeps reqBody :
  keeps e aggregator_non_expiring (terra_webhook reqBody) (fun _ => True).
Proof. unfold terra_webhook, terra_webhook_try. keeps_walk. Qed.

Lemma disconnect_keeps provider userId :
  keeps e aggregator_non_expiring (disconnect provider userId) (fun _ => True).
Proof. unfold disconnect. keeps_walk; aggregator_side_conditions. Qed.

Lemma sync_keeps userId :
  keeps e aggregator_non_expiring (sync userId) (fun _ => True).
Proof.
  unfold sync, sync_whoop, refresh_if_stale, fetch_real, demo_fallback, sync_apple.
  keeps_walk; aggregator_side_conditions.
Qed.

Lemma wearable_status_keeps userId :
  keeps e aggregator_non_expiring (wearable_status userId) (fun _ => True).
Proof. unfold wearable_status. keeps_walk. Qed.

Lemma same_expiry_update t0 t updates at_ :
  TokenUpdates.refreshToken updates = None ->
  TokenUpdates.expiresAt updates = None ->
  same_expiry t0 t -> same_expiry t0 (apply_updates (with_updatedAt updates at_) t).
Proof.
  intros Hr He [H1 [H2 [H3 H4]]]. unfold same_expiry. simpl. rewrite Hr, He. auto.
Qed.

Lemma created_update t updates at_ :
  TokenUpdates.refreshToken updates = None ->
  TokenUpdates.expiresAt updates = None ->
  created_non_expiring t -> created_non_expiring (apply_updates (with_updatedAt updates at_) t).
Proof.
  intros Hr He [H1 [H2 H3]]. unfold created_non_expiring. simpl. rewrite Hr, He. auto.
Qed.

Ltac creation_side_conditions :=
  intros;
  lazymatch goal with
  | |- stable _ (set_wearableTokens (update_rows _ _ _)) =>
      apply stable_update; intros ? _ [[? [? ?]] | ?];
      [ left; eexists; split; [eassumption | apply same_expiry_update; trivial]
      | right; apply created_update; trivial ]
  | |- stable _ (set_wearableTokens (fun rows => (rows ++ [_])%list)) =>
      apply stable_append; right; repeat split
  end.

Lemma apple_mock_auth_creates base q :
  keeps e (kept_or_created base) (apple_mock_auth q) (fun _ => True).
Proof. unfold apple_mock_auth. keeps_walk; creation_side_conditions. Qed.

Lemma apple_callback_creates base reqBody :
  keeps e (kept_or_created base) (apple_callback reqBody) (fun _ => True).
Proof. unfold apple_callback. keeps_walk; creation_side_conditions. Qed.

Definition no_aggregator_reauth (resp : Response.t) : Prop :=
  forall whoop apple_health,
    Response.body resp = JsonStatus whoop apple_health ->
    ProviderStatus.needsReauth apple_health = false.

Lemma wearable_status_reports userId :
  keeps e (fun _ => True) (wearable_status userId) no_aggregator_reauth.
Proof.
  unfold wearable_status. keeps_walk;
    intros whoop apple_health E; simpl in E; try discriminate E;
    injection E as _ <-; reflexivity.
Qed.

End Preservation.

Lemma non_expiring_not_stale s t at_ :
  aggregator_non_expiring s -> In t (wearableTokens s) ->
  WearableToken.provider t = "apple_health" -> is_stale at_ t = false.
Proof.
  intros Hs Ht Hp. unfold aggregator_non_expiring in Hs. rewrite Forall_forall in Hs.
  destruct (Hs t Ht Hp) as [_ He]. unfold is_stale. rewrite He. reflexivity.
Qed.

(** User 5 with an aggregator Credential as the callback creates it. *)
Definition aggregator_credential : WearableToken.t :=
  WearableToken.mk 5 "apple_health" "terra_authenticated" None (Some "terra-user-abc")
                   None None.

(** C10: each of the two aggregator authorization handlers leaves every
    row of the token table with the refresh token and expiry it had, or
    creates an [apple_health] row with [refreshToken = null] and
    [expiresAt = null].  Hence, once no [apple_health] row has an expiry,
    none is stale at any time and every handler keeps it so; and the
    wearable-status handler reports [needsReauth = false] for
    [apple_health] whenever it reports a status. *)
Theorem aggregator_credentials_never_stale (e : Env) (s : State) :
  (forall q, kept_or_created (wearableTokens s) (snd (apple_mock_auth q e s)))
  /\ (forall reqBody, kept_or_created (wearableTokens s) (snd (apple_callback reqBody e s)))
  /\ (aggregator_non_expiring s ->
      (forall t at_,
          In t (wearableTokens s) -> WearableToken.provider t = "apple_health" ->
          is_stale at_ t = false)
      /\ (forall q, aggregator_non_expiring (snd (apple_mock_auth q e s)))
      /\ (forall reqBody, aggregator_non_expiring (snd (apple_callback reqBody e s)))
      /\ (forall q, aggregator_non_expiring (snd (whoop_demo_auth q e s)))
      /\ (forall accessToken refreshToken expires_in user_id,
             aggregator_non_expiring
               (snd (WhoopStrategy.handleAuthentication accessToken refreshToken
                       expires_in user_id e s)))
      /\ (forall userId, aggregator_non_expiring (snd (sync userId e s)))
      /\ (forall reqBody, aggregator_non_expiring (snd (terra_webhook reqBody e s)))
      /\ (forall provider userId, aggregator_non_expiring (snd (disconnect provider userId e s)))
      /\ (forall userId, aggregator_non_expiring (snd (wearable_status userId e s))))
  /\ (forall userId resp,
         fst (wearable_status userId e s) = Ok resp -> no_aggregator_reauth resp).
Proof.
  split; [ | split; [ | split]].
  - intros q.
    exact (keeps_final e _ _ _ s (apple_mock_auth_creates e _ q) (kept_or_created_start s)).
  - intros reqBody.
    exact (keeps_final e _ _ _ s (apple_callback_creates e _ reqBody)
                       (kept_or_created_start s)).
  - intros Hs. split; [ | repeat split]; intros.
    + eapply non_expiring_not_stale; eassumption.
    + exact (keeps_final e _ _ _ s (apple_mock_auth_keeps e _) Hs).
    + exact (keeps_final e _ _ _ s (apple_callback_keeps e _) Hs).
    + exact (keeps_final e _ _ _ s (whoop_demo_auth_keeps e _) Hs).
    + exact (keeps_final e _ _ _ s (handleAuthentication_keeps e _ _ _ _) Hs).
    + exact (keeps_final e _ _ _ s (sync_keeps e _) Hs).
    + exact (keeps_final e _ _ _ s (terra_webhook_keeps e _) Hs).
    + exact (keeps_final e _ _ _ s (disconnect_keeps e _ _) Hs).
    + exact (keeps_final e _ _ _ s (wearable_status_keeps e _) Hs).
  - intros userId resp E.
    exact (keeps_value e _ _ _ s resp (wearable_status_reports e userId) I E).
Qed.

Lemma aggregator_credentials_never_stale_witness :
  aggregator_non_expiring (store_of [aggregator_credential])
  /\ (forall at_, is_stale at_ aggregator_credential = false)
  /\ aggregator_non_expiring (snd (sync "5" tracker_down (store_of [aggregator_credential]))).
Proof.
  assert (H : aggregator_non_expiring (store_of [aggregator_credential])).
  { repeat constructor. }
  pose proof (aggregator_credentials_never_stale tracker_down
                (store_of [aggregator_credential])) as [_ [_ [T _]]].
  destruct (T H) as [T1 [_ [_ [_ [_ [T2 _]]]]]].
  split; [exact H | split].
  - intros at_. apply T1; [left; reflexivity | reflexivity].
  - exact (T2 "5").
Defined.

End AggregatorCredentials.

(* ================================================================== *)
(** ** Disconnecting a provider *)

Module Disconnect.

Import DatabaseStorage Routes Scenarios.

Definition disconnected (provider : string) : Response.t :=
  Response.json (JsonSuccess (provider ++ " disconnected successfully")).

Definition unmatched (userId : Z) (provider : string) (t : WearableToken.t) : bool :=
  negb (token_matches userId provider t).

Lemma disconnect_accepted e s provider userId n :
  parseInt userId = Some n -> n <> 0 -> known_provider provider = true ->
  db_rejects e (db_statements s) = false ->
  disconnect provider userId e s
  = (Ok (disconnected provider),
     set_wearableTokens (filter (unmatched n provider)) (count_statement s)).
Proof.
  intros Hparse Hn Hknown Hdb.
  unfold disconnect, try_catch, bind, deleteWearableToken, statement.
  rewrite Hparse. simpl. apply Z.eqb_neq in Hn. rewrite Hn, Hknown. simpl.
  rewrite Hdb. reflexivity.
Qed.

Lemma disconnect_unknown_provider e s provider userId :
  known_provider provider = false ->
  exists message, disconnect provider userId e s = (Ok (Response.mk 400 (JsonError message)), s).
Proof.
  intros Hknown. unfold disconnect, try_catch.
  destruct (number_falsy (parseInt userId) || isNaN (parseInt userId)).
  - eexists. reflexivity.
  - rewrite Hknown. eexists. reflexivity.
Qed.

Lemma find_filter_unmatched userId provider rows :
  find (token_matches userId provider) (filter (unmatched userId provider) rows) = None.
Proof.
  induction rows as [ | t rows IH]; [reflexivity | ].
  simpl. unfold unmatched at 1. destruct (token_matches userId provider t) eqn:E; simpl.
  - exact IH.
  - rewrite E. exact IH.
Qed.

Lemma filter_unmatched_absent userId provider rows :
  find (token_matches userId provider) rows = None ->
  filter (unmatched userId provider) rows = rows.
Proof.
  induction rows as [ | t rows IH]; [reflexivity | ].
  simpl. unfold unmatched at 1. destruct (token_matches userId provider t) eqn:E; simpl.
  - discriminate.
  - intros H. rewrite (IH H). reflexivity.
Qed.

(** C9: with a user id that parses to a non-zero number, a known provider
    name and a database that accepts the two statements, disconnecting
    twice answers success both times; after the first call no Credential of
    the pair is left and the second call changes nothing in the table, and
    a call when no Credential exists leaves the table as it is.  With an
    unknown provider name the handler answers 400 and changes nothing,
    whatever the user id. *)
Theorem disconnect_idempotent (e : Env) (s : State) (provider userId : string) :
  (forall n,
      parseInt userId = Some n -> n <> 0 -> known_provider provider = true ->
      db_rejects e (db_statements s) = false ->
      db_rejects e (S (db_statements s)) = false ->
      let once := disconnect provider userId e s in
      let twice := disconnect provider userId e (snd once) in
      fst once = Ok (disconnected provider)
      /\ fst twice = Ok (disconnected provider)
      /\ find (token_matches n provider) (wearableTokens (snd once)) = None
      /\ wearableTokens (snd twice) = wearableTokens (snd once)
      /\ (find (token_matches n provider) (wearableTokens s) = None ->
          wearableTokens (snd once) = wearableTokens s))
  /\ (known_provider provider = false ->
      exists message,
        disconnect provider userId e s = (Ok (Response.mk 400 (JsonError message)), s)).
Proof.
  split; [ | apply disconnect_unknown_provider].
  intros n Hparse Hn Hknown Hdb1 Hdb2 once twice. subst twice once.
  rewrite (disconnect_accepted e s provider userId n Hparse Hn Hknown Hdb1).
  cbn [fst snd].
  rewrite (disconnect_accepted e
             (set_wearableTokens (filter (unmatched n provider)) (count_statement s))
             provider userId n Hparse Hn Hknown Hdb2).
  cbn [fst snd]. simpl.
  pose proof (find_filter_unmatched n provider (wearableTokens s)) as Hgone.
  repeat split.
  - exact Hgone.
  - apply filter_unmatched_absent, Hgone.
  - apply filter_unmatched_absent.
Qed.

Lemma disconnect_idempotent_witness :
  let once := disconnect "whoop" "5" tracker_down (store_of [fresh_tracker_credential]) in
  let twice := disconnect "whoop" "5" tracker_down (snd once) in
  fst once = Ok (disconnected "whoop")
  /\ fst twice = Ok (disconnected "whoop")
  /\ find (token_matches 5 "whoop") (wearableTokens (snd once)) = None
  /\ wearableTokens (snd twice) = wearableTokens (snd once)
  /\ (find (token_matches 5 "whoop") (wearableTokens (store_of [fresh_tracker_credential])) = None ->
      wearableTokens (snd once) = wearableTokens (store_of [fresh_tracker_credential]))
  /\ exists message,
      disconnect "fitbit" "5" tracker_down (store_of [fresh_tracker_credential])
      = (Ok (Response.mk 400 (JsonError message)), store_of [fresh_tracker_credential]).
Proof.
  pose proof (disconnect_idempotent tracker_down (store_of [fresh_tracker_credential])
                "whoop" "5") as [H _].
  pose proof (disconnect_idempotent tracker_down (store_of [fresh_tracker_credential])
                "fitbit" "5") as [_ H'].
  specialize (H 5 eq_refl ltac:(discriminate) eq_refl eq_refl eq_refl).
  specialize (H' eq_refl).
  cbv zeta in H. cbv zeta.
  destruct H as [H1 [H2 [H3 [H4 H5]]]].
  repeat split; assumption.
Defined.

End Disconnect.

(* ================================================================== *)
(** ** The aggregator webhook *)

Module Webhook.

Import DatabaseStorage Routes Scenarios AggregatorCredentials.

(** The aggregator's transformer returns a sleep record; the database
    accepts every statement. *)
Definition aggregator_pushes : Env :=
  mkEnv (clock_from 1700000000000)
        (fun _ => 1 # 2)
        (fun _ => false)
        (fun _ => Throw "WHOOP token refresh failed: invalid_grant")
        (fun _ _ => Throw "WHOOP API error: 503")
        (fun _ _ => Throw "WHOOP API error: 503")
        (fun _ _ => Throw "WHOOP API error: 503")
        (fun _ _ _ => Throw "unexpected payload")
        (fun _ _ _ => Ok (Transformed.mk "apple_watch" (Some 82) (Some "7h 10m") None None None)).

(** The same, with a database that rejects the second statement of the
    request, the insert into [wearable_data]. *)
Definition insert_rejected : Env :=
  mkEnv (clock_from 1700000000000)
        (fun _ => 1 # 2)
        (fun k => Nat.eqb k 1)
        (fun _ => Throw "WHOOP token refresh failed: invalid_grant")
        (fun _ _ => Throw "WHOOP API error: 503")
        (fun _ _ => Throw "WHOOP API error: 503")
        (fun _ _ => Throw "WHOOP API error: 503")
        (fun _ _ _ => Throw "unexpected payload")
        (fun _ _ _ => Ok (Transformed.mk "apple_watch" (Some 82) (Some "7h 10m") None None None)).

Definition sleep_event (user : option jsval) : option WebhookBody.t :=
  Some (WebhookBody.mk (JStr "sleep") user "{}").

Definition acknowledged : Response.t :=
  Response.mk 200 (JsonMessage "Webhook processed successfully").

Definition ignored : Response.t :=
  Response.mk 200 (JsonMessage "User not found, ignoring webhook").

Definition failed : Response.t :=
  Response.mk 500 (JsonError "Failed to process webhook").

(** The resolution the specification describes: the stored Credential
    whose [externalUserId] equals the identifier the event carries. *)
Definition credential_of_external_id (external : jsval) (rows : list WearableToken.t)
  : option WearableToken.t :=
  find (fun t =>
          match WearableToken.externalUserId t, text_column external with
          | Some x, Some y => String.eqb x y
          | _, _ => false
          end) rows.

(** C6, the code at two events, on a table holding the aggregator
    Credential of user 5 with external id [terra-user-abc].  An event that
    carries the number 5 matches no external id, yet the handler finds the
    Credential through the internal user id, stores a record for user 5 and
    acknowledges.  An event that carries [terra-user-abc] matches the
    Credential's external id, yet the handler stores nothing. *)
Theorem webhook_resolves_by_internal_id :
  credential_of_external_id (JNum 5) [aggregator_credential] = None
  /\ fst (terra_webhook (sleep_event (Some (JNum 5))) aggregator_pushes
                        (store_of [aggregator_credential])) = Ok acknowledged
  /\ map WearableData.userId
         (wearableData (snd (terra_webhook (sleep_event (Some (JNum 5))) aggregator_pushes
                                           (store_of [aggregator_credential])))) = [5]
  /\ credential_of_external_id (JStr "terra-user-abc") [aggregator_credential]
     = Some aggregator_credential
  /\ wearableData (snd (terra_webhook (sleep_event (Some (JStr "terra-user-abc")))
                                      aggregator_pushes
                                      (store_of [aggregator_credential]))) = [].
Proof. vm_compute. repeat split; reflexivity. Qed.

(** C7, counterexample: the handler answers 500 when the event has no
    [user] object, when the transformer throws, and when the database
    rejects the insert. *)
Lemma webhook_answers_500 :
  fst (terra_webhook (sleep_event None) aggregator_pushes
                     (store_of [aggregator_credential])) = Ok failed
  /\ fst (terra_webhook (sleep_event (Some (JNum 5))) tracker_down
                        (store_of [aggregator_credential])) = Ok failed
  /\ fst (terra_webhook (sleep_event (Some (JNum 5))) insert_rejected
                        (store_of [aggregator_credential])) = Ok failed.
Proof. vm_compute. repeat split; reflexivity. Qed.

Lemma terra_webhook_try_status e reqBody :
  keeps e (fun _ => True) (terra_webhook_try reqBody)
        (fun resp => Response.status resp = 200).
Proof.
  unfold terra_webhook_try. keeps_walk; try reflexivity; try (intros; exact I).
Qed.

(** The transformer's answer for an event: the event's data is its first,
    second or third argument by the event's category. *)
Definition transformed (e : Env) (b : WebhookBody.t) : Result Transformed.t :=
  transformAppleHealthData e
    (if jsval_eqb_str (WebhookBody.type b) "sleep" then Some (WebhookBody.data b) else None)
    (if jsval_eqb_str (WebhookBody.type b) "daily" then Some (WebhookBody.data b) else None)
    (if jsval_eqb_str (WebhookBody.type b) "body" then Some (WebhookBody.data b) else None).

Lemma lookup_keeps_records e s user_id provider :
  wearableData (snd (getWearableToken_any user_id provider e s)) = wearableData s.
Proof.
  apply (keeps_final e (fun s' => wearableData s' = wearableData s) _ (fun _ => True)).
  - apply keeps_getWearableToken_any. intros s0 H0. exact H0.
  - reflexivity.
Qed.

(** The handler's answer by the outcome of the lookup, of the transformer
    and of the insert. *)
Lemma terra_webhook_found e s b user_id lookup s1 :
  is_health_event (WebhookBody.type b) = true ->
  WebhookBody.user b = Some user_id ->
  getWearableToken_any user_id "apple_health" e s = (lookup, s1) ->
  terra_webhook (Some b) e s
  = match lookup with
    | Throw _ => (Ok failed, s1)
    | Ok None => (Ok ignored, s1)
    | Ok (Some userToken) =>
        match transformed e b with
        | Throw _ => (Ok failed, s1)
        | Ok td =>
            if db_rejects e (db_statements s1)
            then (Ok failed, count_statement (tick_clock s1))
            else (Ok acknowledged,
                  set_wearableData
                    (fun rows =>
                       rows ++ [inserted_row (Z.of_nat (length rows) + 1)
                                  (insert_of_transformed (WearableToken.userId userToken) td)
                                  (Date_now e (clock_reads s1))])%list
                    (count_statement (tick_clock s1)))
        end
    end.
Proof.
  intros Hev Huser Hlookup.
  unfold terra_webhook, terra_webhook_try, try_catch, bind at 1. rewrite Hev, Huser, Hlookup.
  destruct lookup as [[userToken | ] | msg]; try reflexivity.
  unfold bind at 1, lift. fold (transformed e b).
  destruct (transformed e b) as [td | msg]; [ | reflexivity].
  unfold bind at 1, createWearableData, bind at 1, now, statement.
  cbn [db_statements tick_clock].
  destruct (db_rejects e (db_statements s1)); reflexivity.
Qed.

(** C7, amended: the handler never throws, and it answers 200 exactly when
    its [try] block raises no exception and 500 when the block raises one.
    Case by case: without a body it answers 500; an event of another
    category is acknowledged and changes nothing; an event of a health
    category without a [user] object is answered 500; when the lookup of
    the Credential throws it answers 500; when the lookup finds none it
    answers 200 with the message that the user was not found; when the
    transformer throws, or the database rejects the insert, it answers 500;
    in all these cases no record is stored.  Only when the lookup finds a
    Credential, the transformer returns and the database accepts the insert
    does it acknowledge, having stored one record with the transformer's
    values for the user of the Credential. *)
Theorem webhook_acknowledges_unless_exception (e : Env) (s : State)
        (reqBody : option WebhookBody.t) :
  let answer := terra_webhook reqBody e s in
  (exists resp,
      fst answer = Ok resp
      /\ (resp = acknowledged \/ resp = ignored \/ resp = failed)
      /\ (Response.status resp = 200
          <-> exists r, fst (terra_webhook_try reqBody e s) = Ok r))
  /\ (reqBody = None -> answer = (Ok failed, s))
  /\ (forall b,
         reqBody = Some b -> is_health_event (WebhookBody.type b) = false ->
         answer = (Ok acknowledged, s))
  /\ (forall b,
         reqBody = Some b -> is_health_event (WebhookBody.type b) = true ->
         WebhookBody.user b = None ->
         answer = (Ok failed, s))
  /\ (forall b user_id lookup s1,
         reqBody = Some b -> is_health_event (WebhookBody.type b) = true ->
         WebhookBody.user b = Some user_id ->
         getWearableToken_any user_id "apple_health" e s = (lookup, s1) ->
         (forall msg,
             lookup = Throw msg ->
             fst answer = Ok failed /\ wearableData (snd answer) = wearableData s)
         /\ (lookup = Ok None ->
             fst answer = Ok ignored /\ wearableData (snd answer) = wearableData s)
         /\ (forall userToken,
                lookup = Ok (Some userToken) ->
                (forall msg,
                    transformed e b = Throw msg ->
                    fst answer = Ok failed /\ wearableData (snd answer) = wearableData s)
                /\ (forall td,
                       transformed e b = Ok td ->
                       (db_rejects e (db_statements s1) = true ->
                        fst answer = Ok failed
                        /\ wearableData (snd answer) = wearableData s)
                       /\ (db_rejects e (db_statements s1) = false ->
                           fst answer = Ok acknowledged
                           /\ exists id at_,
                               wearableData (snd answer)
                               = (wearableData s
                                  ++ [inserted_row id
                                        (insert_of_transformed
                                           (WearableToken.userId userToken) td) at_])%list)))).
Proof.
  cbv zeta. split; [ | split; [ | split; [ | split]]].
  - unfold terra_webhook, try_catch.
    pose proof (fun resp =>
                  keeps_value e _ _ _ s resp (terra_webhook_try_status e reqBody) I)
      as Hstatus.
    destruct (terra_webhook_try reqBody e s) as [[resp | msg] s'] eqn:E.
    + exists resp. split; [reflexivity | ]. split.
      * revert E. unfold terra_webhook_try.
        destruct reqBody as [b | ]; [ | discriminate].
        destruct (is_health_event (WebhookBody.type b));
          [ | intros E; injection E as <- _; left; reflexivity].
        destruct (WebhookBody.user b) as [user_id | ]; [ | discriminate].
        unfold bind at 1.
        destruct (getWearableToken_any user_id "apple_health" e s) as [[[t | ] | m] s1];
          [ | intros E; injection E as <- _; right; left; reflexivity | discriminate].
        unfold bind at 1, lift.
        destruct (transformAppleHealthData e _ _ _) as [td | m]; [ | discriminate].
        unfold bind at 1.
        destruct (createWearableData _ e s1) as [[row | m] s2]; [ | discriminate].
        intros E; injection E as <- _; left; reflexivity.
      * split; [intros _; exists resp; reflexivity | intros _].
        apply Hstatus. reflexivity.
    + exists failed. split; [reflexivity | ]. split; [right; right; reflexivity | ].
      split; [discriminate | intros [r Hr]; discriminate Hr].
  - intros ->. reflexivity.
  - intros b -> Hev. unfold terra_webhook, terra_webhook_try, try_catch.
    rewrite Hev. reflexivity.
  - intros b -> Hev Huser. unfold terra_webhook, terra_webhook_try, try_catch.
    rewrite Hev, Huser. reflexivity.
  - intros b user_id lookup s1 -> Hev Huser Hlookup.
    pose proof (lookup_keeps_records e s user_id "apple_health") as Hrows.
    rewrite Hlookup in Hrows. simpl in Hrows.
    rewrite (terra_webhook_found e s b user_id lookup s1 Hev Huser Hlookup).
    split; [ | split].
    + intros msg ->. split; [reflexivity | exact Hrows].
    + intros ->. split; [reflexivity | exact Hrows].
    + intros userToken ->. split.
      * intros msg ->. split; [reflexivity | exact Hrows].
      * intros td ->. split; intros ->.
        -- split; [reflexivity | exact Hrows].
        -- split; [reflexivity | ]. simpl. rewrite Hrows. eexists _, _. reflexivity.
Qed.

Lemma webhook_acknowledges_unless_exception_witness :
  terra_webhook (Some (WebhookBody.mk (JStr "activity") None "{}")) aggregator_pushes
                (store_of [aggregator_credential])
  = (Ok acknowledged, store_of [aggregator_credential])
  /\ terra_webhook (sleep_event None) aggregator_pushes (store_of [aggregator_credential])
     = (Ok failed, store_of [aggregator_credential])
  /\ (fst (terra_webhook (sleep_event (Some (JStr "terra-user-abc"))) aggregator_pushes
                         (store_of [aggregator_credential])) = Ok failed
      /\ wearableData (snd (terra_webhook (sleep_event (Some (JStr "terra-user-abc")))
                                          aggregator_pushes
                                          (store_of [aggregator_credential]))) = [])
  /\ (fst (terra_webhook (sleep_event (Some (JNum 6))) aggregator_pushes
                         (store_of [aggregator_credential])) = Ok ignored
      /\ wearableData (snd (terra_webhook (sleep_event (Some (JNum 6))) aggregator_pushes
                                          (store_of [aggregator_credential]))) = [])
  /\ (fst (terra_webhook (sleep_event (Some (JNum 5))) tracker_down
                         (store_of [aggregator_credential])) = Ok failed
      /\ wearableData (snd (terra_webhook (sleep_event (Some (JNum 5))) tracker_down
                                          (store_of [aggregator_credential]))) = [])
  /\ (fst (terra_webhook (sleep_event (Some (JNum 5))) insert_rejected
                         (store_of [aggregator_credential])) = Ok failed
      /\ wearableData (snd (terra_webhook (sleep_event (Some (JNum 5))) insert_rejected
                                          (store_of [aggregator_credential]))) = [])
  /\ (fst (terra_webhook (sleep_event (Some (JNum 5))) aggregator_pushes
                         (store_of [aggregator_credential])) = Ok acknowledged
      /\ exists id at_,
          wearableData (snd (terra_webhook (sleep_event (Some (JNum 5))) aggregator_pushes
                                           (store_of [aggregator_credential])))
          = [inserted_row id
               (InsertWearableData.mk 5 "apple_watch" (Some 82) (Some "7h 10m") None None None)
               at_]).
Proof.
  pose (st := store_of [aggregator_credential]).
  split; [ | split; [ | split; [ | split; [ | split; [ | split]]]]].
  - destruct (webhook_acknowledges_unless_exception aggregator_pushes st
                (Some (WebhookBody.mk (JStr "activity") None "{}")))
      as [_ [_ [Hother _]]].
    apply (Hother (WebhookBody.mk (JStr "activity") None "{}")); reflexivity.
  - destruct (webhook_acknowledges_unless_exception aggregator_pushes st (sleep_event None))
      as [_ [_ [_ [Hnouser _]]]].
    apply (Hnouser (WebhookBody.mk (JStr "sleep") None "{}")); reflexivity.
  - destruct (webhook_acknowledges_unless_exception aggregator_pushes st
                (sleep_event (Some (JStr "terra-user-abc"))))
      as [_ [_ [_ [_ Hlookup]]]].
    destruct (Hlookup _ (JStr "terra-user-abc") _ _ eq_refl eq_refl eq_refl eq_refl)
      as [Hthrows _].
    exact (Hthrows _ eq_refl).
  - destruct (webhook_acknowledges_unless_exception aggregator_pushes st
                (sleep_event (Some (JNum 6))))
      as [_ [_ [_ [_ Hlookup]]]].
    destruct (Hlookup _ (JNum 6) _ _ eq_refl eq_refl eq_refl eq_refl) as [_ [Hnone _]].
    exact (Hnone eq_refl).
  - destruct (webhook_acknowledges_unless_exception tracker_down st
                (sleep_event (Some (JNum 5))))
      as [_ [_ [_ [_ Hlookup]]]].
    destruct (Hlookup _ (JNum 5) _ _ eq_refl eq_refl eq_refl eq_refl) as [_ [_ Hfound]].
    destruct (Hfound _ eq_refl) as [Hthrows _].
    exact (Hthrows _ eq_refl).
  - destruct (webhook_acknowledges_unless_exception insert_rejected st
                (sleep_event (Some (JNum 5))))
      as [_ [_ [_ [_ Hlookup]]]].
    destruct (Hlookup _ (JNum 5) _ _ eq_refl eq_refl eq_refl eq_refl) as [_ [_ Hfound]].
    destruct (Hfound _ eq_refl) as [_ Hreturns].
    destruct (Hreturns _ eq_refl) as [Hrejected _].
    exact (Hrejected eq_refl).
  - destruct (webhook_acknowledges_unless_exception aggregator_pushes st
                (sleep_event (Some (JNum 5))))
      as [_ [_ [_ [_ Hlookup]]]].
    destruct (Hlookup _ (JNum 5) _ _ eq_refl eq_refl eq_refl eq_refl) as [_ [_ Hfound]].
    destruct (Hfound _ eq_refl) as [_ Hreturns].
    destruct (Hreturns _ eq_refl) as [_ Haccepted].
    exact (Haccepted eq_refl).
Defined.

End Webhook.

(* ================================================================== *)
(** ** Running a handler step by step *)

Section Stepping.

Context (e : Env).

Import DatabaseStorage.

Lemma wp_conj {A : Type} (m : M A) Q1 Q2 X1 X2 s :
  wp e m Q1 X1 s -> wp e m Q2 X2 s ->
  wp e m (fun a s' => Q1 a s' /\ Q2 a s') (fun msg s' => X1 msg s' /\ X2 msg s') s.
Proof. unfold wp. destruct (m e s) as [[a | msg] s']; auto. Qed.

Lemma wp_now Q X s : Q (Date_now e (clock_reads s)) (tick_clock s) -> wp e now Q X s.
Proof. exact (fun H => H). Qed.

Lemma wp_random Q X s : Q (Math_random e (random_draws s)) (tick_random s) -> wp e random Q X s.
Proof. exact (fun H => H). Qed.

Lemma wp_call_provider {A : Type} c (answer : Env -> Result A) Q X s :
  match answer e with
  | Ok a => Q a (log_call c s)
  | Throw msg => X msg (log_call c s)
  end ->
  wp e (call_provider c answer) Q X s.
Proof. unfold wp, call_provider. destruct (answer e); trivial. Qed.

Lemma wp_lift {A : Type} (f : Env -> Result A) Q X s :
  match f e with
  | Ok a => Q a s
  | Throw msg => X msg s
  end ->
  wp e (lift f) Q X s.
Proof. unfold wp, lift. destruct (f e); trivial. Qed.

Lemma wp_await {A : Type} (p : Result A) Q X s :
  match p with
  | Ok a => Q a s
  | Throw msg => X msg s
  end ->
  wp e (await p) Q X s.
Proof. unfold wp, await. destruct p; trivial. Qed.

Lemma wp_settle {A : Type} (m : M A) Q X s :
  wp e m (fun a s' => Q (Ok a) s') (fun msg s' => Q (Throw msg) s') s ->
  wp e (settle m) Q X s.
Proof.
  intros H. unfold settle. apply wp_try_catch, wp_bind.
  eapply wp_weaken; [exact H | | ]; intros; apply wp_ret; assumption.
Qed.

Lemma wp_push_result o Q X s :
  Q tt (set_results (fun rs => rs ++ [o])%list s) -> wp e (push_result o) Q X s.
Proof. exact (fun H => H). Qed.

Lemma wp_reset_results Q X s :
  Q tt (set_results (fun _ => []) s) -> wp e reset_results Q X s.
Proof. exact (fun H => H). Qed.

Lemma wp_get_results Q X s : Q (results s) s -> wp e get_results Q X s.
Proof. exact (fun H => H). Qed.

Lemma wp_statement {A : Type} (run : State -> A * State) Q X s :
  (if db_rejects e (db_statements s)
   then X "database error" (count_statement s)
   else Q (fst (run (count_statement s))) (snd (run (count_statement s)))) ->
  wp e (statement run) Q X s.
Proof.
  unfold wp, statement. destruct (db_rejects e (db_statements s)); [trivial | ].
  destruct (run (count_statement s)); trivial.
Qed.

(** A rejected statement is the only exception a lookup can raise. *)
Definition some_statement_rejected : Prop := exists k, db_rejects e k = true.

Lemma wp_getWearableToken userId provider Q X s :
  (some_statement_rejected -> X "database error" (count_statement s)) ->
  Q (find (token_matches userId provider) (wearableTokens s)) (count_statement s) ->
  wp e (getWearableToken userId provider) Q X s.
Proof.
  intros HX HQ. apply wp_statement.
  destruct (db_rejects e (db_statements s)) eqn:E; [ | exact HQ].
  apply HX. exists (db_statements s). exact E.
Qed.

Lemma triple_of_keeps {A : Type} (Inv : State -> Prop) (m : M A) (V : A -> Prop) Q X :
  keeps e Inv m V ->
  (forall a s, Inv s -> V a -> Q a s) ->
  (forall msg s, Inv s -> X msg s) ->
  triple e Inv m Q X.
Proof.
  intros Hm HQ HX. eapply triple_weaken; [exact Hm | trivial | | exact HX].
  intros a s [Hs Ha]. auto.
Qed.

(** A computation that keeps [Inv], followed by a continuation. *)
Lemma triple_after {A B : Type} (Inv : State -> Prop) (m : M A) (k : A -> M B)
      (V : A -> Prop) Q X :
  keeps e Inv m V ->
  (forall msg s, Inv s -> X msg s) ->
  (forall a, V a -> triple e Inv (k a) Q X) ->
  triple e Inv (bind m k) Q X.
Proof.
  intros Hm HX Hk. eapply triple_bind.
  - eapply triple_of_keeps; [exact Hm | | exact HX].
    intros a s Hs Ha. exact (conj Hs Ha).
  - intros a s [Hs Ha]. apply (Hk a Ha s Hs).
Qed.

End Stepping.

(** Peels the steps that keep the invariant off the front of a sequence. *)
Ltac triple_peel :=
  lazymatch goal with
  | |- triple _ _ (bind _ _) _ _ =>
      eapply triple_after with (V := fun _ => True);
      [ keeps_walk | try (intros ? ? H_inv; exact H_inv) | intros ? _; triple_peel ]
  | |- _ => idtac
  end.

(* ================================================================== *)
(** ** The sync handler: one outcome per synchronised provider *)

Module SyncOutcomes.

Import DatabaseStorage Routes Scenarios AggregatorCredentials.

Definition is_whoop (r : SyncOutcome.t) : bool := String.eqb (SyncOutcome.provider r) "whoop".

Section Legs.

Context (e : Env) (rs0 : list SyncOutcome.t).

Definition results_are (rs : list SyncOutcome.t) (s : State) : Prop := results s = rs.

Definition pushed (provider : string) (s : State) : Prop :=
  exists o, results s = (rs0 ++ [o])%list /\ SyncOutcome.provider o = provider.

Lemma sync_apple_pushes userId :
  triple e (results_are rs0) (sync_apple userId)
         (fun _ => pushed "apple_health") (fun _ _ => False).
Proof.
  unfold sync_apple. eapply triple_try_catch with (X1 := fun _ => results_are rs0).
  - triple_peel.
    intros s Hs. apply wp_push_result. eexists.
    split; [simpl; rewrite Hs; reflexivity | reflexivity].
  - intros msg s Hs. apply wp_push_result. eexists.
    split; [simpl; rewrite Hs; reflexivity | reflexivity].
Qed.

Lemma find_last {A : Type} (f : A -> bool) (l : list A) (x : A) :
  find f l = None -> find f (l ++ [x])%list = if f x then Some x else None.
Proof.
  induction l as [ | y l IH]; simpl; [reflexivity | ].
  destruct (f y); [discriminate | exact IH].
Qed.

Definition succeeded (s : State) : Prop :=
  exists o, results s = (rs0 ++ [o])%list
            /\ SyncOutcome.provider o = "whoop" /\ SyncOutcome.status o = "success".

Lemma demo_fallback_pushes k :
  triple e (results_are rs0)
         (if negb useRealWhoop || no_whoop_success rs0 then k else ret tt)
         (fun _ => pushed "whoop") (fun _ => results_are rs0) ->
  find is_whoop rs0 = None ->
  forall s, results_are rs0 s \/ succeeded s ->
  wp e (bind get_results
          (fun rs => if negb useRealWhoop || no_whoop_success rs then k else ret tt))
     (fun _ => pushed "whoop") (fun _ => results_are rs0) s.
Proof.
  intros Hk Hnone s [Hs | [o [Hs [Hp Hst]]]]; apply wp_bind, wp_get_results.
  - rewrite Hs. apply Hk. exact Hs.
  - rewrite Hs. unfold no_whoop_success. fold is_whoop.
    rewrite (find_last is_whoop rs0 o Hnone). unfold is_whoop at 1. rewrite Hp.
    simpl. rewrite Hst. simpl. apply wp_ret. exists o. split; [exact Hs | exact Hp].
Qed.

Lemma sync_whoop_pushes userId whoopToken :
  find is_whoop rs0 = None ->
  triple e (results_are rs0) (sync_whoop userId whoopToken)
         (fun _ => pushed "whoop") (fun _ _ => False).
Proof.
  intros Hnone. unfold sync_whoop, refresh_if_stale, fetch_real, demo_fallback.
  eapply triple_try_catch with (X1 := fun _ => results_are rs0).
  - eapply triple_after with (V := fun _ => True);
      [keeps_walk | intros ? ? H; exact H | intros accessToken _].
    eapply triple_bind with (Q1 := fun _ s => results_are rs0 s \/ succeeded s).
    + unfold useRealWhoop.
      eapply triple_try_catch with (X1 := fun _ => results_are rs0).
      * triple_peel.
        intros s Hs. apply wp_push_result. right. eexists.
        split; [simpl; rewrite Hs; reflexivity | split; reflexivity].
      * intros msg s Hs. apply wp_ret. left. exact Hs.
    + intros _ s Hs. apply demo_fallback_pushes; [ | exact Hnone | exact Hs].
      unfold no_whoop_success. fold is_whoop. rewrite Hnone. simpl.
      triple_peel.
      intros s' Hs'. apply wp_push_result. eexists.
      split; [simpl; rewrite Hs'; reflexivity | reflexivity].
  - intros msg s Hs. apply wp_push_result. eexists.
    split; [simpl; rewrite Hs; reflexivity | reflexivity].
Qed.

End Legs.

Lemma find_update_rows_other userId provider other updates rows :
  provider <> other ->
  find (token_matches userId other) (update_rows userId provider updates rows)
  = find (token_matches userId other) rows.
Proof.
  intros Hne. induction rows as [ | t rows IH]; [reflexivity | ].
  simpl. destruct (token_matches userId provider t) eqn:E.
  - assert (Hp : WearableToken.provider t = provider).
    { unfold token_matches in E. apply andb_prop in E. apply String.eqb_eq, E. }
    assert (Hother : String.eqb provider other = false) by (apply String.eqb_neq, Hne).
    unfold token_matches at 1 3. simpl. rewrite Hp, Hother, !andb_false_r. exact IH.
  - rewrite IH. reflexivity.
Qed.

(** The aggregator Credential the sync handler will find. *)
Definition aggregator_lookup (userId : Z) (found : option WearableToken.t) (s : State) : Prop :=
  find (token_matches userId "apple_health") (wearableTokens s) = found.

Lemma sync_whoop_spares_aggregator e userId whoopToken found :
  keeps e (aggregator_lookup userId found) (sync_whoop userId whoopToken) (fun _ => True).
Proof.
  unfold sync_whoop, refresh_if_stale, fetch_real, demo_fallback.
  keeps_walk; intros at_ s Hs; unfold aggregator_lookup in *; simpl;
    rewrite find_update_rows_other by discriminate; exact Hs.
Qed.

(** The providers the sync handler produces an outcome for: the tracker
    when it finds a tracker Credential, the aggregator when it finds an
    aggregator Credential with a non-empty external user id. *)
Definition synced_providers (userId : Z) (s : State) : list string :=
  (match find (token_matches userId "whoop") (wearableTokens s) with
   | Some _ => ["whoop"]
   | None => []
   end
   ++ if has_externalUserId (find (token_matches userId "apple_health") (wearableTokens s))
      then ["apple_health"]
      else [])%list.

Definition answers_outcomes_for (providers : list string) (resp : Response.t) : Prop :=
  Response.status resp = 200
  /\ exists rs, Response.body resp = JsonSync rs /\ map SyncOutcome.provider rs = providers.

Definition sync_failed : Response.t :=
  Response.mk 500 (JsonError "Failed to sync wearable data").

Lemma sync_tail e userId rs0 found :
  triple e (fun s => results_are rs0 s /\ aggregator_lookup userId found s)
         (appleToken <- getWearableToken userId "apple_health" ;;
          (if has_externalUserId appleToken then sync_apple userId else ret tt) ;;
          rs <- get_results ;;
          ret (Response.json (JsonSync rs)))
         (fun resp _ =>
            answers_outcomes_for
              (map SyncOutcome.provider rs0
               ++ if has_externalUserId found then ["apple_health"] else [])%list resp)
         (fun _ _ => some_statement_rejected e).
Proof.
  intros s [Hrs Hfound]. apply wp_bind, wp_getWearableToken; [trivial | ].
  rewrite Hfound. apply wp_bind.
  destruct (has_externalUserId found).
  - eapply wp_weaken; [apply (sync_apple_pushes e rs0 userId); exact Hrs | | contradiction].
    intros ? s' [o [Hs' Ho]]. apply wp_bind, wp_get_results, wp_ret.
    split; [reflexivity | ]. eexists. split; [reflexivity | ].
    rewrite Hs', map_app. simpl. rewrite Ho. reflexivity.
  - apply wp_ret, wp_bind, wp_get_results, wp_ret.
    split; [reflexivity | ]. eexists. split; [reflexivity | ].
    simpl. rewrite Hrs, app_nil_r. reflexivity.
Qed.

Lemma sync_runs e s userId n :
  parseInt userId = Some n -> n <> 0 ->
  wp e (sync userId)
     (fun resp _ =>
        answers_outcomes_for (synced_providers n s) resp
        \/ (resp = sync_failed /\ some_statement_rejected e))
     (fun _ _ => False) s.
Proof.
  intros Hparse Hn. unfold sync. rewrite Hparse. apply Z.eqb_neq in Hn. simpl. rewrite Hn.
  simpl. apply wp_try_catch.
  eapply wp_weaken with
    (Q := fun resp _ => answers_outcomes_for (synced_providers n s) resp)
    (X := fun _ _ => some_statement_rejected e);
    [ | intros; left; assumption | intros; apply wp_ret; right; split; [reflexivity | assumption]].
  apply wp_bind, wp_reset_results, wp_bind, wp_getWearableToken; [trivial | ].
  unfold synced_providers. simpl.
  set (found := find (token_matches n "apple_health") (wearableTokens s)).
  apply wp_bind.
  destruct (find (token_matches n "whoop") (wearableTokens s)) as [whoopToken | ].
  - eapply wp_weaken; [ | | ].
    + apply wp_conj.
      * apply (sync_whoop_pushes e [] n whoopToken eq_refl). reflexivity.
      * apply (sync_whoop_spares_aggregator e n whoopToken found). reflexivity.
    + intros ? s' [[o [Hs' Ho]] [Hfound _]].
      eapply wp_weaken; [apply (sync_tail e n [o] found); split; assumption | | trivial].
      intros resp ? H. simpl in H. rewrite Ho in H. exact H.
    + intros msg s' [[] _].
  - apply wp_ret.
    eapply wp_weaken; [apply (sync_tail e n [] found); split; reflexivity | | trivial].
    intros resp ? H. exact H.
Qed.

(** User 5 with an aggregator Credential whose external user id is the
    empty text, as the callback stores it for a body with [user_id: ""]. *)
Definition blank_aggregator_credential : WearableToken.t :=
  WearableToken.mk 5 "apple_health" "terra_authenticated" None (Some "") None None.







End SyncOutcomes.

(** Runs the next step of a handler. *)
Ltac wp_step :=
  lazymatch goal with
  | |- wp _ (bind _ _) _ _ _ => apply wp_bind
  | |- wp _ (try_catch _ _) _ _ _ => apply wp_try_catch
  | |- wp _ (ret _) _ _ _ => apply wp_ret
  | |- wp _ (throw _) _ _ _ => apply wp_throw
  | |- wp _ now _ _ _ => apply wp_now
  | |- wp _ random _ _ _ => apply wp_random
  | |- wp _ (call_provider _ _) _ _ _ => apply wp_call_provider
  | |- wp _ (lift _) _ _ _ => apply wp_lift
  | |- wp _ (await _) _ _ _ => apply wp_await
  | |- wp _ (settle _) _ _ _ => apply wp_settle
  | |- wp _ (push_result _) _ _ _ => apply wp_push_result
  | |- wp _ get_results _ _ _ => apply wp_get_results
  | |- wp _ reset_results _ _ _ => apply wp_reset_results
  | |- wp _ (DatabaseStorage.getWearableToken _ _) _ _ _ =>
      unfold DatabaseStorage.getWearableToken; apply wp_statement
  | |- wp _ (DatabaseStorage.createWearableToken _) _ _ _ =>
      unfold DatabaseStorage.createWearableToken; apply wp_statement
  | |- wp _ (DatabaseStorage.updateWearableToken _ _ _) _ _ _ =>
      unfold DatabaseStorage.updateWearableToken
  | |- wp _ (DatabaseStorage.deleteWearableToken _ _) _ _ _ =>
      unfold DatabaseStorage.deleteWearableToken; apply wp_statement
  | |- wp _ (DatabaseStorage.createWearableData _) _ _ _ =>
      unfold DatabaseStorage.createWearableData
  | |- wp _ (DatabaseStorage.statement _) _ _ _ => apply wp_statement
  end.

Ltac state_simpl :=
  cbn [wearableTokens wearableData results clock_reads random_draws db_statements
       provider_calls tick_clock tick_random log_call count_statement set_results
       set_wearableTokens set_wearableData fst snd].


(* ================================================================== *)
(** ** Runs of the sync handler *)

Module SyncRuns.

Import DatabaseStorage Routes Scenarios AggregatorCredentials SimulatedClaims SyncOutcomes.

Section Accepted.

Context (e : Env) (Hdb : forall k, db_rejects e k = false).

(** The aggregator block when the database accepts its insert. *)
Lemma sync_apple_accepted userId s0 :
  wp e (sync_apple userId)
     (fun _ s' =>
        exists d row,
          results s' = (results s0 ++ [SyncOutcome.success "apple_health" (FromSimulator d)])%list
          /\ wearableData s' = (wearableData s0 ++ [row])%list
          /\ WearableData.deviceType row = "apple_watch"
          /\ wearableTokens s' = wearableTokens s0
          /\ provider_calls s' = provider_calls s0)
     (fun _ _ => False) s0.
Proof.
  unfold sync_apple. repeat wp_step. rewrite Hdb. state_simpl.
  repeat wp_step. do 2 eexists. repeat split; reflexivity.
Qed.

(** What the aggregator block adds to the answer. *)
Definition aggregator_outcomes (found : option WearableToken.t) (rest : list SyncOutcome.t)
  : Prop :=
  if has_externalUserId found
  then exists d, rest = [SyncOutcome.success "apple_health" (FromSimulator d)]
  else rest = [].

(** The sync handler from the aggregator lookup on. *)
Lemma sync_tail_accepted userId s0 :
  wp e (appleToken <- getWearableToken userId "apple_health" ;;
        (if has_externalUserId appleToken then sync_apple userId else ret tt) ;;
        rs <- get_results ;;
        ret (Response.json (JsonSync rs)))
     (fun resp s' =>
        exists rest,
          resp = Response.json (JsonSync (results s0 ++ rest)%list)
          /\ aggregator_outcomes
               (find (token_matches userId "apple_health") (wearableTokens s0)) rest
          /\ appends (fun row => WearableData.deviceType row = "apple_watch") s0 s'
          /\ wearableTokens s' = wearableTokens s0
          /\ provider_calls s' = provider_calls s0)
     (fun _ _ => False) s0.
Proof.
  repeat wp_step. rewrite Hdb. state_simpl. wp_step. unfold aggregator_outcomes.
  destruct (has_externalUserId (find (token_matches userId "apple_health") (wearableTokens s0))).
  - eapply wp_weaken; [apply sync_apple_accepted | | contradiction].
    intros ? s' [d [row [Hrs [Hrows [Hdev [Htokens Hcalls]]]]]].
    repeat wp_step. rewrite Hrs. state_simpl.
    eexists. split; [reflexivity | ]. split; [eexists; reflexivity | ].
    split; [ | split; assumption].
    exists [row]. split; [exact Hrows | repeat constructor; exact Hdev].
  - repeat wp_step. state_simpl.
    exists []. split; [rewrite app_nil_r; reflexivity | ]. split; [reflexivity | ].
    split; [ | split; reflexivity].
    exists []. split; [symmetry; apply app_nil_r | constructor].
Qed.

End Accepted.

End SyncRuns.


Module RefreshRejected.

Import DatabaseStorage Routes Scenarios AggregatorCredentials SimulatedClaims SyncOutcomes
       SyncRuns.

Section Run.

Context (e : Env) (s : State) (userId : string) (n : Z).
Context (whoopToken : WearableToken.t) (expiresAt : Z) (message : string).
Context (Hparse : parseInt userId = Some n) (Hn : n <> 0).
Context (Hdb : forall k, db_rejects e k = false).
Context (Hfound : find (token_matches n "whoop") (wearableTokens s) = Some whoopToken).
Context (Hexpires : WearableToken.expiresAt whoopToken = Some expiresAt).
Context (Hstale : expiresAt < Date_now e (clock_reads s)).
Context (Hrejected :
           refreshAccessToken e (WearableToken.refreshToken whoopToken) = Throw message).

Lemma sync_whoop_rejected s0 :
  clock_reads s0 = clock_reads s ->
  sync_whoop n whoopToken e s0
  = (Ok tt,
     set_results (fun rs => rs ++ [SyncOutcome.failure "whoop" message])%list
       (log_call (CallRefresh (WearableToken.refreshToken whoopToken)) (tick_clock s0))).
Proof.
  intros Hclock. unfold sync_whoop, try_catch, bind at 1, refresh_if_stale.
  rewrite Hexpires. unfold bind at 1. unfold now at 1. rewrite Hclock.
  apply Z.ltb_lt in Hstale. rewrite Hstale.
  unfold bind at 1. unfold call_provider at 1. rewrite Hrejected. reflexivity.
Qed.

Definition reported (rest : list SyncOutcome.t) : Response.t :=
  Response.json (JsonSync (SyncOutcome.failure "whoop" message :: rest)).

Lemma sync_rejected :
  wp e (sync userId)
     (fun resp s' =>
        exists rest,
          resp = reported rest
          /\ provider_calls s'
             = (provider_calls s ++ [CallRefresh (WearableToken.refreshToken whoopToken)])%list
          /\ appends (fun row => WearableData.deviceType row = "apple_watch") s s'
          /\ aggregator_outcomes
               (find (token_matches n "apple_health") (wearableTokens s)) rest)
     (fun _ _ => False) s.
Proof.
  unfold sync. rewrite Hparse. apply Z.eqb_neq in Hn. simpl. rewrite Hn. simpl.
  repeat wp_step. rewrite Hdb. state_simpl. rewrite Hfound.
  wp_step. unfold wp at 1. rewrite sync_whoop_rejected by reflexivity.
  eapply wp_weaken; [apply (sync_tail_accepted e Hdb) | | contradiction].
  intros resp s' [rest [-> [Hrest [Hrows [_ Hcalls]]]]].
  exists rest. split; [reflexivity | ].
  split; [exact Hcalls | split; [exact Hrows | exact Hrest]].
Qed.

End Run.

(** C5, amended: when the tracker Credential is stale and the provider
    rejects the refresh token, and the database accepts every statement,
    the sync handler answers 200 with the tracker outcome first, of status
    error and carrying the provider's message.  The only call made to the
    tracker's API is that one refresh, so there is no retry and no fetch,
    and the only row stored is the aggregator's: nothing simulated is
    stored for the tracker.  The aggregator yields one outcome of status
    success when its Credential has a non-empty external user id, and no
    outcome otherwise. *)
Theorem refresh_rejection_is_reported (e : Env) (s : State) (userId : string) (n : Z)
        (whoopToken : WearableToken.t) (expiresAt : Z) (message : string) :
  parseInt userId = Some n -> n <> 0 ->
  (forall k, db_rejects e k = false) ->
  find (token_matches n "whoop") (wearableTokens s) = Some whoopToken ->
  WearableToken.expiresAt whoopToken = Some expiresAt ->
  expiresAt < Date_now e (clock_reads s) ->
  refreshAccessToken e (WearableToken.refreshToken whoopToken) = Throw message ->
  exists rest,
    fst (sync userId e s) = Ok (reported message rest)
    /\ provider_calls (snd (sync userId e s))
       = (provider_calls s ++ [CallRefresh (WearableToken.refreshToken whoopToken)])%list
    /\ appends (fun row => WearableData.deviceType row = "apple_watch") s (snd (sync userId e s))
    /\ aggregator_outcomes (find (token_matches n "apple_health") (wearableTokens s)) rest.
Proof.
  intros Hparse Hn Hdb Hfound Hexpires Hstale Hrejected.
  pose proof (wp_result e _ _ _ s
                (sync_rejected e s userId n whoopToken expiresAt message
                               Hparse Hn Hdb Hfound Hexpires Hstale Hrejected)) as H.
  destruct (fst (sync userId e s)) as [resp | msg]; [ | contradiction].
  destruct H as [rest [-> H]]. exists rest. split; [reflexivity | exact H].
Qed.

Lemma refresh_rejection_is_reported_witness :
  exists rest,
    fst (sync "5" tracker_down (store_of [stale_tracker_credential; aggregator_credential]))
    = Ok (reported "WHOOP token refresh failed: invalid_grant" rest)
    /\ provider_calls
         (snd (sync "5" tracker_down (store_of [stale_tracker_credential; aggregator_credential])))
       = [CallRefresh (Some "refresh-1")]
    /\ appends (fun row => WearableData.deviceType row = "apple_watch")
               (store_of [stale_tracker_credential; aggregator_credential])
               (snd (sync "5" tracker_down
                          (store_of [stale_tracker_credential; aggregator_credential])))
    /\ exists d, rest = [SyncOutcome.success "apple_health" (FromSimulator d)].
Proof.
  apply (refresh_rejection_is_reported tracker_down
           (store_of [stale_tracker_credential; aggregator_credential]) "5" 5
           stale_tracker_credential 1600000000000).
  - reflexivity.
  - discriminate.
  - reflexivity.
  - reflexivity.
  - reflexivity.
  - reflexivity.
  - reflexivity.
Defined.

(** C5, counterexample: with a rejected refresh and an aggregator
    Credential whose external user id is empty, the aggregator is reported
    connected by the status handler but yields no outcome: the only outcome
    is the tracker's error. *)
Lemma connected_aggregator_without_success :
  fst (wearable_status "5" tracker_down
                       (store_of [stale_tracker_credential; blank_aggregator_credential]))
  = Ok (Response.json (JsonStatus (ProviderStatus.mk true None true)
                                  (ProviderStatus.mk true None false)))
  /\ fst (sync "5" tracker_down
               (store_of [stale_tracker_credential; blank_aggregator_credential]))
     = Ok (reported "WHOOP token refresh failed: invalid_grant" []).
Proof. vm_compute. repeat split; reflexivity. Qed.

End RefreshRejected.

(* ================================================================== *)
(** ** Refreshing a stale tracker Credential *)

Module Refresh.

Import DatabaseStorage Routes Scenarios AggregatorCredentials SimulatedClaims SyncOutcomes
       SyncRuns.

Lemma token_matches_updated userId provider updates t :
  token_matches userId provider (apply_updates updates t) = token_matches userId provider t.
Proof. reflexivity. Qed.

Lemma find_update_rows_same userId provider updates rows :
  find (token_matches userId provider) (update_rows userId provider updates rows)
  = option_map (apply_updates updates) (find (token_matches userId provider) rows).
Proof.
  induction rows as [ | t rows IH]; [reflexivity | ].
  simpl. destruct (token_matches userId provider t) eqn:E.
  - rewrite token_matches_updated, E. reflexivity.
  - rewrite E. exact IH.
Qed.

(** The tracker Credential of the user carries the refreshed tokens, the
    new expiry and the external user id it had. *)
Definition refreshed_credential (userId : Z) (old : WearableToken.t)
           (refreshed : RefreshedTokens.t) (newExpiresAt : Z) (s : State) : Prop :=
  exists w,
    find (token_matches userId "whoop") (wearableTokens s) = Some w
    /\ WearableToken.accessToken w = RefreshedTokens.access_token refreshed
    /\ WearableToken.refreshToken w = Some (RefreshedTokens.refresh_token refreshed)
    /\ WearableToken.expiresAt w = Some newExpiresAt
    /\ WearableToken.externalUserId w = WearableToken.externalUserId old.

Section Run.

Context (e : Env) (userId : Z) (old : WearableToken.t).
Context (refreshed : RefreshedTokens.t) (newExpiresAt : Z).

Let kept := refreshed_credential userId old refreshed newExpiresAt.

Lemma touch_keeps_refreshed t at_ :
  stable kept
         (set_wearableTokens
            (update_rows userId "whoop"
               (with_updatedAt (TokenUpdates.mk None None None None (Some t)) at_))).
Proof.
  intros s [w [Hfind [Ha [Hr [He Hx]]]]]. unfold kept, refreshed_credential. simpl.
  rewrite find_update_rows_same, Hfind. simpl. eexists. split; [reflexivity | ].
  simpl. auto.
Qed.

Lemma after_refresh_keeps accessToken :
  keeps e kept
        ((if useRealWhoop then fetch_real userId accessToken else ret tt) ;;
         rs <- get_results ;;
         if negb useRealWhoop || no_whoop_success rs
         then demo_fallback userId
         else ret tt)
        (fun _ => True).
Proof.
  unfold fetch_real, demo_fallback. keeps_walk. intros at_. apply touch_keeps_refreshed.
Qed.

Lemma sync_tail_keeps :
  keeps e kept
        (appleToken <- getWearableToken userId "apple_health" ;;
         (if has_externalUserId appleToken then sync_apple userId else ret tt) ;;
         rs <- get_results ;;
         ret (Response.json (JsonSync rs)))
        (fun _ => True).
Proof. unfold sync_apple. keeps_walk. Qed.

End Run.

Section Sync.

Context (e : Env) (s : State) (userId : string) (n : Z).
Context (old : WearableToken.t) (expiresAt : Z) (refreshed : RefreshedTokens.t).
Context (Hparse : parseInt userId = Some n) (Hn : n <> 0).
Context (Hlookup : db_rejects e (db_statements s) = false).
Context (Hupdate : db_rejects e (S (db_statements s)) = false).
Context (Hfound : find (token_matches n "whoop") (wearableTokens s) = Some old).
Context (Hexpires : WearableToken.expiresAt old = Some expiresAt).
Context (Hstale : expiresAt < Date_now e (clock_reads s)).
Context (Hrefreshed :
           refreshAccessToken e (WearableToken.refreshToken old) = Ok refreshed).

Definition new_expiry : Z :=
  Date_now e (S (clock_reads s)) + RefreshedTokens.expires_in refreshed * 1000.

Lemma sync_refreshes :
  wp e (sync userId)
     (fun _ => refreshed_credential n old refreshed new_expiry)
     (fun _ => refreshed_credential n old refreshed new_expiry) s.
Proof.
  unfold sync. rewrite Hparse. pose proof Hn as Hn'. apply Z.eqb_neq in Hn'.
  simpl. rewrite Hn'. simpl.
  wp_step.
  eapply wp_weaken with
    (Q := fun _ => refreshed_credential n old refreshed new_expiry)
    (X := fun _ => refreshed_credential n old refreshed new_expiry);
    [ | trivial | intros msg s' H; apply wp_ret; exact H].
  repeat wp_step. state_simpl. rewrite Hlookup, Hfound. wp_step.
  eapply wp_weaken with
    (Q := fun _ => refreshed_credential n old refreshed new_expiry)
    (X := fun _ _ => False).
  - unfold sync_whoop. wp_step.
    eapply wp_weaken with
      (Q := fun _ => refreshed_credential n old refreshed new_expiry)
      (X := fun _ => refreshed_credential n old refreshed new_expiry);
      [ | trivial | intros msg s' H; apply wp_push_result; exact H].
    wp_step. unfold refresh_if_stale. rewrite Hexpires.
    repeat wp_step. state_simpl.
    apply Z.ltb_lt in Hstale. rewrite Hstale.
    repeat wp_step. rewrite Hrefreshed.
    repeat wp_step. state_simpl. rewrite Hupdate. state_simpl.
    wp_step. cbv beta.
    eapply wp_weaken; [apply (after_refresh_keeps e n old refreshed new_expiry) | | trivial].
    + unfold refreshed_credential. state_simpl.
      rewrite find_update_rows_same, Hfound. simpl. eexists. split; [reflexivity | ].
      simpl. auto.
    + intros ? s' [H _]. exact H.
  - intros ? s' H.
    eapply wp_weaken; [apply (sync_tail_keeps e n old refreshed new_expiry), H | | trivial].
    intros ? s'' [H' _]. exact H'.
  - intros msg s' [].
Qed.

End Sync.

(** C4: when the sync handler finds a tracker Credential whose [expiresAt]
    is strictly before the current time, the provider accepts the refresh
    and the database accepts the lookup and the update, then after the
    request the Credential carries the returned access and refresh tokens,
    the external user id it had, and as [expiresAt] the next clock reading
    plus the returned [expires_in] in milliseconds, whatever that lifetime
    is.  That time is strictly later than the [expiresAt] before when the
    returned [expires_in] is not negative and the second clock reading is
    not earlier than the first. *)
Theorem refresh_moves_expiry_forward (e : Env) (s : State) (userId : string) (n : Z)
        (old : WearableToken.t) (expiresAt : Z) (refreshed : RefreshedTokens.t) :
  parseInt userId = Some n -> n <> 0 ->
  db_rejects e (db_statements s) = false ->
  db_rejects e (S (db_statements s)) = false ->
  find (token_matches n "whoop") (wearableTokens s) = Some old ->
  WearableToken.expiresAt old = Some expiresAt ->
  expiresAt < Date_now e (clock_reads s) ->
  refreshAccessToken e (WearableToken.refreshToken old) = Ok refreshed ->
  exists w,
    find (token_matches n "whoop") (wearableTokens (snd (sync userId e s))) = Some w
    /\ WearableToken.accessToken w = RefreshedTokens.access_token refreshed
    /\ WearableToken.refreshToken w = Some (RefreshedTokens.refresh_token refreshed)
    /\ WearableToken.externalUserId w = WearableToken.externalUserId old
    /\ WearableToken.expiresAt w
       = Some (Date_now e (S (clock_reads s)) + RefreshedTokens.expires_in refreshed * 1000)
    /\ (0 <= RefreshedTokens.expires_in refreshed ->
        Date_now e (clock_reads s) <= Date_now e (S (clock_reads s)) ->
        expiresAt
        < Date_now e (S (clock_reads s)) + RefreshedTokens.expires_in refreshed * 1000).
Proof.
  intros Hparse Hn Hlookup Hupdate Hfound Hexpires Hstale Hrefreshed.
  pose proof (wp_result e _ _ _ s
                (sync_refreshes e s userId n old expiresAt refreshed Hparse Hn Hlookup
                                Hupdate Hfound Hexpires Hstale Hrefreshed)) as H.
  assert (H' : refreshed_credential n old refreshed (new_expiry e s refreshed)
                                    (snd (sync userId e s))).
  { destruct (fst (sync userId e s)); exact H. }
  destruct H' as [w [Hw [Ha [Hr [He Hx]]]]].
  exists w. unfold new_expiry in He. repeat split; try assumption.
  intros Hlifetime Hclock. lia.
Qed.

Definition accepted_tokens : RefreshedTokens.t :=
  RefreshedTokens.mk "access-2" "refresh-2" 3600.

(** The tracker's API accepts the refresh token and is down otherwise. *)
Definition refresh_accepted : Env :=
  mkEnv (clock_from 1700000000000)
        (fun _ => 1 # 2)
        (fun _ => false)
        (fun _ => Ok accepted_tokens)
        (fun _ _ => Throw "WHOOP API error: 503")
        (fun _ _ => Throw "WHOOP API error: 503")
        (fun _ _ => Throw "WHOOP API error: 503")
        (fun _ _ _ => Throw "unexpected payload")
        (fun _ _ _ => Throw "unexpected payload").

Lemma refresh_accepted_clock i j :
  (i <= j)%nat -> Date_now refresh_accepted i <= Date_now refresh_accepted j.
Proof. intros Hij. unfold refresh_accepted, clock_from, Date_now. lia. Qed.

Lemma refresh_moves_expiry_forward_witness :
  exists w,
    find (token_matches 5 "whoop")
         (wearableTokens (snd (sync "5" refresh_accepted (store_of [stale_tracker_credential]))))
    = Some w
    /\ WearableToken.accessToken w = "access-2"
    /\ WearableToken.refreshToken w = Some "refresh-2"
    /\ WearableToken.externalUserId w = Some "whoop-user-77"
    /\ WearableToken.expiresAt w = Some 1700003600001
    /\ 1600000000000 < 1700003600001.
Proof.
  destruct (refresh_moves_expiry_forward refresh_accepted (store_of [stale_tracker_credential])
              "5" 5 stale_tracker_credential 1600000000000 accepted_tokens)
    as [w [Hw [Ha [Hr [Hx [He Hlater]]]]]].
  - reflexivity.
  - discriminate.
  - reflexivity.
  - reflexivity.
  - reflexivity.
  - reflexivity.
  - reflexivity.
  - reflexivity.
  - exists w. split; [exact Hw | ]. split; [exact Ha | ]. split; [exact Hr | ].
    split; [exact Hx | ]. split; [exact He | ].
    apply Hlater; [vm_compute; discriminate | apply refresh_accepted_clock; lia].
Defined.

(** The same Credential, expired one second before the request. *)
Definition lapsed_tracker_credential : WearableToken.t :=
  WearableToken.mk 5 "whoop" "access-1" (Some "refresh-1") (Some "whoop-user-77")
                   (Some 1699999999000) None.

(** The tracker's API accepts the refresh token and answers with a lifetime
    below zero, which [routes.ts:545] adds to the clock reading as it is. *)
Definition refresh_negative_lifetime : Env :=
  mkEnv (clock_from 1700000000000)
        (fun _ => 1 # 2)
        (fun _ => false)
        (fun _ => Ok (RefreshedTokens.mk "access-2" "refresh-2" (-3600)))
        (fun _ _ => Throw "WHOOP API error: 503")
        (fun _ _ => Throw "WHOOP API error: 503")
        (fun _ _ => Throw "WHOOP API error: 503")
        (fun _ _ _ => Throw "unexpected payload")
        (fun _ _ _ => Throw "unexpected payload").

(** C4, as the specification words it, fails: the Credential is stale and
    has a refresh token, the refresh succeeds and the tokens are replaced,
    and the [expiresAt] stored is earlier than the one before. *)
Lemma refresh_moves_expiry_back :
  WearableToken.expiresAt lapsed_tracker_credential = Some 1699999999000
  /\ 1699999999000 < Date_now refresh_negative_lifetime 0
  /\ WearableToken.refreshToken lapsed_tracker_credential = Some "refresh-1"
  /\ exists w,
       find (token_matches 5 "whoop")
            (wearableTokens
               (snd (sync "5" refresh_negative_lifetime
                          (store_of [lapsed_tracker_credential]))))
       = Some w
       /\ WearableToken.accessToken w = "access-2"
       /\ WearableToken.refreshToken w = Some "refresh-2"
       /\ WearableToken.externalUserId w = Some "whoop-user-77"
       /\ WearableToken.expiresAt w = Some 1699996400001
       /\ 1699996400001 < 1699999999000.
Proof.
  split; [reflexivity | ]. split; [reflexivity | ]. split; [reflexivity | ].
  eexists. split; [vm_compute; reflexivity | ].
  repeat split.
Qed.

End Refresh.

(* ================================================================== *)
(** ** Falling back to the simulator *)

Module Fallback.

Import DatabaseStorage Routes Scenarios SimulatedRanges Provenance SimulatedClaims SyncOutcomes
       SyncRuns.

(** The access token the tracker block fetches with, when the clock reads
    [at_] at the staleness test: the stored one, or the refreshed one when
    the Credential is stale. *)
Definition access_token_in_use (e : Env) (at_ : Z) (w : WearableToken.t) : Result string :=
  if is_stale at_ w
  then
    match refreshAccessToken e (WearableToken.refreshToken w) with
    | Ok refreshed => Ok (RefreshedTokens.access_token refreshed)
    | Throw msg => Throw msg
    end
  else Ok (WearableToken.accessToken w).

(** What fetching the three payloads and transforming them comes to. *)
Definition fetch_and_transform (e : Env) (accessToken : string) : Result Transformed.t :=
  match getRecoveryData e accessToken 1,
        getSleepData e accessToken 1,
        getCycleData e accessToken 1 with
  | Ok recoveryData, Ok sleepData, Ok cycleData =>
      transformWHOOPData e recoveryData sleepData cycleData
  | Throw msg, _, _ => Throw msg
  | _, Throw msg, _ => Throw msg
  | _, _, Throw msg => Throw msg
  end.

(** The row [row] holds the simulated record [d] of user [userId]. *)
Definition stored_as (userId : Z) (d : Simulated.t) (row : WearableData.t) : Prop :=
  WearableData.userId row = userId
  /\ WearableData.deviceType row = Simulated.deviceType d
  /\ WearableData.sleepScore row = Some (Simulated.sleepScore d)
  /\ WearableData.sleepDuration row = Some (Simulated.sleepDuration d)
  /\ WearableData.strainLevel row = text_column (Simulated.strainLevel d)
  /\ WearableData.hrv row = Some (Simulated.hrv d)
  /\ WearableData.heartRate row = Some (Simulated.heartRate d).

(** Neither the outcomes nor the stored records changed. *)
Definition unchanged (s0 s' : State) : Prop :=
  results s' = results s0 /\ wearableData s' = wearableData s0.

Section Run.

Context (e : Env) (Hdb : forall k, db_rejects e k = false).
Context (draws : forall i, unit_draw (Math_random e i)).
Context (n : Z) (w : WearableToken.t) (accessToken : string).

Lemma refresh_if_stale_in_use s0 :
  access_token_in_use e (Date_now e (clock_reads s0)) w = Ok accessToken ->
  wp e (refresh_if_stale n w)
     (fun tok s' => tok = accessToken /\ unchanged s0 s') (fun _ _ => False) s0.
Proof.
  unfold access_token_in_use, is_stale, refresh_if_stale.
  destruct (WearableToken.expiresAt w) as [expiresAt | ].
  - intros H. repeat wp_step. state_simpl.
    destruct (expiresAt <? Date_now e (clock_reads s0)).
    + repeat wp_step.
      destruct (refreshAccessToken e (WearableToken.refreshToken w)) as [refreshed | msg];
        [ | discriminate H].
      repeat wp_step. rewrite Hdb. state_simpl. repeat wp_step.
      split; [congruence | split; reflexivity].
    + repeat wp_step. split; [congruence | split; reflexivity].
  - intros H. repeat wp_step. split; [congruence | split; reflexivity].
Qed.

Lemma fetch_real_fails msg s0 :
  fetch_and_transform e accessToken = Throw msg ->
  wp e (fetch_real n accessToken) (fun _ s' => unchanged s0 s') (fun _ _ => False) s0.
Proof.
  unfold fetch_and_transform, fetch_real. intros H.
  repeat wp_step.
  destruct (getRecoveryData e accessToken 1) as [recoveryData | m1];
    repeat wp_step;
    destruct (getSleepData e accessToken 1) as [sleepData | m2];
    repeat wp_step;
    destruct (getCycleData e accessToken 1) as [cycleData | m3];
    repeat wp_step; try (split; reflexivity).
  rewrite H. repeat wp_step. split; reflexivity.
Qed.

Lemma demo_fallback_accepted s0 :
  wp e (demo_fallback n)
     (fun _ s' =>
        exists d row,
          results s' = (results s0 ++ [SyncOutcome.success "whoop" (FromSimulator d)])%list
          /\ wearableData s' = (wearableData s0 ++ [row])%list
          /\ stored_as n d row
          /\ tracker_ranges row = true)
     (fun _ _ => False) s0.
Proof.
  unfold demo_fallback. repeat wp_step. rewrite Hdb. state_simpl.
  repeat wp_step. rewrite Hdb. state_simpl. repeat wp_step.
  do 2 eexists. split; [reflexivity | ]. split; [reflexivity | ].
  split; [repeat split | ].
  apply (simulated_row_tracker e draws).
Qed.

Lemma sync_whoop_falls_back msg s0 :
  results s0 = [] ->
  access_token_in_use e (Date_now e (clock_reads s0)) w = Ok accessToken ->
  fetch_and_transform e accessToken = Throw msg ->
  wp e (sync_whoop n w)
     (fun _ s' =>
        exists d row,
          results s' = [SyncOutcome.success "whoop" (FromSimulator d)]
          /\ wearableData s' = (wearableData s0 ++ [row])%list
          /\ stored_as n d row
          /\ tracker_ranges row = true)
     (fun _ _ => False) s0.
Proof.
  intros Hnone Htoken Hfetch. unfold sync_whoop. wp_step.
  eapply wp_weaken with (X := fun _ _ => False); [ | intros ? ? H; exact H | contradiction].
  wp_step.
  eapply wp_weaken; [apply refresh_if_stale_in_use, Htoken | | contradiction].
  intros tok s1 [-> [Hrs1 Hrows1]]. unfold useRealWhoop. wp_step.
  eapply wp_weaken; [apply (fetch_real_fails msg), Hfetch | | contradiction].
  intros ? s2 [Hrs2 Hrows2]. repeat wp_step.
  rewrite Hrs2, Hrs1, Hnone. simpl.
  eapply wp_weaken; [apply demo_fallback_accepted | | contradiction].
  intros ? s3 [d [row [Hrs3 [Hrows3 [Hd Hrow]]]]].
  exists d, row. rewrite Hrs3, Hrs2, Hrs1, Hnone, Hrows3, Hrows2, Hrows1.
  repeat split; solve [reflexivity | apply Hd | exact Hrow].
Qed.

End Run.

Definition simulated (d : Simulated.t) (rest : list SyncOutcome.t) : Response.t :=
  Response.json (JsonSync (SyncOutcome.success "whoop" (FromSimulator d) :: rest)).

Lemma sync_falls_back e s userId n w accessToken msg :
  parseInt userId = Some n -> n <> 0 ->
  (forall k, db_rejects e k = false) ->
  (forall i, unit_draw (Math_random e i)) ->
  find (token_matches n "whoop") (wearableTokens s) = Some w ->
  access_token_in_use e (Date_now e (clock_reads s)) w = Ok accessToken ->
  fetch_and_transform e accessToken = Throw msg ->
  wp e (sync userId)
     (fun resp s' =>
        exists d row rest more,
          resp = simulated d rest
          /\ wearableData s' = (wearableData s ++ row :: more)%list
          /\ stored_as n d row
          /\ tracker_ranges row = true)
     (fun _ _ => False) s.
Proof.
  intros Hparse Hn Hdb draws Hfound Htoken Hfetch.
  unfold sync. rewrite Hparse. apply Z.eqb_neq in Hn. simpl. rewrite Hn. simpl.
  repeat wp_step. rewrite Hdb. state_simpl. rewrite Hfound. wp_step.
  eapply wp_weaken;
    [apply (sync_whoop_falls_back e Hdb draws n w accessToken msg);
     [reflexivity | exact Htoken | exact Hfetch] | | contradiction].
  intros ? s1 [d [row [Hrs1 [Hrows1 [Hd Hrow]]]]].
  eapply wp_weaken; [apply (sync_tail_accepted e Hdb) | | contradiction].
  intros resp s2 [rest [-> [_ [[more [Hrows2 _]] _]]]].
  exists d, row, rest, more. rewrite Hrs1, Hrows2, Hrows1. state_simpl.
  rewrite <- app_assoc. repeat split; solve [reflexivity | apply Hd | exact Hrow].
Qed.

(** The tracker's API is down and the database rejects the second
    statement of the request, the insert of the simulated record. *)
Definition outage_insert_rejected : Env :=
  mkEnv (clock_from 1700000000000)
        (fun _ => 1 # 2)
        (fun k => Nat.eqb k 1)
        (fun _ => Throw "WHOOP token refresh failed: invalid_grant")
        (fun _ _ => Throw "WHOOP API error: 503")
        (fun _ _ => Throw "WHOOP API error: 503")
        (fun _ _ => Throw "WHOOP API error: 503")
        (fun _ _ _ => Throw "unexpected payload")
        (fun _ _ _ => Throw "unexpected payload").

(** C2, counterexample: the fetch fails and the handler falls back; with
    the draw 1023/1024 the simulated record it stores has a strain of 20.0,
    outside the documented ranges; and when the database rejects the insert
    of the simulated record the outcome has status error. *)
Lemma fallback_outside_documented_ranges :
  fetch_and_transform tracker_down "access-1" = Throw "WHOOP API error: 503"
  /\ (exists d row,
         fst outage_sync = Ok (simulated d [])
         /\ wearableData (snd outage_sync) = [row]
         /\ stored_as 5 d row
         /\ documented_ranges row = false)
  /\ fst (sync "5" outage_insert_rejected (store_of [fresh_tracker_credential]))
     = Ok (Response.json (JsonSync [SyncOutcome.failure "whoop" "database error"])).
Proof.
  split; [reflexivity | split].
  - do 2 eexists. vm_compute. repeat split; reflexivity.
  - vm_compute. reflexivity.
Qed.

(** C2, amended: when the tracker Credential exists, the access token in
    use is the stored one or a successfully refreshed one, fetching or
    transforming the tracker's data fails, the draws of [Math.random()] are
    in the unit interval and the database accepts every statement, the sync
    handler answers 200 with the tracker outcome first, of status success
    and carrying a simulated record; that record is stored for the user
    and has sleep score 60 to 99, sleep duration 7 or 8 hours and 0 to 59
    minutes, strain 5.0 to 20.0 with one decimal, HRV 25 to 74 and heart
    rate 60 to 99. *)
Theorem fetch_failure_falls_back (e : Env) (s : State) (userId : string) (n : Z)
        (w : WearableToken.t) (accessToken msg : string) :
  parseInt userId = Some n -> n <> 0 ->
  (forall k, db_rejects e k = false) ->
  (forall i, unit_draw (Math_random e i)) ->
  find (token_matches n "whoop") (wearableTokens s) = Some w ->
  access_token_in_use e (Date_now e (clock_reads s)) w = Ok accessToken ->
  fetch_and_transform e accessToken = Throw msg ->
  exists d row rest more,
    fst (sync userId e s) = Ok (simulated d rest)
    /\ wearableData (snd (sync userId e s)) = (wearableData s ++ row :: more)%list
    /\ stored_as n d row
    /\ tracker_ranges row = true.
Proof.
  intros Hparse Hn Hdb draws Hfound Htoken Hfetch.
  pose proof (wp_result e _ _ _ s
                (sync_falls_back e s userId n w accessToken msg
                                 Hparse Hn Hdb draws Hfound Htoken Hfetch)) as H.
  destruct (fst (sync userId e s)) as [resp | m]; [ | contradiction].
  destruct H as [d [row [rest [more [-> H]]]]].
  exists d, row, rest, more. split; [reflexivity | exact H].
Qed.

Lemma fetch_failure_falls_back_witness :
  exists d row rest more,
    fst (sync "5" tracker_down (store_of [fresh_tracker_credential])) = Ok (simulated d rest)
    /\ wearableData (snd (sync "5" tracker_down (store_of [fresh_tracker_credential])))
       = (wearableData (store_of [fresh_tracker_credential]) ++ row :: more)%list
    /\ stored_as 5 d row
    /\ tracker_ranges row = true.
Proof.
  refine (fetch_failure_falls_back tracker_down (store_of [fresh_tracker_credential]) "5" 5
            fresh_tracker_credential "access-1" "WHOOP API error: 503"
            _ _ _ tracker_down_draws _ _ _).
  - reflexivity.
  - discriminate.
  - reflexivity.
  - reflexivity.
  - reflexivity.
  - reflexivity.
Defined.

End Fallback.
(* ================================================================== *)
(** ** The credential table: lookups after writes *)

Module TokenTable.

Import DatabaseStorage Routes Scenarios.

(** The key of a row: the pair the lookups compare. *)
Definition key (t : WearableToken.t) : Z * string :=
  (WearableToken.userId t, WearableToken.provider t).

Lemma token_matches_key userId provider t :
  token_matches userId provider t = true <-> key t = (userId, provider).
Proof.
  unfold token_matches, key. rewrite andb_true_iff, Z.eqb_eq, String.eqb_eq.
  split; [intros [-> ->]; reflexivity | intros E; injection E; auto].
Qed.

Lemma token_matches_other userId provider userId' provider' t :
  (userId', provider') <> (userId, provider) ->
  token_matches userId provider t = true -> token_matches userId' provider' t = false.
Proof.
  intros Hne Hm. destruct (token_matches userId' provider' t) eqn:E; [ | reflexivity].
  apply token_matches_key in Hm. apply token_matches_key in E. congruence.
Qed.

Lemma find_app_found {A : Type} (f : A -> bool) (l l' : list A) (x : A) :
  find f l = Some x -> find f (l ++ l')%list = Some x.
Proof.
  induction l as [ | y l IH]; simpl; [discriminate | ].
  destruct (f y); [trivial | exact IH].
Qed.

Lemma find_append_other userId provider tok rows :
  key tok <> (userId, provider) ->
  find (token_matches userId provider) (rows ++ [tok])%list
  = find (token_matches userId provider) rows.
Proof.
  intros Hne. induction rows as [ | t rows IH]; simpl.
  - destruct (token_matches userId provider tok) eqn:E; [ | reflexivity].
    apply token_matches_key in E. contradiction.
  - destruct (token_matches userId provider t); [reflexivity | exact IH].
Qed.

Lemma update_rows_absent userId provider updates rows :
  find (token_matches userId provider) rows = None ->
  update_rows userId provider updates rows = rows.
Proof.
  induction rows as [ | t rows IH]; [reflexivity | ].
  simpl. destruct (token_matches userId provider t); [discriminate | ].
  intros H. rewrite (IH H). reflexivity.
Qed.

Lemma find_update_rows_frame userId provider userId' provider' updates rows :
  (userId', provider') <> (userId, provider) ->
  find (token_matches userId' provider') (update_rows userId provider updates rows)
  = find (token_matches userId' provider') rows.
Proof.
  intros Hne. induction rows as [ | t rows IH]; [reflexivity | ].
  simpl. destruct (token_matches userId provider t) eqn:E.
  - rewrite Refresh.token_matches_updated.
    rewrite (token_matches_other _ _ _ _ _ Hne E). exact IH.
  - rewrite IH. reflexivity.
Qed.

Lemma find_filter_frame userId provider userId' provider' rows :
  (userId', provider') <> (userId, provider) ->
  find (token_matches userId' provider')
       (filter (fun t => negb (token_matches userId provider t)) rows)
  = find (token_matches userId' provider') rows.
Proof.
  intros Hne. induction rows as [ | t rows IH]; [reflexivity | ].
  simpl. destruct (token_matches userId provider t) eqn:E; simpl.
  - rewrite (token_matches_other _ _ _ _ _ Hne E). exact IH.
  - rewrite IH. reflexivity.
Qed.

Lemma key_update_rows userId provider updates rows :
  map key (update_rows userId provider updates rows) = map key rows.
Proof.
  unfold update_rows. rewrite map_map. apply map_ext.
  intros t. destruct (token_matches userId provider t); reflexivity.
Qed.

(** The row [old] after [updateWearableToken] ran with [updates] when the
    clock read [at_]. *)
Definition updated (updates : TokenUpdates.t) (at_ : Z) (old : WearableToken.t)
  : WearableToken.t :=
  apply_updates (with_updatedAt updates at_) old.

(** X1: when the table holds no row for the pair of [insertToken] and the
    database accepts the insert and the lookup, [createWearableToken]
    returns the row and a following [getWearableToken] for that pair finds
    exactly it; the rows found for every other pair are the ones found
    before, and no biometric record changes. *)
Theorem created_token_is_found (e : Env) (s : State) (insertToken : WearableToken.t) :
  db_rejects e (db_statements s) = false ->
  db_rejects e (S (db_statements s)) = false ->
  find (token_matches (WearableToken.userId insertToken) (WearableToken.provider insertToken))
       (wearableTokens s) = None ->
  let created := createWearableToken insertToken e s in
  fst created = Ok insertToken
  /\ fst (getWearableToken (WearableToken.userId insertToken)
                           (WearableToken.provider insertToken) e (snd created))
     = Ok (Some insertToken)
  /\ (forall userId provider,
         (userId, provider) <> key insertToken ->
         find (token_matches userId provider) (wearableTokens (snd created))
         = find (token_matches userId provider) (wearableTokens s))
  /\ wearableData (snd created) = wearableData s.
Proof.
  intros Hinsert Hlookup Habsent created. subst created.
  unfold createWearableToken, getWearableToken, statement. rewrite Hinsert.
  cbn [fst snd]. state_simpl. rewrite Hlookup. cbn [fst snd]. state_simpl.
  split; [reflexivity | ]. split; [ | split; [ | reflexivity]].
  - rewrite (SyncOutcomes.find_last _ _ insertToken Habsent).
    unfold token_matches. rewrite Z.eqb_refl, String.eqb_refl. reflexivity.
  - intros userId provider Hne. apply find_append_other. congruence.
Qed.

Lemma created_token_is_found_witness :
  let created := createWearableToken AggregatorCredentials.aggregator_credential tracker_down
                   (store_of [fresh_tracker_credential]) in
  fst created = Ok AggregatorCredentials.aggregator_credential
  /\ fst (getWearableToken (WearableToken.userId AggregatorCredentials.aggregator_credential)
                           (WearableToken.provider AggregatorCredentials.aggregator_credential)
                           tracker_down (snd created))
     = Ok (Some AggregatorCredentials.aggregator_credential)
  /\ (forall userId provider,
         (userId, provider) <> key AggregatorCredentials.aggregator_credential ->
         find (token_matches userId provider) (wearableTokens (snd created))
         = find (token_matches userId provider)
                (wearableTokens (store_of [fresh_tracker_credential])))
  /\ wearableData (snd created) = wearableData (store_of [fresh_tracker_credential]).
Proof.
  refine (created_token_is_found tracker_down (store_of [fresh_tracker_credential])
            AggregatorCredentials.aggregator_credential _ _ _); reflexivity.
Defined.

(** X2: [updateWearableToken] for a pair the table holds no row of raises
    no error: when the database accepts the statement it returns no row
    and leaves both tables as they were. *)
Theorem update_of_missing_token_changes_nothing (e : Env) (s : State) (userId : Z)
        (provider : string) (updates : TokenUpdates.t) :
  db_rejects e (db_statements s) = false ->
  find (token_matches userId provider) (wearableTokens s) = None ->
  fst (updateWearableToken userId provider updates e s) = Ok None
  /\ wearableTokens (snd (updateWearableToken userId provider updates e s)) = wearableTokens s
  /\ wearableData (snd (updateWearableToken userId provider updates e s)) = wearableData s.
Proof.
  intros Hdb Habsent. unfold updateWearableToken, bind, now, statement.
  state_simpl. rewrite Hdb. cbn [fst snd]. state_simpl.
  rewrite (update_rows_absent _ _ _ _ Habsent), Habsent. repeat split.
Qed.

Lemma update_of_missing_token_changes_nothing_witness :
  fst (updateWearableToken 5 "apple_health" TokenUpdates.none tracker_down
         (store_of [fresh_tracker_credential])) = Ok None
  /\ wearableTokens (snd (updateWearableToken 5 "apple_health" TokenUpdates.none tracker_down
                            (store_of [fresh_tracker_credential])))
     = wearableTokens (store_of [fresh_tracker_credential])
  /\ wearableData (snd (updateWearableToken 5 "apple_health" TokenUpdates.none tracker_down
                          (store_of [fresh_tracker_credential])))
     = wearableData (store_of [fresh_tracker_credential]).
Proof.
  refine (update_of_missing_token_changes_nothing tracker_down
            (store_of [fresh_tracker_credential]) 5 "apple_health" TokenUpdates.none _ _);
    reflexivity.
Defined.

(** X3: when the table holds the row [old] for the pair and the database
    accepts the update and the lookup, [updateWearableToken] returns [old]
    with the columns of [updates] replaced, and a following lookup finds
    that row.  Its [updatedAt] is the time the storage read for the update,
    whatever [updatedAt] the caller passed; its key is the key of [old];
    the table keeps its keys in their order, and the rows found for every
    other pair are the ones found before. *)
Theorem updated_token_is_found (e : Env) (s : State) (userId : Z) (provider : string)
        (updates : TokenUpdates.t) (old : WearableToken.t) :
  db_rejects e (db_statements s) = false ->
  db_rejects e (S (db_statements s)) = false ->
  find (token_matches userId provider) (wearableTokens s) = Some old ->
  let at_ := Date_now e (clock_reads s) in
  let run := updateWearableToken userId provider updates e s in
  fst run = Ok (Some (updated updates at_ old))
  /\ fst (getWearableToken userId provider e (snd run)) = Ok (Some (updated updates at_ old))
  /\ WearableToken.updatedAt (updated updates at_ old) = Some at_
  /\ key (updated updates at_ old) = key old
  /\ map key (wearableTokens (snd run)) = map key (wearableTokens s)
  /\ (forall userId' provider',
         (userId', provider') <> (userId, provider) ->
         find (token_matches userId' provider') (wearableTokens (snd run))
         = find (token_matches userId' provider') (wearableTokens s)).
Proof.
  intros Hupdate Hlookup Hfound at_ run. subst run at_.
  unfold updateWearableToken, getWearableToken, bind, now, statement.
  state_simpl. rewrite Hupdate. cbn [fst snd]. state_simpl.
  rewrite Hlookup. cbn [fst snd]. state_simpl.
  rewrite Refresh.find_update_rows_same, Hfound. simpl option_map.
  split; [reflexivity | ]. split; [reflexivity | ]. split; [reflexivity | ].
  split; [reflexivity | ]. split; [apply key_update_rows | ].
  intros userId' provider' Hne. apply find_update_rows_frame, Hne.
Qed.

Lemma updated_token_is_found_witness :
  let at_ := Date_now tracker_down (clock_reads (store_of [fresh_tracker_credential])) in
  let run := updateWearableToken 5 "whoop" (TokenUpdates.mk None None None None (Some 1))
               tracker_down (store_of [fresh_tracker_credential]) in
  fst run
  = Ok (Some (updated (TokenUpdates.mk None None None None (Some 1)) at_
                      fresh_tracker_credential))
  /\ fst (getWearableToken 5 "whoop" tracker_down (snd run))
     = Ok (Some (updated (TokenUpdates.mk None None None None (Some 1)) at_
                         fresh_tracker_credential))
  /\ WearableToken.updatedAt
       (updated (TokenUpdates.mk None None None None (Some 1)) at_ fresh_tracker_credential)
     = Some at_
  /\ key (updated (TokenUpdates.mk None None None None (Some 1)) at_ fresh_tracker_credential)
     = key fresh_tracker_credential
  /\ map key (wearableTokens (snd run))
     = map key (wearableTokens (store_of [fresh_tracker_credential]))
  /\ (forall userId' provider',
         (userId', provider') <> (5, "whoop") ->
         find (token_matches userId' provider') (wearableTokens (snd run))
         = find (token_matches userId' provider')
                (wearableTokens (store_of [fresh_tracker_credential]))).
Proof.
  refine (updated_token_is_found tracker_down (store_of [fresh_tracker_credential]) 5 "whoop"
            (TokenUpdates.mk None None None None (Some 1)) fresh_tracker_credential _ _ _);
    reflexivity.
Defined.

End TokenTable.

(* ================================================================== *)
(** ** One Credential per user and provider *)

Module UniqueCredentials.

Import DatabaseStorage Routes Scenarios TokenTable.

(** No two rows of the credential table have the same user and provider. *)
Definition unique_credentials (s : State) : Prop :=
  NoDup (map key (wearableTokens s)).

(** The same, at a moment when the table holds no row for the pair. *)
Definition unique_without (userId : Z) (provider : string) (s : State) : Prop :=
  unique_credentials s /\ find (token_matches userId provider) (wearableTokens s) = None.

Lemma stable_update_unique userId provider updates :
  stable unique_credentials (set_wearableTokens (update_rows userId provider updates)).
Proof.
  intros s Hs. unfold unique_credentials. simpl. rewrite key_update_rows. exact Hs.
Qed.

Lemma NoDup_map_filter {A B : Type} (g : A -> B) (f : A -> bool) (l : list A) :
  NoDup (map g l) -> NoDup (map g (filter f l)).
Proof.
  induction l as [ | x l IH]; simpl; [trivial | ].
  intros H. inversion H as [ | ? ? Hx Hl]; subst.
  destruct (f x); simpl; [ | exact (IH Hl)].
  constructor; [ | exact (IH Hl)].
  intros Hin. apply Hx. apply in_map_iff in Hin. destruct Hin as [y [Hy Hin]].
  apply filter_In in Hin. apply in_map_iff. exists y. split; [exact Hy | apply Hin].
Qed.

Lemma stable_filter_unique f :
  stable unique_credentials (set_wearableTokens (filter f)).
Proof. intros s Hs. unfold unique_credentials. simpl. apply NoDup_map_filter, Hs. Qed.

Lemma append_unique userId provider tok s :
  key tok = (userId, provider) ->
  unique_without userId provider s ->
  unique_credentials (set_wearableTokens (fun rows => rows ++ [tok])%list s).
Proof.
  intros Hkey [Hs Habsent]. unfold unique_credentials in *. simpl.
  rewrite map_app. simpl. apply NoDup_app.
  - exact Hs.
  - repeat constructor. intros [].
  - intros k Hk [<- | []]. apply in_map_iff in Hk. destruct Hk as [t [Ht Hin]].
    pose proof (find_none _ _ Habsent t Hin) as Hno.
    assert (Hyes : token_matches userId provider t = true).
    { apply token_matches_key. congruence. }
    congruence.
Qed.

Ltac unique_side_conditions :=
  intros;
  lazymatch goal with
  | |- stable _ (set_wearableTokens (update_rows _ _ _)) => apply stable_update_unique
  | |- stable _ (set_wearableTokens (filter _)) => apply stable_filter_unique
  end.

Section Preservation.

Context (e : Env).

(** Inserting the Credential of a pair the table holds no row of. *)
Lemma create_missing userId provider tok :
  key tok = (userId, provider) ->
  triple e (unique_without userId provider)
         (createWearableToken tok ;; ret tt)
         (fun _ => unique_credentials) (fun _ => unique_credentials).
Proof.
  intros Hkey s Hs. apply wp_bind. unfold createWearableToken. apply wp_statement.
  destruct (db_rejects e (db_statements s)).
  - exact (proj1 Hs).
  - apply wp_ret. cbn [fst snd]. apply (append_unique userId provider); assumption.
Qed.

(** Look the Credential up, update it when there is one, create it when
    there is none, and go on. *)
Lemma upsert_keeps {B : Type} userId provider (branch : option WearableToken.t -> M unit)
      (rest : M B) (V : B -> Prop) :
  (forall old, keeps e unique_credentials (branch (Some old)) (fun _ => True)) ->
  triple e (unique_without userId provider) (branch None)
         (fun _ => unique_credentials) (fun _ => unique_credentials) ->
  keeps e unique_credentials rest V ->
  keeps e unique_credentials
        (existingToken <- getWearableToken userId provider ;; branch existingToken ;; rest) V.
Proof.
  intros Hsome Hnone Hrest s Hs. apply wp_bind. unfold getWearableToken. apply wp_statement.
  destruct (db_rejects e (db_statements s)); [exact Hs | ]. cbn [fst snd].
  destruct (find (token_matches userId provider) (wearableTokens (count_statement s)))
    as [old | ] eqn:Hfind.
  - apply (keeps_bind e unique_credentials _ _ (fun _ => True) V (Hsome old)
                      (fun _ _ => Hrest)). exact Hs.
  - apply wp_bind. eapply wp_weaken; [apply Hnone; split; [exact Hs | exact Hfind] | | trivial].
    intros ? s' Hs'. apply Hrest, Hs'.
Qed.

Lemma whoop_demo_auth_unique q :
  keeps e unique_credentials (whoop_demo_auth q) (fun _ => True).
Proof.
  unfold whoop_demo_auth. apply keeps_try_catch; [ | intros; keeps_walk].
  destruct (parseInt _) as [userId | ]; [ | keeps_walk].
  destruct (userId <=? 0); [keeps_walk | ].
  apply (upsert_keeps userId "whoop"
           (fun existingToken =>
              match existingToken with
              | Some _ => _
              | None => _
              end)).
  - intros old. keeps_walk; unique_side_conditions.
  - eapply triple_after with (Inv := unique_without userId "whoop") (V := fun _ => True);
      [keeps_walk | intros ? ? H; exact (proj1 H) | intros t _].
    apply create_missing. reflexivity.
  - keeps_walk.
Qed.

Lemma apple_mock_auth_unique q :
  keeps e unique_credentials (apple_mock_auth q) (fun _ => True).
Proof.
  unfold apple_mock_auth. apply keeps_try_catch; [ | intros; keeps_walk].
  destruct (number_falsy _ || isNaN _); [keeps_walk | ].
  eapply keeps_bind with (V1 := fun _ => True); [keeps_walk | intros t _].
  cbv zeta.
  apply (upsert_keeps _ "apple_health"
           (fun existingToken =>
              match existingToken with
              | Some _ => _
              | None => _
              end)).
  - intros old. keeps_walk; unique_side_conditions.
  - apply create_missing. reflexivity.
  - keeps_walk.
Qed.

Lemma apple_callback_unique reqBody :
  keeps e unique_credentials (apple_callback reqBody) (fun _ => True).
Proof.
  unfold apple_callback. apply keeps_try_catch; [ | intros; keeps_walk].
  destruct reqBody as [b | ]; [ | keeps_walk].
  cbv zeta. destruct (negb _); [keeps_walk | ].
  destruct (CallbackBody.state b) as [ | | n | state]; [keeps_walk | keeps_walk | keeps_walk | ].
  destruct (number_falsy _ || isNaN _); [keeps_walk | ].
  apply (upsert_keeps _ "apple_health"
           (fun existingToken =>
              match existingToken with
              | Some _ => _
              | None => _
              end)).
  - intros old. keeps_walk; unique_side_conditions.
  - apply create_missing. reflexivity.
  - keeps_walk.
Qed.

Lemma handleAuthentication_unique accessToken refreshToken expires_in user_id :
  keeps e unique_credentials
        (WhoopStrategy.handleAuthentication accessToken refreshToken expires_in user_id)
        (fun _ => True).
Proof.
  unfold WhoopStrategy.handleAuthentication. apply keeps_try_catch; [ | intros; keeps_walk].
  eapply keeps_bind with (V1 := fun _ => True); [keeps_walk | intros t _].
  cbv zeta.
  apply (upsert_keeps 1 "whoop"
           (fun existingToken =>
              match existingToken with
              | Some _ => _
              | None => _
              end)).
  - intros old. unfold WhoopStrategy.toString. keeps_walk; unique_side_conditions.
  - unfold WhoopStrategy.toString.
    eapply triple_after with (Inv := unique_without 1 "whoop") (V := fun _ => True);
      [keeps_walk | intros ? ? H; exact (proj1 H) | intros x _].
    apply create_missing. reflexivity.
  - keeps_walk.
Qed.

Lemma sync_unique userId :
  keeps e unique_credentials (sync userId) (fun _ => True).
Proof.
  unfold sync, sync_whoop, refresh_if_stale, fetch_real, demo_fallback, sync_apple.
  keeps_walk; unique_side_conditions.
Qed.

Lemma terra_webhook_unique reqBody :
  keeps e unique_credentials (terra_webhook reqBody) (fun _ => True).
Proof. unfold terra_webhook, terra_webhook_try. keeps_walk. Qed.

Lemma disconnect_unique provider userId :
  keeps e unique_credentials (disconnect provider userId) (fun _ => True).
Proof. unfold disconnect. keeps_walk; unique_side_conditions. Qed.

Lemma wearable_status_unique userId :
  keeps e unique_credentials (wearable_status userId) (fun _ => True).
Proof. unfold wearable_status. keeps_walk. Qed.

End Preservation.

(** X4: a table with at most one Credential per user and provider keeps
    that property through every handler, whatever the request, the
    provider's answers and the database's rejections: the four
    authorization handlers insert a row only after a lookup for the pair
    found none, and the other handlers insert none. *)
Theorem handlers_keep_one_credential_per_pair (e : Env) (s : State) :
  unique_credentials s ->
  (forall q, unique_credentials (snd (whoop_demo_auth q e s)))
  /\ (forall q, unique_credentials (snd (apple_mock_auth q e s)))
  /\ (forall reqBody, unique_credentials (snd (apple_callback reqBody e s)))
  /\ (forall accessToken refreshToken expires_in user_id,
         unique_credentials
           (snd (WhoopStrategy.handleAuthentication accessToken refreshToken
                   expires_in user_id e s)))
  /\ (forall userId, unique_credentials (snd (sync userId e s)))
  /\ (forall reqBody, unique_credentials (snd (terra_webhook reqBody e s)))
  /\ (forall provider userId, unique_credentials (snd (disconnect provider userId e s)))
  /\ (forall userId, unique_credentials (snd (wearable_status userId e s))).
Proof.
  intros Hs. repeat split; intros.
  - exact (keeps_final e _ _ _ s (whoop_demo_auth_unique e _) Hs).
  - exact (keeps_final e _ _ _ s (apple_mock_auth_unique e _) Hs).
  - exact (keeps_final e _ _ _ s (apple_callback_unique e _) Hs).
  - exact (keeps_final e _ _ _ s (handleAuthentication_unique e _ _ _ _) Hs).
  - exact (keeps_final e _ _ _ s (sync_unique e _) Hs).
  - exact (keeps_final e _ _ _ s (terra_webhook_unique e _) Hs).
  - exact (keeps_final e _ _ _ s (disconnect_unique e _ _) Hs).
  - exact (keeps_final e _ _ _ s (wearable_status_unique e _) Hs).
Qed.

Lemma handlers_keep_one_credential_per_pair_witness :
  unique_credentials
    (store_of [fresh_tracker_credential; AggregatorCredentials.aggregator_credential])
  /\ unique_credentials
       (snd (apple_mock_auth (Some "5") tracker_down
               (store_of [fresh_tracker_credential;
                          AggregatorCredentials.aggregator_credential])))
  /\ unique_credentials
       (snd (whoop_demo_auth (Some "6") tracker_down
               (store_of [fresh_tracker_credential;
                          AggregatorCredentials.aggregator_credential]))).
Proof.
  assert (H : unique_credentials
                (store_of [fresh_tracker_credential;
                           AggregatorCredentials.aggregator_credential])).
  { unfold unique_credentials. simpl. repeat constructor; simpl.
    - intros [E | []]. discriminate E.
    - intros []. }
  pose proof (handlers_keep_one_credential_per_pair tracker_down _ H) as [T1 [T2 _]].
  split; [exact H | split; [exact (T2 (Some "5")) | exact (T1 (Some "6"))]].
Defined.

End UniqueCredentials.

(* ================================================================== *)
(** ** The connection status and what a disconnect leaves behind *)

Module ConnectionStatus.

Import DatabaseStorage Routes Scenarios TokenTable.

Definition status_failed : Response.t :=
  Response.mk 500 (JsonError "Failed to check connection status").

Definition found (t : option WearableToken.t) : bool :=
  match t with Some _ => true | None => false end.

Definition last_update (t : option WearableToken.t) : option Z :=
  match t with Some t => WearableToken.updatedAt t | None => None end.

(** The answer for the two rows found, when the clock reads [at_]. *)
Definition report (at_ : Z) (whoopToken appleToken : option WearableToken.t) : Response.t :=
  Response.json
    (JsonStatus
       (ProviderStatus.mk (found whoopToken) (last_update whoopToken)
                          (match whoopToken with Some w => is_stale at_ w | None => false end))
       (ProviderStatus.mk (found appleToken) (last_update appleToken) false)).

Ltac run_wearable_status Hparse Hn :=
  apply Z.eqb_neq in Hn;
  unfold wearable_status, try_catch, bind, settle, try_catch, bind,
    DatabaseStorage.getWearableToken, DatabaseStorage.statement, await, ret, now, report,
    is_stale;
  rewrite Hparse; simpl; rewrite Hn; simpl.

Lemma wearable_status_runs e s userId n :
  parseInt userId = Some n -> n <> 0 ->
  fst (wearable_status userId e s)
  = (if db_rejects e (db_statements s) || db_rejects e (S (db_statements s))
     then Ok status_failed
     else Ok (report (Date_now e (clock_reads s))
                     (find (token_matches n "whoop") (wearableTokens s))
                     (find (token_matches n "apple_health") (wearableTokens s)))).
Proof.
  intros Hparse Hn. run_wearable_status Hparse Hn.
  destruct (db_rejects e (db_statements s)); simpl;
    destruct (db_rejects e (S (db_statements s))); simpl; try reflexivity.
  destruct (find (token_matches n "whoop") (wearableTokens s)) as [w | ]; simpl;
    [destruct (WearableToken.expiresAt w) as [expiresAt | ]; simpl | ]; reflexivity.
Qed.



(** The entry of the status answer for [provider]. *)
Definition status_of (provider : string) (whoop apple_health : ProviderStatus.t)
  : ProviderStatus.t :=
  if String.eqb provider "whoop" then whoop else apple_health.

Lemma known_provider_cases provider :
  known_provider provider = true -> provider = "whoop" \/ provider = "apple_health".
Proof.
  unfold known_provider. intros H. apply orb_prop in H.
  destruct H as [H | H]; apply String.eqb_eq in H; auto.
Qed.

(** X6: after an accepted disconnect of a provider for a user, the stored
    biometric records are all still there and so is every Credential of
    another user or provider; a following sync for that user answers with
    no outcome for the provider, and a following status request reports
    it as not connected. *)
Theorem disconnected_provider_is_gone (e : Env) (s : State) (provider userId : string) (n : Z) :
  parseInt userId = Some n -> n <> 0 -> known_provider provider = true ->
  db_rejects e (db_statements s) = false ->
  let after := snd (disconnect provider userId e s) in
  wearableData after = wearableData s
  /\ (forall userId' provider',
         (userId', provider') <> (n, provider) ->
         find (token_matches userId' provider') (wearableTokens after)
         = find (token_matches userId' provider') (wearableTokens s))
  /\ (forall resp rs,
         fst (sync userId e after) = Ok resp -> Response.body resp = JsonSync rs ->
         ~ In provider (map SyncOutcome.provider rs))
  /\ (forall resp whoop apple_health,
         fst (wearable_status userId e after) = Ok resp ->
         Response.body resp = JsonStatus whoop apple_health ->
         ProviderStatus.connected (status_of provider whoop apple_health) = false).
Proof.
  intros Hparse Hn Hknown Hdb after. subst after.
  rewrite (Disconnect.disconnect_accepted e s provider userId n Hparse Hn Hknown Hdb).
  cbn [snd]. state_simpl.
  pose proof (Disconnect.find_filter_unmatched n provider (wearableTokens s)) as Hgone.
  split; [reflexivity | ]. split; [ | split].
  - intros userId' provider' Hne. apply (find_filter_frame n provider), Hne.
  - intros resp rs Hrun Hbody.
    set (after := set_wearableTokens (filter (Disconnect.unmatched n provider))
                                     (count_statement s)) in *.
    pose proof (wp_result e _ _ _ after (SyncOutcomes.sync_runs e after userId n Hparse Hn))
      as H.
    rewrite Hrun in H. destruct H as [[_ [rs' [Hrs' Hproviders]]] | [-> _]];
      [ | discriminate Hbody].
    rewrite Hbody in Hrs'. injection Hrs' as <-. rewrite Hproviders.
    unfold SyncOutcomes.synced_providers. subst after. state_simpl.
    destruct (known_provider_cases provider Hknown) as [-> | ->].
    + rewrite Hgone. simpl.
      destruct (has_externalUserId _); simpl; [intros [E | []]; discriminate E | intros []].
    + rewrite Hgone. simpl. rewrite app_nil_r.
      destruct (find (token_matches n "whoop") _); simpl;
        [intros [E | []]; discriminate E | intros []].
  - intros resp whoop apple_health Hrun Hbody.
    set (after := set_wearableTokens (filter (Disconnect.unmatched n provider))
                                     (count_statement s)) in *.
    rewrite (wearable_status_runs e after userId n Hparse Hn) in Hrun.
    destruct (db_rejects e (db_statements after) || db_rejects e (S (db_statements after)));
      injection Hrun as <-; [discriminate Hbody | ].
    injection Hbody as <- <-. subst after. state_simpl.
    destruct (known_provider_cases provider Hknown) as [-> | ->];
      unfold status_of; simpl; rewrite Hgone; reflexivity.
Qed.

Lemma disconnected_provider_is_gone_witness :
  let after :=
    snd (disconnect "whoop" "5" tracker_down
           (store_of [fresh_tracker_credential; AggregatorCredentials.aggregator_credential])) in
  wearableData after
  = wearableData
      (store_of [fresh_tracker_credential; AggregatorCredentials.aggregator_credential])
  /\ (forall userId' provider',
         (userId', provider') <> (5, "whoop") ->
         find (token_matches userId' provider') (wearableTokens after)
         = find (token_matches userId' provider')
                (wearableTokens
                   (store_of [fresh_tracker_credential;
                              AggregatorCredentials.aggregator_credential])))
  /\ (forall resp rs,
         fst (sync "5" tracker_down after) = Ok resp -> Response.body resp = JsonSync rs ->
         ~ In "whoop" (map SyncOutcome.provider rs))
  /\ (forall resp whoop apple_health,
         fst (wearable_status "5" tracker_down after) = Ok resp ->
         Response.body resp = JsonStatus whoop apple_health ->
         ProviderStatus.connected (status_of "whoop" whoop apple_health) = false).
Proof.
  refine (disconnected_provider_is_gone tracker_down
            (store_of [fresh_tracker_credential; AggregatorCredentials.aggregator_credential])
            "whoop" "5" 5 _ _ _ _).
  - reflexivity.
  - discriminate.
  - reflexivity.
  - reflexivity.
Defined.

End ConnectionStatus.

(* ================================================================== *)
(** ** The paths of the sync handler *)

Module SyncPaths.

Import DatabaseStorage Routes Scenarios SimulatedClaims SyncOutcomes SyncRuns Fallback TokenTable.

(** The three requests of one fetch, in the order they are started. *)
Definition fetches (accessToken : string) : list ProviderCall :=
  [CallRecovery accessToken; CallSleep accessToken; CallCycle accessToken].

(** The refresh request the tracker block makes for a stale Credential. *)
Definition refreshes (at_ : Z) (w : WearableToken.t) : list ProviderCall :=
  if is_stale at_ w then [CallRefresh (WearableToken.refreshToken w)] else [].

Definition calls_are (cs : list ProviderCall) (s : State) : Prop := provider_calls s = cs.

Section Calls.

Context (e : Env).

Lemma settle_call_logged {A : Type} c (answer : Env -> Result A) cs X :
  triple e (calls_are cs) (settle (call_provider c answer))
         (fun _ => calls_are (cs ++ [c])%list) X.
Proof.
  intros s Hs. apply wp_settle, wp_call_provider.
  destruct (answer e); unfold calls_are; simpl; rewrite Hs; reflexivity.
Qed.

Lemma fetch_real_calls userId accessToken cs :
  triple e (calls_are cs) (fetch_real userId accessToken)
         (fun _ => calls_are (cs ++ fetches accessToken)%list) (fun _ _ => False).
Proof.
  assert (E : (cs ++ fetches accessToken
               = ((cs ++ [CallRecovery accessToken]) ++ [CallSleep accessToken])
                   ++ [CallCycle accessToken])%list).
  { unfold fetches. rewrite <- !app_assoc. reflexivity. }
  rewrite E. unfold fetch_real.
  eapply triple_try_catch with (X1 := fun _ => calls_are _).
  - eapply triple_bind; [apply settle_call_logged | intros p1].
    eapply triple_bind; [apply settle_call_logged | intros p2].
    eapply triple_bind; [apply settle_call_logged | intros p3].
    eapply triple_of_keeps with (V := fun _ => True);
      [keeps_walk | intros ? ? H _; exact H | intros ? ? H; exact H].
  - intros msg s Hs. apply wp_ret. exact Hs.
Qed.

Lemma after_fetch_calls userId cs :
  keeps e (calls_are cs)
        (rs <- get_results ;;
         if negb useRealWhoop || no_whoop_success rs then demo_fallback userId else ret tt)
        (fun _ => True).
Proof. unfold demo_fallback. keeps_walk. Qed.

Lemma sync_tail_calls userId cs :
  keeps e (calls_are cs)
        (appleToken <- getWearableToken userId "apple_health" ;;
         (if has_externalUserId appleToken then sync_apple userId else ret tt) ;;
         rs <- get_results ;;
         ret (Response.json (JsonSync rs)))
        (fun _ => True).
Proof. unfold sync_apple. keeps_walk. Qed.

Lemma refresh_if_stale_calls userId w accessToken s0 :
  access_token_in_use e (Date_now e (clock_reads s0)) w = Ok accessToken ->
  (is_stale (Date_now e (clock_reads s0)) w = true ->
   db_rejects e (db_statements s0) = false) ->
  wp e (refresh_if_stale userId w)
     (fun tok s' =>
        tok = accessToken
        /\ calls_are (provider_calls s0 ++ refreshes (Date_now e (clock_reads s0)) w)%list s')
     (fun _ _ => False) s0.
Proof.
  unfold access_token_in_use, refreshes, is_stale, refresh_if_stale, calls_are.
  destruct (WearableToken.expiresAt w) as [expiresAt | ].
  - intros H Hdb. repeat wp_step. state_simpl.
    destruct (expiresAt <? Date_now e (clock_reads s0)).
    + repeat wp_step.
      destruct (refreshAccessToken e (WearableToken.refreshToken w)) as [refreshed | msg];
        [ | discriminate H].
      repeat wp_step. state_simpl. rewrite (Hdb eq_refl). state_simpl. repeat wp_step.
      split; [congruence | reflexivity].
    + repeat wp_step. split; [congruence | symmetry; apply app_nil_r].
  - intros H _. repeat wp_step. split; [congruence | symmetry; apply app_nil_r].
Qed.

Lemma sync_whoop_calls userId w accessToken s0 :
  access_token_in_use e (Date_now e (clock_reads s0)) w = Ok accessToken ->
  (is_stale (Date_now e (clock_reads s0)) w = true ->
   db_rejects e (db_statements s0) = false) ->
  wp e (sync_whoop userId w)
     (fun _ =>
        calls_are ((provider_calls s0 ++ refreshes (Date_now e (clock_reads s0)) w)
                   ++ fetches accessToken)%list)
     (fun _ _ => False) s0.
Proof.
  intros Htoken Hdb. unfold sync_whoop. wp_step.
  eapply wp_weaken with
    (X := fun _ => calls_are ((provider_calls s0 ++ refreshes (Date_now e (clock_reads s0)) w)
                              ++ fetches accessToken)%list);
    [ | intros ? ? H; exact H | intros msg s' H; apply wp_push_result; exact H].
  wp_step.
  eapply wp_weaken; [apply refresh_if_stale_calls; eassumption | | contradiction].
  intros tok s1 [-> Hs1]. unfold useRealWhoop. wp_step.
  eapply wp_weaken; [apply fetch_real_calls, Hs1 | | contradiction].
  intros ? s2 Hs2.
  eapply wp_weaken; [apply after_fetch_calls, Hs2 | | intros ? ? H; exact H].
  intros ? s3 [Hs3 _]. exact Hs3.
Qed.

End Calls.

Section Accepted.

Context (e : Env) (Hdb : forall k, db_rejects e k = false).
Context (n : Z) (w : WearableToken.t) (accessToken : string).

(** What the staleness test and the refresh leave behind. *)
Definition after_refresh (s0 s' : State) : Prop :=
  results s' = results s0
  /\ wearableData s' = wearableData s0
  /\ find (token_matches n "apple_health") (wearableTokens s')
     = find (token_matches n "apple_health") (wearableTokens s0)
  /\ (exists w1, find (token_matches n "whoop") (wearableTokens s') = Some w1)
  /\ (clock_reads s0 <= clock_reads s')%nat
  /\ (is_stale (Date_now e (clock_reads s0)) w = false ->
      wearableTokens s' = wearableTokens s0).

Lemma refresh_if_stale_accepted s0 :
  find (token_matches n "whoop") (wearableTokens s0) = Some w ->
  access_token_in_use e (Date_now e (clock_reads s0)) w = Ok accessToken ->
  wp e (refresh_if_stale n w)
     (fun tok s' => tok = accessToken /\ after_refresh s0 s') (fun _ _ => False) s0.
Proof.
  unfold after_refresh, access_token_in_use, is_stale, refresh_if_stale. intros Hfound.
  destruct (WearableToken.expiresAt w) as [expiresAt | ].
  - intros H. repeat wp_step. state_simpl.
    destruct (expiresAt <? Date_now e (clock_reads s0)).
    + repeat wp_step.
      destruct (refreshAccessToken e (WearableToken.refreshToken w)) as [refreshed | msg];
        [ | discriminate H].
      repeat wp_step. rewrite Hdb. state_simpl. repeat wp_step. state_simpl.
      split; [congruence | ]. split; [reflexivity | ]. split; [reflexivity | ].
      split; [apply find_update_rows_other; discriminate | ].
      split; [rewrite Refresh.find_update_rows_same, Hfound; eexists; reflexivity | ].
      split; [lia | intros E; discriminate E].
    + repeat wp_step. split; [congruence | ].
      repeat split; solve [reflexivity | eexists; exact Hfound | simpl; lia].
  - intros H. repeat wp_step. split; [congruence | ].
    repeat split; solve [reflexivity | eexists; exact Hfound | simpl; lia].
Qed.

(** The tracker's row of [wearable_data] built from what the transformer
    returned. *)
Definition provider_row (td : Transformed.t) (row : WearableData.t) : Prop :=
  exists id at_, row = inserted_row id (insert_of_transformed n td) at_.

Lemma fetch_real_stores td s0 :
  fetch_and_transform e accessToken = Ok td ->
  wp e (fetch_real n accessToken)
     (fun _ s' =>
        exists row,
          results s' = (results s0 ++ [SyncOutcome.success "whoop" (FromProvider td)])%list
          /\ wearableData s' = (wearableData s0 ++ [row])%list
          /\ provider_row td row
          /\ wearableTokens s' = wearableTokens s0)
     (fun _ _ => False) s0.
Proof.
  unfold fetch_and_transform, fetch_real. intros H.
  repeat wp_step.
  destruct (getRecoveryData e accessToken 1) as [recoveryData | m1]; [ | discriminate H].
  repeat wp_step.
  destruct (getSleepData e accessToken 1) as [sleepData | m2]; [ | discriminate H].
  repeat wp_step.
  destruct (getCycleData e accessToken 1) as [cycleData | m3]; [ | discriminate H].
  repeat wp_step. rewrite H. repeat wp_step. rewrite Hdb. state_simpl. repeat wp_step.
  eexists. split; [reflexivity | ]. split; [reflexivity | ].
  split; [do 2 eexists; reflexivity | reflexivity].
Qed.

Lemma sync_whoop_stores td s0 :
  results s0 = [] ->
  find (token_matches n "whoop") (wearableTokens s0) = Some w ->
  access_token_in_use e (Date_now e (clock_reads s0)) w = Ok accessToken ->
  fetch_and_transform e accessToken = Ok td ->
  wp e (sync_whoop n w)
     (fun _ s' =>
        exists row,
          results s' = [SyncOutcome.success "whoop" (FromProvider td)]
          /\ wearableData s' = (wearableData s0 ++ [row])%list
          /\ provider_row td row
          /\ find (token_matches n "apple_health") (wearableTokens s')
             = find (token_matches n "apple_health") (wearableTokens s0)
          /\ (is_stale (Date_now e (clock_reads s0)) w = false ->
              wearableTokens s' = wearableTokens s0))
     (fun _ _ => False) s0.
Proof.
  intros Hnone Hfound Htoken Hfetch. unfold sync_whoop. wp_step.
  eapply wp_weaken with (X := fun _ _ => False); [ | intros ? ? H; exact H | contradiction].
  wp_step.
  eapply wp_weaken; [apply refresh_if_stale_accepted; eassumption | | contradiction].
  intros tok s1 [-> [Hrs1 [Hrows1 [Happle1 [_ [_ Htokens1]]]]]]. unfold useRealWhoop. wp_step.
  eapply wp_weaken; [apply (fetch_real_stores td), Hfetch | | contradiction].
  intros ? s2 [row [Hrs2 [Hrows2 [Hrow Htokens2]]]]. repeat wp_step.
  rewrite Hrs2, Hrs1, Hnone. simpl. wp_step.
  exists row. rewrite Hrs2, Hrs1, Hnone, Hrows2, Hrows1, Htokens2.
  repeat split; solve [reflexivity | exact Hrow | exact Happle1 | exact Htokens1].
Qed.

(** The state after a fetch that failed: the three requests were made and
    nothing else happened. *)
Definition fetched (s0 : State) : State :=
  log_call (CallCycle accessToken)
    (log_call (CallSleep accessToken) (log_call (CallRecovery accessToken) s0)).

Lemma fetch_real_failed msg s0 :
  fetch_and_transform e accessToken = Throw msg ->
  fetch_real n accessToken e s0 = (Ok tt, fetched s0).
Proof.
  unfold fetch_and_transform, fetch_real, fetched, try_catch, bind, settle, try_catch, bind,
    call_provider, await, lift, ret.
  intros H.
  destruct (getRecoveryData e accessToken 1) as [recoveryData | m1]; simpl;
    destruct (getSleepData e accessToken 1) as [sleepData | m2]; simpl;
    destruct (getCycleData e accessToken 1) as [cycleData | m3]; simpl; try reflexivity.
  rewrite H. reflexivity.
Qed.

(** The tracker Credential carries, as [updatedAt], a reading of the clock
    taken at position [from] or later. *)
Definition stamped (from : nat) (s : State) : Prop :=
  exists w' i,
    find (token_matches n "whoop") (wearableTokens s) = Some w'
    /\ WearableToken.updatedAt w' = Some (Date_now e i)
    /\ (from <= i)%nat.

Lemma demo_fallback_stamps s0 :
  (exists w1, find (token_matches n "whoop") (wearableTokens s0) = Some w1) ->
  wp e (demo_fallback n)
     (fun _ s' => stamped (clock_reads s0) s') (fun _ _ => False) s0.
Proof.
  intros [w1 Hw1]. unfold demo_fallback. repeat wp_step. rewrite Hdb. state_simpl.
  repeat wp_step. rewrite Hdb. state_simpl. repeat wp_step.
  unfold stamped. state_simpl. rewrite Refresh.find_update_rows_same, Hw1. simpl.
  do 2 eexists. split; [reflexivity | ]. simpl. split; [reflexivity | lia].
Qed.

Lemma sync_whoop_stamps msg s0 :
  results s0 = [] ->
  find (token_matches n "whoop") (wearableTokens s0) = Some w ->
  access_token_in_use e (Date_now e (clock_reads s0)) w = Ok accessToken ->
  fetch_and_transform e accessToken = Throw msg ->
  wp e (sync_whoop n w) (fun _ s' => stamped (clock_reads s0) s') (fun _ _ => False) s0.
Proof.
  intros Hnone Hfound Htoken Hfetch. unfold sync_whoop. wp_step.
  eapply wp_weaken with (X := fun _ _ => False); [ | intros ? ? H; exact H | contradiction].
  wp_step.
  eapply wp_weaken; [apply refresh_if_stale_accepted; eassumption | | contradiction].
  intros tok s1 [-> [Hrs1 [_ [_ [Hw1 [Hclock _]]]]]]. unfold useRealWhoop. wp_step.
  unfold wp at 1. rewrite (fetch_real_failed msg s1 Hfetch).
  repeat wp_step. unfold fetched. state_simpl. rewrite Hrs1, Hnone. simpl.
  eapply wp_weaken; [apply demo_fallback_stamps; exact Hw1 | | contradiction].
  intros ? s2 [w' [i [Hw' [Hat Hi]]]]. exists w', i.
  split; [exact Hw' | split; [exact Hat | ]]. simpl in Hi. lia.
Qed.

End Accepted.

(** X7: when the sync handler finds a tracker Credential and the access
    token in use is the stored one, or the one a successful refresh
    returned and the database accepted the update of, the requests the
    handler makes to the tracker's API are, in this order: the refresh,
    only when the Credential is stale, and then the three fetches, each
    once and with the token in use; whatever they answer and whatever the
    database does afterwards, no other request is made. *)
Theorem sync_fetches_with_token_in_use (e : Env) (s : State) (userId : string) (n : Z)
        (w : WearableToken.t) (accessToken : string) :
  parseInt userId = Some n -> n <> 0 ->
  db_rejects e (db_statements s) = false ->
  find (token_matches n "whoop") (wearableTokens s) = Some w ->
  access_token_in_use e (Date_now e (clock_reads s)) w = Ok accessToken ->
  (is_stale (Date_now e (clock_reads s)) w = true ->
   db_rejects e (S (db_statements s)) = false) ->
  provider_calls (snd (sync userId e s))
  = ((provider_calls s ++ refreshes (Date_now e (clock_reads s)) w)
     ++ fetches accessToken)%list.
Proof.
  intros Hparse Hn Hlookup Hfound Htoken Hupdate.
  set (cs := ((provider_calls s ++ refreshes (Date_now e (clock_reads s)) w)
              ++ fetches accessToken)%list).
  assert (H : wp e (sync userId) (fun _ => calls_are cs) (fun _ => calls_are cs) s).
  { unfold sync. rewrite Hparse. apply Z.eqb_neq in Hn. simpl. rewrite Hn. simpl.
    wp_step.
    eapply wp_weaken with (Q := fun _ => calls_are cs) (X := fun _ => calls_are cs);
      [ | trivial | intros msg s' H; apply wp_ret; exact H].
    repeat wp_step. state_simpl. rewrite Hlookup, Hfound. state_simpl. wp_step.
    eapply wp_weaken; [apply (sync_whoop_calls e n w accessToken) | | contradiction].
    - exact Htoken.
    - exact Hupdate.
    - intros ? s1 Hs1.
      eapply wp_weaken; [apply (sync_tail_calls e n cs), Hs1 | | trivial].
      intros ? s2 [Hs2 _]. exact Hs2. }
  apply wp_result in H. destruct (fst (sync userId e s)); exact H.
Qed.

Lemma sync_fetches_with_token_in_use_witness :
  provider_calls (snd (sync "5" Refresh.refresh_accepted (store_of [stale_tracker_credential])))
  = ((provider_calls (store_of [stale_tracker_credential])
      ++ refreshes (Date_now Refresh.refresh_accepted
                             (clock_reads (store_of [stale_tracker_credential])))
                   stale_tracker_credential)
     ++ fetches "access-2")%list.
Proof.
  refine (sync_fetches_with_token_in_use Refresh.refresh_accepted
            (store_of [stale_tracker_credential]) "5" 5 stale_tracker_credential "access-2"
            _ _ _ _ _ _).
  - reflexivity.
  - discriminate.
  - reflexivity.
  - reflexivity.
  - reflexivity.
  - reflexivity.
Defined.

(** X8: for a user without tracker Credential and without aggregator
    Credential carrying an external user id, the sync handler answers 200
    with an empty list when the database accepts its two lookups; it
    stores nothing, changes no Credential, makes no request to a provider
    and draws no random number. *)
Theorem sync_without_credentials (e : Env) (s : State) (userId : string) (n : Z) :
  parseInt userId = Some n -> n <> 0 ->
  db_rejects e (db_statements s) = false ->
  db_rejects e (S (db_statements s)) = false ->
  find (token_matches n "whoop") (wearableTokens s) = None ->
  has_externalUserId (find (token_matches n "apple_health") (wearableTokens s)) = false ->
  fst (sync userId e s) = Ok (Response.json (JsonSync []))
  /\ wearableTokens (snd (sync userId e s)) = wearableTokens s
  /\ wearableData (snd (sync userId e s)) = wearableData s
  /\ provider_calls (snd (sync userId e s)) = provider_calls s
  /\ random_draws (snd (sync userId e s)) = random_draws s.
Proof.
  intros Hparse Hn Hdb1 Hdb2 Hwhoop Happle.
  assert (H : wp e (sync userId)
                 (fun resp s' =>
                    resp = Response.json (JsonSync [])
                    /\ wearableTokens s' = wearableTokens s
                    /\ wearableData s' = wearableData s
                    /\ provider_calls s' = provider_calls s
                    /\ random_draws s' = random_draws s)
                 (fun _ _ => False) s).
  { unfold sync. rewrite Hparse. apply Z.eqb_neq in Hn. simpl. rewrite Hn. simpl.
    repeat wp_step. state_simpl. rewrite Hdb1, Hwhoop. state_simpl.
    repeat wp_step. state_simpl. rewrite Hdb2, Happle. state_simpl.
    repeat wp_step. state_simpl. repeat split. }
  apply wp_result in H. destruct (fst (sync userId e s)) as [resp | msg]; [ | contradiction].
  destruct H as [-> H]. split; [reflexivity | exact H].
Qed.

Lemma sync_without_credentials_witness :
  fst (sync "6" tracker_down (store_of [fresh_tracker_credential]))
  = Ok (Response.json (JsonSync []))
  /\ wearableTokens (snd (sync "6" tracker_down (store_of [fresh_tracker_credential])))
     = wearableTokens (store_of [fresh_tracker_credential])
  /\ wearableData (snd (sync "6" tracker_down (store_of [fresh_tracker_credential])))
     = wearableData (store_of [fresh_tracker_credential])
  /\ provider_calls (snd (sync "6" tracker_down (store_of [fresh_tracker_credential])))
     = provider_calls (store_of [fresh_tracker_credential])
  /\ random_draws (snd (sync "6" tracker_down (store_of [fresh_tracker_credential])))
     = random_draws (store_of [fresh_tracker_credential]).
Proof.
  refine (sync_without_credentials tracker_down (store_of [fresh_tracker_credential]) "6" 6
            _ _ _ _ _ _).
  - reflexivity.
  - discriminate.
  - reflexivity.
  - reflexivity.
  - reflexivity.
  - reflexivity.
Defined.

(** X9: when the sync handler finds a tracker Credential, the access token
    in use is the stored one or a successfully refreshed one, the three
    fetches and the transformer succeed and the database accepts every
    statement, the handler answers 200 with the tracker outcome first, of
    status success and carrying what the transformer returned; the first
    row it stores is built from that record for the user, and every other
    row it stores is the aggregator's, so nothing simulated is stored for
    the tracker.  When the Credential was not stale the credential table
    is left exactly as it was: its [updatedAt] is not touched. *)
Theorem sync_stores_provider_data (e : Env) (s : State) (userId : string) (n : Z)
        (w : WearableToken.t) (accessToken : string) (td : Transformed.t) :
  parseInt userId = Some n -> n <> 0 ->
  (forall k, db_rejects e k = false) ->
  find (token_matches n "whoop") (wearableTokens s) = Some w ->
  access_token_in_use e (Date_now e (clock_reads s)) w = Ok accessToken ->
  fetch_and_transform e accessToken = Ok td ->
  exists rest row more,
    fst (sync userId e s)
    = Ok (Response.json
            (JsonSync (SyncOutcome.success "whoop" (FromProvider td) :: rest)))
    /\ wearableData (snd (sync userId e s)) = (wearableData s ++ row :: more)%list
    /\ provider_row n td row
    /\ Forall (fun r => WearableData.deviceType r = "apple_watch") more
    /\ aggregator_outcomes (find (token_matches n "apple_health") (wearableTokens s)) rest
    /\ (is_stale (Date_now e (clock_reads s)) w = false ->
        wearableTokens (snd (sync userId e s)) = wearableTokens s).
Proof.
  intros Hparse Hn Hdb Hfound Htoken Hfetch.
  assert (H : wp e (sync userId)
                 (fun resp s' =>
                    exists rest row more,
                      resp = Response.json
                               (JsonSync (SyncOutcome.success "whoop" (FromProvider td) :: rest))
                      /\ wearableData s' = (wearableData s ++ row :: more)%list
                      /\ provider_row n td row
                      /\ Forall (fun r => WearableData.deviceType r = "apple_watch") more
                      /\ aggregator_outcomes
                           (find (token_matches n "apple_health") (wearableTokens s)) rest
                      /\ (is_stale (Date_now e (clock_reads s)) w = false ->
                          wearableTokens s' = wearableTokens s))
                 (fun _ _ => False) s).
  { unfold sync. rewrite Hparse. apply Z.eqb_neq in Hn. simpl. rewrite Hn. simpl.
    repeat wp_step. rewrite Hdb. state_simpl. rewrite Hfound. wp_step.
    eapply wp_weaken;
      [apply (sync_whoop_stores e Hdb n w accessToken td);
       [reflexivity | exact Hfound | exact Htoken | exact Hfetch] | | contradiction].
    intros ? s1 [row [Hrs1 [Hrows1 [Hrow [Happle1 Htokens1]]]]].
    eapply wp_weaken; [apply (sync_tail_accepted e Hdb) | | contradiction].
    intros resp s2 [rest [-> [Hrest [[more [Hrows2 Hmore]] [Htokens2 _]]]]].
    exists rest, row, more. rewrite Hrs1, Hrows2, Hrows1, Htokens2. state_simpl.
    rewrite <- app_assoc. rewrite Happle1 in Hrest.
    repeat split; solve [reflexivity | exact Hrow | exact Hmore | exact Hrest | exact Htokens1]. }
  apply wp_result in H. destruct (fst (sync userId e s)) as [resp | m]; [ | contradiction].
  destruct H as [rest [row [more [-> H]]]].
  exists rest, row, more. split; [reflexivity | exact H].
Qed.

Lemma sync_stores_provider_data_witness :
  (exists rest row more,
      fst (sync "5" tracker_reports (store_of [fresh_tracker_credential]))
      = Ok (Response.json
              (JsonSync (SyncOutcome.success "whoop"
                           (FromProvider
                              (Transformed.mk "whoop" (Some 82) (Some "7h 10m")
                                              (Some (mkDecimal 10005 3)) (Some 48) (Some 61)))
                         :: rest)))
      /\ wearableData (snd (sync "5" tracker_reports (store_of [fresh_tracker_credential])))
         = (wearableData (store_of [fresh_tracker_credential]) ++ row :: more)%list
      /\ provider_row 5 (Transformed.mk "whoop" (Some 82) (Some "7h 10m")
                                        (Some (mkDecimal 10005 3)) (Some 48) (Some 61)) row
      /\ Forall (fun r => WearableData.deviceType r = "apple_watch") more
      /\ aggregator_outcomes
           (find (token_matches 5 "apple_health")
                 (wearableTokens (store_of [fresh_tracker_credential]))) rest
      /\ (is_stale (Date_now tracker_reports
                             (clock_reads (store_of [fresh_tracker_credential])))
                   fresh_tracker_credential = false ->
          wearableTokens (snd (sync "5" tracker_reports (store_of [fresh_tracker_credential])))
          = wearableTokens (store_of [fresh_tracker_credential])))
  /\ map WearableData.strainLevel
         (wearableData (snd (sync "5" tracker_reports (store_of [fresh_tracker_credential]))))
     = [Some "10.005"].
Proof.
  split; [ | reflexivity].
  refine (sync_stores_provider_data tracker_reports (store_of [fresh_tracker_credential])
            "5" 5 fresh_tracker_credential "access-1"
            (Transformed.mk "whoop" (Some 82) (Some "7h 10m")
                            (Some (mkDecimal 10005 3)) (Some 48) (Some 61)) _ _ _ _ _ _).
  - reflexivity.
  - discriminate.
  - reflexivity.
  - reflexivity.
  - reflexivity.
  - reflexivity.
Defined.

(** X10: when the handler falls back to the simulator (the fetch or the
    transformer fails, with the access token in use and a database that
    accepts every statement), the tracker Credential it leaves carries as
    [updatedAt] a reading of the clock taken during the request, and a
    following status request reports that time as [lastSync] of the
    tracker. *)
Theorem fallback_stamps_the_credential (e : Env) (s : State) (userId : string) (n : Z)
        (w : WearableToken.t) (accessToken msg : string) :
  parseInt userId = Some n -> n <> 0 ->
  (forall k, db_rejects e k = false) ->
  find (token_matches n "whoop") (wearableTokens s) = Some w ->
  access_token_in_use e (Date_now e (clock_reads s)) w = Ok accessToken ->
  fetch_and_transform e accessToken = Throw msg ->
  exists w' i,
    find (token_matches n "whoop") (wearableTokens (snd (sync userId e s))) = Some w'
    /\ WearableToken.updatedAt w' = Some (Date_now e i)
    /\ (clock_reads s <= i)%nat
    /\ (forall resp whoop apple_health,
           fst (wearable_status userId e (snd (sync userId e s))) = Ok resp ->
           Response.body resp = JsonStatus whoop apple_health ->
           ProviderStatus.lastSync whoop = Some (Date_now e i)).
Proof.
  intros Hparse Hn Hdb Hfound Htoken Hfetch.
  assert (H : wp e (sync userId) (fun _ s' => stamped e n (clock_reads s) s')
                 (fun _ _ => False) s).
  { unfold sync. rewrite Hparse. pose proof Hn as Hn'. apply Z.eqb_neq in Hn'.
    simpl. rewrite Hn'. simpl.
    repeat wp_step. rewrite Hdb. state_simpl. rewrite Hfound. wp_step.
    eapply wp_weaken;
      [apply (sync_whoop_stamps e Hdb n w accessToken msg);
       [reflexivity | exact Hfound | exact Htoken | exact Hfetch] | | contradiction].
    intros ? s1 Hs1.
    eapply wp_weaken; [apply (sync_tail_accepted e Hdb) | | contradiction].
    intros resp s2 [rest [_ [_ [_ [Htokens2 _]]]]].
    unfold stamped in *. rewrite Htokens2. exact Hs1. }
  apply wp_result in H.
  assert (H' : stamped e n (clock_reads s) (snd (sync userId e s))).
  { destruct (fst (sync userId e s)); [exact H | contradiction]. }
  destruct H' as [w' [i [Hw' [Hat Hi]]]]. exists w', i.
  split; [exact Hw' | split; [exact Hat | split; [exact Hi | ]]].
  intros resp whoop apple_health Hrun Hbody.
  rewrite (ConnectionStatus.wearable_status_runs e (snd (sync userId e s)) userId n Hparse Hn),
    !Hdb in Hrun. simpl in Hrun. injection Hrun as <-.
  injection Hbody as <- _. simpl. rewrite Hw'. exact Hat.
Qed.

Lemma fallback_stamps_the_credential_witness :
  exists w' i,
    find (token_matches 5 "whoop")
         (wearableTokens (snd (sync "5" tracker_down (store_of [fresh_tracker_credential]))))
    = Some w'
    /\ WearableToken.updatedAt w' = Some (Date_now tracker_down i)
    /\ (clock_reads (store_of [fresh_tracker_credential]) <= i)%nat
    /\ (forall resp whoop apple_health,
           fst (wearable_status "5" tracker_down
                  (snd (sync "5" tracker_down (store_of [fresh_tracker_credential]))))
           = Ok resp ->
           Response.body resp = JsonStatus whoop apple_health ->
           ProviderStatus.lastSync whoop = Some (Date_now tracker_down i)).
Proof.
  refine (fallback_stamps_the_credential tracker_down (store_of [fresh_tracker_credential])
            "5" 5 fresh_tracker_credential "access-1" "WHOOP API error: 503" _ _ _ _ _ _).
  - reflexivity.
  - discriminate.
  - reflexivity.
  - reflexivity.
  - reflexivity.
  - reflexivity.
Defined.

End SyncPaths.

(* ================================================================== *)
(** ** Deliveries of the aggregator webhook *)

Module WebhookDeliveries.

Import DatabaseStorage Routes Scenarios Webhook.

(** The row a delivery stores when [rows] are the records held and the
    clock is read for the [i]-th time. *)
Definition delivered_row (e : Env) (credential : WearableToken.t) (td : Transformed.t)
           (rows : list WearableData.t) (i : nat) : WearableData.t :=
  inserted_row (Z.of_nat (length rows) + 1)
               (insert_of_transformed (WearableToken.userId credential) td)
               (Date_now e i).

Lemma terra_webhook_stores e s b user_id u credential td :
  is_health_event (WebhookBody.type b) = true ->
  WebhookBody.user b = Some user_id ->
  int4_param user_id = Ok (Some u) ->
  find (token_matches u "apple_health") (wearableTokens s) = Some credential ->
  transformed e b = Ok td ->
  db_rejects e (db_statements s) = false ->
  db_rejects e (S (db_statements s)) = false ->
  terra_webhook (Some b) e s
  = (Ok acknowledged,
     set_wearableData
       (fun rows => rows ++ [delivered_row e credential td (wearableData s) (clock_reads s)])%list
       (count_statement (tick_clock (count_statement s)))).
Proof.
  intros Hev Huser Hparam Hfound Htd Hdb1 Hdb2.
  unfold terra_webhook, terra_webhook_try, try_catch, bind at 1. rewrite Hev, Huser.
  unfold getWearableToken_any. rewrite Hparam.
  unfold getWearableToken, statement at 1. rewrite Hdb1. state_simpl. rewrite Hfound.
  unfold bind at 1, lift. unfold transformed in Htd. rewrite Htd.
  unfold bind at 1, createWearableData, bind at 1, now, statement. state_simpl.
  rewrite Hdb2. reflexivity.
Qed.

(** The row holds what the transformer returned, for the user of the
    Credential. *)
Definition delivered (credential : WearableToken.t) (td : Transformed.t)
           (row : WearableData.t) : Prop :=
  exists id at_,
    row = inserted_row id (insert_of_transformed (WearableToken.userId credential) td) at_.

(** X11: the webhook handler keeps no trace of the events it has
    processed.  When an event of a health category resolves to a
    Credential, the transformer accepts it and the database accepts the
    statements, delivering the same event twice is acknowledged twice and
    stores two rows, each with the transformer's measurements for the
    user of the Credential. *)
Theorem webhook_redelivery_stores_again (e : Env) (s : State) (b : WebhookBody.t)
        (user_id : jsval) (u : Z) (credential : WearableToken.t) (td : Transformed.t) :
  is_health_event (WebhookBody.type b) = true ->
  WebhookBody.user b = Some user_id ->
  int4_param user_id = Ok (Some u) ->
  find (token_matches u "apple_health") (wearableTokens s) = Some credential ->
  transformed e b = Ok td ->
  (forall k, db_rejects e k = false) ->
  let once := terra_webhook (Some b) e s in
  let twice := terra_webhook (Some b) e (snd once) in
  fst once = Ok acknowledged
  /\ fst twice = Ok acknowledged
  /\ exists first second,
       wearableData (snd twice) = (wearableData s ++ [first; second])%list
       /\ delivered credential td first
       /\ delivered credential td second.
Proof.
  intros Hev Huser Hparam Hfound Htd Hdb once twice.
  subst twice once.
  rewrite (terra_webhook_stores e s b user_id u credential td Hev Huser Hparam Hfound Htd
             (Hdb _) (Hdb _)).
  cbn [fst snd].
  set (after := set_wearableData _ _).
  rewrite (terra_webhook_stores e after b user_id u credential td Hev Huser Hparam Hfound Htd
             (Hdb _) (Hdb _)).
  subst after. cbn [fst snd]. state_simpl.
  split; [reflexivity | ]. split; [reflexivity | ].
  do 2 eexists. split; [rewrite <- app_assoc; reflexivity | ].
  split; do 2 eexists; reflexivity.
Qed.

(** The aggregator's transformer returns a record whose strain is 0.005;
    the database accepts every statement. *)
Definition aggregator_pushes_strain : Env :=
  mkEnv (clock_from 1700000000000)
        (fun _ => 1 # 2)
        (fun _ => false)
        (fun _ => Throw "WHOOP token refresh failed: invalid_grant")
        (fun _ _ => Throw "WHOOP API error: 503")
        (fun _ _ => Throw "WHOOP API error: 503")
        (fun _ _ => Throw "WHOOP API error: 503")
        (fun _ _ _ => Throw "unexpected payload")
        (fun _ _ _ => Ok (Transformed.mk "apple_watch" (Some 82) (Some "7h 10m")
                                         (Some (mkDecimal 5 3)) None None)).

Lemma webhook_redelivery_stores_again_witness :
  let once := terra_webhook (sleep_event (Some (JNum 5))) aggregator_pushes_strain
                (store_of [AggregatorCredentials.aggregator_credential]) in
  let twice := terra_webhook (sleep_event (Some (JNum 5))) aggregator_pushes_strain (snd once) in
  (fst once = Ok acknowledged
   /\ fst twice = Ok acknowledged
   /\ exists first second,
        wearableData (snd twice)
        = (wearableData (store_of [AggregatorCredentials.aggregator_credential])
           ++ [first; second])%list
        /\ delivered AggregatorCredentials.aggregator_credential
                     (Transformed.mk "apple_watch" (Some 82) (Some "7h 10m")
                                     (Some (mkDecimal 5 3)) None None)
                     first
        /\ delivered AggregatorCredentials.aggregator_credential
                     (Transformed.mk "apple_watch" (Some 82) (Some "7h 10m")
                                     (Some (mkDecimal 5 3)) None None)
                     second)
  /\ map WearableData.strainLevel (wearableData (snd twice)) = [Some "0.005"; Some "0.005"].
Proof.
  split; [ | reflexivity].
  refine (webhook_redelivery_stores_again aggregator_pushes_strain
            (store_of [AggregatorCredentials.aggregator_credential])
            (WebhookBody.mk (JStr "sleep") (Some (JNum 5)) "{}") (JNum 5) 5
            AggregatorCredentials.aggregator_credential
            (Transformed.mk "apple_watch" (Some 82) (Some "7h 10m")
                            (Some (mkDecimal 5 3)) None None)
            _ _ _ _ _ _); reflexivity.
Defined.

End WebhookDeliveries.

(* ================================================================== *)
(** ** Printing a user id and parsing it back *)

From Stdlib Require DecimalPos Sorted Permutation.

Module UserIdText.

Import Decimal.

(** The number the digits of [d] denote after the digits that gave [acc]. *)
Fixpoint uint_value (d : uint) (acc : Z) : Z :=
  match d with
  | Nil => acc
  | D0 d => uint_value d (acc * 10)
  | D1 d => uint_value d (acc * 10 + 1)
  | D2 d => uint_value d (acc * 10 + 2)
  | D3 d => uint_value d (acc * 10 + 3)
  | D4 d => uint_value d (acc * 10 + 4)
  | D5 d => uint_value d (acc * 10 + 5)
  | D6 d => uint_value d (acc * 10 + 6)
  | D7 d => uint_value d (acc * 10 + 7)
  | D8 d => uint_value d (acc * 10 + 8)
  | D9 d => uint_value d (acc * 10 + 9)
  end.

Lemma digits_prefix_printed d a :
  digits_prefix 10 (NilEmpty.string_of_uint d) (Some a) = Some (uint_value d a).
Proof.
  revert a. induction d; intros a; simpl; try (rewrite IHd; f_equal; f_equal; lia).
  reflexivity.
Qed.

Lemma of_uint_acc_value d acc : Z.pos (Pos.of_uint_acc d acc) = uint_value d (Z.pos acc).
Proof.
  revert acc. induction d; intros acc; cbn [Pos.of_uint_acc uint_value];
    try (rewrite IHd; f_equal; lia).
  reflexivity.
Qed.

Lemma of_uint_value d : Z.of_N (Pos.of_uint d) = uint_value d 0.
Proof.
  induction d; cbn [Pos.of_uint uint_value Z.of_N];
    try (rewrite of_uint_acc_value; reflexivity).
  - reflexivity.
  - exact IHd.
Qed.

Lemma to_uint_value p : uint_value (Pos.to_uint p) 0 = Z.pos p.
Proof. rewrite <- of_uint_value, DecimalPos.Unsigned.of_to. reflexivity. Qed.

Lemma parseInt_printed d :
  d <> Nil -> parseInt (NilEmpty.string_of_uint d) = Some (uint_value d 0).
Proof.
  intros Hd. destruct d as [ | d | d | d | d | d | d | d | d | d | d];
    [contradiction | | | | | | | | | | ];
    try (unfold parseInt; simpl; rewrite digits_prefix_printed;
         f_equal; destruct (uint_value d _); reflexivity).
  destruct d; unfold parseInt; simpl; try reflexivity;
    rewrite digits_prefix_printed; f_equal; destruct (uint_value d _); reflexivity.
Qed.

Lemma string_of_uint_printed d :
  d <> Nil -> NilZero.string_of_uint d = NilEmpty.string_of_uint d.
Proof. destruct d; [contradiction | | | | | | | | | | ]; reflexivity. Qed.

Lemma parseInt_negated s z :
  parseInt s = Some z ->
  (forall c rest, s = String c rest -> is_white_space c = false /\ c <> "-"%char /\ c <> "+"%char) ->
  parseInt (String "-" s) = Some (- z).
Proof.
  intros H Hfirst. unfold parseInt in *. simpl trimStart.
  destruct s as [ | c rest]; [discriminate H | ].
  destruct (Hfirst c rest eq_refl) as [Hws [Hminus Hplus]].
  simpl trimStart in H. rewrite Hws in H.
  assert (E : match String c rest with
              | String "-"%char rest0 => (-1, rest0)
              | String "+"%char rest0 => (1, rest0)
              | _ => (1, String c rest)
              end = (1, String c rest)).
  { destruct c as [[] [] [] [] [] [] [] []]; try reflexivity; contradiction. }
  rewrite E in H. clear E. revert H.
  match goal with
  | |- context [let '(_, _) := ?m in _] => destruct m as [radix s3]
  end.
  destruct (digits_prefix radix s3 None) as [v | ]; intros H; [ | discriminate H].
  injection H as <-. f_equal. destruct v; reflexivity.
Qed.

(** [parseInt(String(n))] is [n]. *)
Lemma parseInt_String_of_Z n : parseInt (String_of_Z n) = Some n.
Proof.
  unfold String_of_Z. destruct n as [ | p | p]; [reflexivity | | ].
  - simpl. rewrite string_of_uint_printed by apply DecimalPos.Unsigned.to_uint_nonnil.
    rewrite parseInt_printed by apply DecimalPos.Unsigned.to_uint_nonnil.
    rewrite to_uint_value. reflexivity.
  - simpl. rewrite string_of_uint_printed by apply DecimalPos.Unsigned.to_uint_nonnil.
    rewrite (parseInt_negated _ (Z.pos p)); [reflexivity | | ].
    + rewrite parseInt_printed by apply DecimalPos.Unsigned.to_uint_nonnil.
      rewrite to_uint_value. reflexivity.
    + intros c rest E. pose proof (DecimalPos.Unsigned.to_uint_nonnil p) as Hd.
      destruct (Pos.to_uint p); [contradiction | | | | | | | | | | ];
        simpl in E; injection E as <- _; repeat split; discriminate.
Qed.

End UserIdText.

(* ================================================================== *)
(** ** Authorization: what the handlers leave in the credential table *)

Module Authorization.

Import DatabaseStorage Routes Scenarios TokenTable UserIdText.

(** A handler that returns always, as a value and a final state. *)
Lemma wp_returns {A : Type} e (m : M A) (Q : A -> State -> Prop) s :
  wp e m Q (fun _ _ => False) s -> exists a, fst (m e s) = Ok a /\ Q a (snd (m e s)).
Proof.
  unfold wp. destruct (m e s) as [[a | msg] s']; [ | contradiction].
  intros H. exists a. split; [reflexivity | exact H].
Qed.

(** The table [rows] holds for the pair a Credential satisfying [P], and for
    every other pair what [rows0] holds. *)
Definition holds (userId : Z) (provider : string) (P : WearableToken.t -> Prop)
           (rows0 rows : list WearableToken.t) : Prop :=
  (exists c, find (token_matches userId provider) rows = Some c /\ P c)
  /\ (forall userId' provider',
         (userId', provider') <> (userId, provider) ->
         find (token_matches userId' provider') rows
         = find (token_matches userId' provider') rows0).

Lemma holds_created userId provider (P : WearableToken.t -> Prop) rows0 tok :
  find (token_matches userId provider) rows0 = None ->
  key tok = (userId, provider) -> P tok ->
  holds userId provider P rows0 (rows0 ++ [tok])%list.
Proof.
  intros Habsent Hkey HP. split.
  - exists tok. split; [ | exact HP].
    rewrite (SyncOutcomes.find_last _ _ tok Habsent).
    apply token_matches_key in Hkey. rewrite Hkey. reflexivity.
  - intros userId' provider' Hne. apply find_append_other. congruence.
Qed.

Lemma holds_updated userId provider (P : WearableToken.t -> Prop) rows0 updates old :
  find (token_matches userId provider) rows0 = Some old ->
  P (apply_updates updates old) ->
  holds userId provider P rows0 (update_rows userId provider updates rows0).
Proof.
  intros Hfound HP. split.
  - exists (apply_updates updates old). split; [ | exact HP].
    rewrite Refresh.find_update_rows_same, Hfound. reflexivity.
  - intros userId' provider' Hne. apply find_update_rows_frame, Hne.
Qed.

(** [-(2^53) < n < 2^53]: the integers a JavaScript number holds exactly. *)
Definition safe_integer (n : Z) : Prop := - 2 ^ 53 < n < 2 ^ 53.

(** *** The tracker's OAuth verify callback *)

(** The Credential [handleAuthentication] leaves. *)
Definition authenticated (accessToken refreshToken externalUserId : string) (expiresAt : Z)
           (c : WearableToken.t) : Prop :=
  WearableToken.accessToken c = accessToken
  /\ WearableToken.refreshToken c = Some refreshToken
  /\ WearableToken.externalUserId c = Some externalUserId
  /\ WearableToken.expiresAt c = Some expiresAt.

(** X12: whichever account the tracker reports (any [user_id] that is a
    number or a string), [handleAuthentication] stores the Credential for
    the user with id 1.  When the database accepts the lookup and the
    write, [done] receives the user object, and the tracker Credential of
    user 1 then carries the tokens received, the account id as text and an
    expiry [expires_in] seconds after the handler's reading of the clock;
    the Credentials of every other user or provider and the biometric
    records are as before. *)
Theorem authentication_is_stored_for_user_1 (e : Env) (s : State)
        (accessToken refreshToken : string) (expires_in : Z) (user_id : jsval)
        (externalUserId : string) :
  text_column user_id = Some externalUserId ->
  db_rejects e (db_statements s) = false ->
  db_rejects e (S (db_statements s)) = false ->
  let run := WhoopStrategy.handleAuthentication accessToken refreshToken expires_in user_id e s in
  fst run = Ok (WhoopStrategy.DoneUser 1 user_id accessToken)
  /\ holds 1 "whoop"
           (authenticated accessToken refreshToken externalUserId
                          (Date_now e (clock_reads s) + expires_in * 1000))
           (wearableTokens s) (wearableTokens (snd run))
  /\ wearableData (snd run) = wearableData s.
Proof.
  intros Htext Hdb1 Hdb2 run. subst run.
  assert (Hstring : WhoopStrategy.toString user_id = ret externalUserId).
  { destruct user_id; simpl in Htext; try discriminate Htext; injection Htext as <-;
      reflexivity. }
  assert (H : wp e (WhoopStrategy.handleAuthentication accessToken refreshToken expires_in
                      user_id)
                 (fun done s' =>
                    done = WhoopStrategy.DoneUser 1 user_id accessToken
                    /\ holds 1 "whoop"
                             (authenticated accessToken refreshToken externalUserId
                                            (Date_now e (clock_reads s) + expires_in * 1000))
                             (wearableTokens s) (wearableTokens s')
                    /\ wearableData s' = wearableData s)
                 (fun _ _ => False) s).
  { unfold WhoopStrategy.handleAuthentication. rewrite Hstring.
    repeat wp_step. state_simpl. rewrite Hdb1. state_simpl.
    destruct (find (token_matches 1 "whoop") (wearableTokens s)) as [old | ] eqn:Hfind.
    - repeat wp_step. state_simpl. rewrite Hdb2. state_simpl. repeat wp_step.
      split; [reflexivity | ]. split; [ | reflexivity].
      apply (holds_updated 1 "whoop" _ _ _ old Hfind). repeat split.
    - repeat wp_step. state_simpl. rewrite Hdb2. state_simpl. repeat wp_step.
      split; [reflexivity | ]. split; [ | reflexivity].
      apply (holds_created 1 "whoop" _ _ _ Hfind); [reflexivity | repeat split]. }
  apply wp_returns in H. destruct H as [done [Hrun [-> H]]].
  split; [exact Hrun | exact H].
Qed.

Lemma authentication_is_stored_for_user_1_witness :
  let run := WhoopStrategy.handleAuthentication "access-9" "refresh-9" 3600 (JNum 4242)
               tracker_down (store_of [AggregatorCredentials.aggregator_credential]) in
  fst run = Ok (WhoopStrategy.DoneUser 1 (JNum 4242) "access-9")
  /\ holds 1 "whoop"
           (authenticated "access-9" "refresh-9" "4242"
              (Date_now tracker_down
                        (clock_reads (store_of [AggregatorCredentials.aggregator_credential]))
               + 3600 * 1000))
           (wearableTokens (store_of [AggregatorCredentials.aggregator_credential]))
           (wearableTokens (snd run))
  /\ wearableData (snd run)
     = wearableData (store_of [AggregatorCredentials.aggregator_credential]).
Proof.
  refine (authentication_is_stored_for_user_1 tracker_down
            (store_of [AggregatorCredentials.aggregator_credential])
            "access-9" "refresh-9" 3600 (JNum 4242) "4242" _ _ _); reflexivity.
Defined.

(** X13: when the profile carries no [user_id] ([undefined] or [null]),
    [handleAuthentication] hands [done] an error and writes nothing: both
    tables are as before, whatever the database answers. *)
Theorem authentication_without_account_id_stores_nothing (e : Env) (s : State)
        (accessToken refreshToken : string) (expires_in : Z) (user_id : jsval) :
  text_column user_id = None ->
  let run := WhoopStrategy.handleAuthentication accessToken refreshToken expires_in user_id e s in
  (exists message, fst run = Ok (WhoopStrategy.DoneError message))
  /\ wearableTokens (snd run) = wearableTokens s
  /\ wearableData (snd run) = wearableData s.
Proof.
  intros Htext run. subst run.
  unfold WhoopStrategy.handleAuthentication, try_catch, bind, now, getWearableToken, statement.
  state_simpl.
  destruct (db_rejects e (db_statements s)); [simpl; eauto | ].
  state_simpl.
  destruct user_id; simpl in Htext; try discriminate Htext;
    destruct (find (token_matches 1 "whoop") (wearableTokens s)); simpl; eauto.
Qed.

Lemma authentication_without_account_id_stores_nothing_witness :
  let run := WhoopStrategy.handleAuthentication "access-9" "refresh-9" 3600 JUndefined
               tracker_down (store_of [fresh_tracker_credential]) in
  (exists message, fst run = Ok (WhoopStrategy.DoneError message))
  /\ wearableTokens (snd run) = wearableTokens (store_of [fresh_tracker_credential])
  /\ wearableData (snd run) = wearableData (store_of [fresh_tracker_credential]).
Proof.
  refine (authentication_without_account_id_stores_nothing tracker_down
            (store_of [fresh_tracker_credential]) "access-9" "refresh-9" 3600 JUndefined _).
  reflexivity.
Defined.

(** *** The demo authorization of the tracker *)

(** The Credential the demo authorization leaves. *)
Definition demo_authorized (expiresAt : Z) (c : WearableToken.t) : Prop :=
  WearableToken.accessToken c = "demo_whoop_token"
  /\ WearableToken.refreshToken c = Some "demo_refresh_token"
  /\ WearableToken.expiresAt c = Some expiresAt.

Definition invalid_user_id (text : string) : Response.t :=
  Response.mk 400 (JsonError ("Invalid user ID: " ++ text)).

(** X14: the demo authorization accepts a user id only when it parses to
    a positive number; otherwise it answers 400 and leaves the state as it
    is.  For a positive id and a database that accepts every statement it
    answers 200, the user then has a tracker Credential with the demo
    tokens that expires 365 days after the handler's reading of the clock,
    hence is not stale at any time up to then, the Credentials of every
    other user or provider are as before and exactly one record, of the
    tracker's device type, is stored for the user. *)
Theorem demo_authorization_lasts_a_year (e : Env) (s : State) (q : string) :
  (forall n,
      parseInt q = Some n -> 0 < n ->
      (forall k, db_rejects e k = false) ->
      let run := whoop_demo_auth (Some q) e s in
      let expiresAt := Date_now e (clock_reads s) + year_ms in
      fst run = Ok (Response.json (Html "WHOOP Connected"))
      /\ holds n "whoop" (demo_authorized expiresAt) (wearableTokens s) (wearableTokens (snd run))
      /\ (forall c at_, demo_authorized expiresAt c -> at_ <= expiresAt -> is_stale at_ c = false)
      /\ (exists row,
             wearableData (snd run) = (wearableData s ++ [row])%list
             /\ WearableData.userId row = n /\ WearableData.deviceType row = "whoop"))
  /\ ((parseInt q = None \/ exists n, parseInt q = Some n /\ n <= 0) ->
      whoop_demo_auth (Some q) e s = (Ok (invalid_user_id q), s)).
Proof.
  split.
  - intros n Hparse Hn Hdb run expiresAt. subst run expiresAt.
    assert (H : wp e (whoop_demo_auth (Some q))
                   (fun resp s' =>
                      resp = Response.json (Html "WHOOP Connected")
                      /\ holds n "whoop" (demo_authorized (Date_now e (clock_reads s) + year_ms))
                               (wearableTokens s) (wearableTokens s')
                      /\ (exists row,
                             wearableData s' = (wearableData s ++ [row])%list
                             /\ WearableData.userId row = n
                             /\ WearableData.deviceType row = "whoop"))
                   (fun _ _ => False) s).
    { unfold whoop_demo_auth. rewrite Hparse.
      assert (Hpos : (n <=? 0) = false) by (apply Z.leb_gt, Hn). rewrite Hpos.
      repeat wp_step. state_simpl. rewrite Hdb. state_simpl.
      destruct (find (token_matches n "whoop") (wearableTokens s)) as [old | ] eqn:Hfind.
      - repeat wp_step. state_simpl. rewrite Hdb. state_simpl.
        repeat wp_step. state_simpl. rewrite Hdb. state_simpl. repeat wp_step.
        split; [reflexivity | ]. split.
        + apply (holds_updated n "whoop" _ _ _ old Hfind). repeat split.
        + eexists. split; [reflexivity | split; reflexivity].
      - repeat wp_step. state_simpl. rewrite Hdb. state_simpl.
        repeat wp_step. state_simpl. rewrite Hdb. state_simpl. repeat wp_step.
        split; [reflexivity | ]. split.
        + apply (holds_created n "whoop" _ _ _ Hfind); [reflexivity | repeat split].
        + eexists. split; [reflexivity | split; reflexivity]. }
    apply wp_returns in H. destruct H as [resp [Hrun [-> [Hholds Hrow]]]].
    split; [exact Hrun | ]. split; [exact Hholds | ]. split; [ | exact Hrow].
    intros c at_ [_ [_ Hexpires]] Hat. unfold is_stale. rewrite Hexpires.
    apply Z.ltb_ge. exact Hat.
  - intros [Hnan | [n [Hparse Hn]]]; unfold whoop_demo_auth, try_catch.
    + rewrite Hnan. reflexivity.
    + rewrite Hparse. apply Z.leb_le in Hn. rewrite Hn. reflexivity.
Qed.

Lemma demo_authorization_lasts_a_year_witness :
  (let run := whoop_demo_auth (Some "7") tracker_down (store_of [fresh_tracker_credential]) in
   let expiresAt :=
     Date_now tracker_down (clock_reads (store_of [fresh_tracker_credential])) + year_ms in
   fst run = Ok (Response.json (Html "WHOOP Connected"))
   /\ holds 7 "whoop" (demo_authorized expiresAt)
            (wearableTokens (store_of [fresh_tracker_credential])) (wearableTokens (snd run))
   /\ (forall c at_, demo_authorized expiresAt c -> at_ <= expiresAt -> is_stale at_ c = false)
   /\ (exists row,
          wearableData (snd run)
          = (wearableData (store_of [fresh_tracker_credential]) ++ [row])%list
          /\ WearableData.userId row = 7 /\ WearableData.deviceType row = "whoop"))
  /\ whoop_demo_auth (Some "-3") tracker_down (store_of [fresh_tracker_credential])
     = (Ok (invalid_user_id "-3"), store_of [fresh_tracker_credential]).
Proof.
  split.
  - refine (proj1 (demo_authorization_lasts_a_year tracker_down
                     (store_of [fresh_tracker_credential]) "7") 7 _ _ _).
    + reflexivity.
    + reflexivity.
    + reflexivity.
  - refine (proj2 (demo_authorization_lasts_a_year tracker_down
                     (store_of [fresh_tracker_credential]) "-3") _).
    right. exists (-3). split; [reflexivity | discriminate].
Defined.

(** *** The mock authorization of the aggregator and the URL that leads to it *)

(** What [GET /api/auth/apple/:userId] answers. *)
Inductive AuthUrlAnswer : Type :=
| AuthUrl (authUrl : string)
| AuthUrlError (status : Z) (error : string).

(** [GET /api/auth/apple/:userId] *)
Definition apple_auth_url (params_userId : string) : M AuthUrlAnswer :=
  try_catch
    (let userId := parseInt params_userId in
     if number_falsy userId || isNaN userId
     then ret (AuthUrlError 400 "Invalid user ID")
     else
       let userId := match userId with Some n => n | None => 0 end in
       let authURL :=
         "http://localhost:5000/api/auth/apple/mock?userId=" ++ String_of_Z userId in
       ret (AuthUrl authURL))
    (fun _ => ret (AuthUrlError 500 "Failed to generate Apple Health auth URL.")).

(** The Credential the mock authorization leaves when the clock read [at_]. *)
Definition mock_authorized (userId at_ : Z) (c : WearableToken.t) : Prop :=
  WearableToken.accessToken c = "mock_apple_authenticated"
  /\ WearableToken.externalUserId c
     = Some ("mock_apple_" ++ String_of_Z userId ++ "_" ++ String_of_Z at_).

Lemma apple_mock_auth_runs e s q n :
  parseInt q = Some n -> n <> 0 ->
  (forall k, db_rejects e k = false) ->
  wp e (apple_mock_auth (Some q))
     (fun resp s' =>
        resp = Response.json (Html "Apple Health Connected")
        /\ holds n "apple_health" (mock_authorized n (Date_now e (clock_reads s)))
                 (wearableTokens s) (wearableTokens s')
        /\ (exists row,
               wearableData s' = (wearableData s ++ [row])%list
               /\ WearableData.userId row = n
               /\ WearableData.deviceType row = "apple_watch"))
     (fun _ _ => False) s.
Proof.
  intros Hparse Hn Hdb. unfold apple_mock_auth. rewrite Hparse.
  apply Z.eqb_neq in Hn. simpl. rewrite Hn. simpl.
  repeat wp_step. state_simpl. rewrite Hdb. state_simpl.
  destruct (find (token_matches n "apple_health") (wearableTokens s)) as [old | ] eqn:Hfind.
  - repeat wp_step. state_simpl. rewrite Hdb. state_simpl.
    repeat wp_step. state_simpl. rewrite Hdb. state_simpl. repeat wp_step.
    split; [reflexivity | ]. split.
    + apply (holds_updated n "apple_health" _ _ _ old Hfind). repeat split.
    + eexists. split; [reflexivity | split; reflexivity].
  - repeat wp_step. state_simpl. rewrite Hdb. state_simpl.
    repeat wp_step. state_simpl. rewrite Hdb. state_simpl. repeat wp_step.
    split; [reflexivity | ]. split.
    + apply (holds_created n "apple_health" _ _ _ Hfind); [reflexivity | repeat split].
    + eexists. split; [reflexivity | split; reflexivity].
Qed.

(** X15: for a user id that parses to a non-zero number in the range
    where JavaScript numbers are exact, the handler that hands out the
    authorization URL answers, without touching the state, the mock
    authorization's address followed by a [userId] query value that
    [parseInt] reads back as the same number; so the mock authorization
    handler, given that value and a database that accepts every statement,
    answers 200, leaves an aggregator Credential for exactly that user and
    stores one record for that user. *)
Theorem auth_url_leads_back_to_the_user (e : Env) (s : State) (params_userId : string) (n : Z) :
  parseInt params_userId = Some n -> n <> 0 -> safe_integer n ->
  exists query_userId,
    apple_auth_url params_userId e s
    = (Ok (AuthUrl ("http://localhost:5000/api/auth/apple/mock?userId=" ++ query_userId)), s)
    /\ parseInt query_userId = Some n
    /\ (forall e' s',
           (forall k, db_rejects e' k = false) ->
           let run := apple_mock_auth (Some query_userId) e' s' in
           fst run = Ok (Response.json (Html "Apple Health Connected"))
           /\ holds n "apple_health" (mock_authorized n (Date_now e' (clock_reads s')))
                    (wearableTokens s') (wearableTokens (snd run))
           /\ (exists row,
                  wearableData (snd run) = (wearableData s' ++ [row])%list
                  /\ WearableData.userId row = n
                  /\ WearableData.deviceType row = "apple_watch")).
Proof.
  intros Hparse Hn _. exists (String_of_Z n). split; [ | split].
  - unfold apple_auth_url, try_catch. rewrite Hparse. apply Z.eqb_neq in Hn.
    simpl. rewrite Hn. reflexivity.
  - apply parseInt_String_of_Z.
  - intros e' s' Hdb run. subst run.
    pose proof (apple_mock_auth_runs e' s' (String_of_Z n) n (parseInt_String_of_Z n) Hn Hdb)
      as H.
    apply wp_returns in H. destruct H as [resp [Hrun [-> H]]].
    split; [exact Hrun | exact H].
Qed.

Lemma auth_url_leads_back_to_the_user_witness :
  exists query_userId,
    apple_auth_url "5" tracker_down (store_of [fresh_tracker_credential])
    = (Ok (AuthUrl ("http://localhost:5000/api/auth/apple/mock?userId=" ++ query_userId)),
       store_of [fresh_tracker_credential])
    /\ parseInt query_userId = Some 5
    /\ (forall e' s',
           (forall k, db_rejects e' k = false) ->
           let run := apple_mock_auth (Some query_userId) e' s' in
           fst run = Ok (Response.json (Html "Apple Health Connected"))
           /\ holds 5 "apple_health" (mock_authorized 5 (Date_now e' (clock_reads s')))
                    (wearableTokens s') (wearableTokens (snd run))
           /\ (exists row,
                  wearableData (snd run) = (wearableData s' ++ [row])%list
                  /\ WearableData.userId row = 5
                  /\ WearableData.deviceType row = "apple_watch")).
Proof.
  refine (auth_url_leads_back_to_the_user tracker_down (store_of [fresh_tracker_credential])
            "5" 5 _ _ _).
  - reflexivity.
  - discriminate.
  - unfold safe_integer. split; reflexivity.
Defined.

(** *** The aggregator's callback, and the sync that follows *)

Import SyncOutcomes SyncRuns.

Lemma substring_whole s : String.substring 0 (String.length s) s = s.
Proof. induction s as [ | c s IH]; simpl; [reflexivity | rewrite IH; reflexivity]. Qed.

Lemma remove_first_prefix q : remove_first "apple_" ("apple_" ++ q) = q.
Proof.
  simpl. rewrite Nat.sub_0_r. rewrite (substring_whole q). destruct q; reflexivity.
Qed.

(** The Credential the callback leaves for a body that carries [user_id]. *)
Definition terra_authorized (externalUserId : string) (c : WearableToken.t) : Prop :=
  WearableToken.accessToken c = "terra_authenticated"
  /\ WearableToken.externalUserId c = Some externalUserId.

Definition connected_successfully : Response.t :=
  Response.json (JsonSuccess "Apple Health connected successfully").

Lemma apple_callback_runs e s b q n x :
  jsval_eqb_str (CallbackBody.status b) "success" = true ->
  CallbackBody.state b = JStr ("apple_" ++ q) ->
  parseInt q = Some n -> n <> 0 ->
  text_column (CallbackBody.user_id b) = Some x ->
  (forall k, db_rejects e k = false) ->
  wp e (apple_callback (Some b))
     (fun resp s' =>
        resp = connected_successfully
        /\ holds n "apple_health" (terra_authorized x) (wearableTokens s) (wearableTokens s')
        /\ wearableData s' = wearableData s)
     (fun _ _ => False) s.
Proof.
  intros Hstatus Hstate Hparse Hn Htext Hdb. unfold apple_callback.
  rewrite Hstatus, Hstate, remove_first_prefix, Hparse.
  apply Z.eqb_neq in Hn. simpl. rewrite Hn. simpl.
  assert (Hupdate : text_update (CallbackBody.user_id b) = Some (Some x)).
  { destruct (CallbackBody.user_id b); simpl in *; try discriminate Htext;
      rewrite Htext; reflexivity. }
  rewrite Hupdate, Htext.
  repeat wp_step. state_simpl. rewrite Hdb. state_simpl.
  destruct (find (token_matches n "apple_health") (wearableTokens s)) as [old | ] eqn:Hfind.
  - repeat wp_step. state_simpl. rewrite Hdb. state_simpl. repeat wp_step.
    split; [reflexivity | ]. split; [ | reflexivity].
    apply (holds_updated n "apple_health" _ _ _ old Hfind). repeat split.
  - repeat wp_step. state_simpl. rewrite Hdb. state_simpl. repeat wp_step.
    split; [reflexivity | ]. split; [ | reflexivity].
    apply (holds_created n "apple_health" _ _ _ Hfind); [reflexivity | repeat split].
Qed.

(** The sync handler with a database that accepts every statement: the
    outcomes of the tracker block, then those of the aggregator block. *)
Lemma sync_accepted e s userId n :
  parseInt userId = Some n -> n <> 0 ->
  (forall k, db_rejects e k = false) ->
  wp e (sync userId)
     (fun resp _ =>
        exists tracker rest,
          resp = Response.json (JsonSync (tracker ++ rest)%list)
          /\ aggregator_outcomes
               (find (token_matches n "apple_health") (wearableTokens s)) rest)
     (fun _ _ => False) s.
Proof.
  intros Hparse Hn Hdb. unfold sync. rewrite Hparse. apply Z.eqb_neq in Hn.
  simpl. rewrite Hn. simpl.
  repeat wp_step. rewrite Hdb. state_simpl.
  set (found := find (token_matches n "apple_health") (wearableTokens s)).
  destruct (find (token_matches n "whoop") (wearableTokens s)) as [whoopToken | ].
  - wp_step. eapply wp_weaken; [ | | ].
    + apply wp_conj.
      * apply (sync_whoop_pushes e [] n whoopToken eq_refl). reflexivity.
      * apply (sync_whoop_spares_aggregator e n whoopToken found). reflexivity.
    + intros ? s1 [[o [Hrs1 _]] [Hfound _]]. cbv beta.
      eapply wp_weaken; [apply (sync_tail_accepted e Hdb) | | contradiction].
      intros resp s2 [rest [-> [Hrest _]]]. exists (results s1), rest.
      split; [reflexivity | ]. unfold aggregator_lookup in Hfound. rewrite Hfound in Hrest.
      exact Hrest.
    + intros msg s1 [[] _].
  - wp_step. wp_step. cbv beta.
    eapply wp_weaken; [apply (sync_tail_accepted e Hdb) | | contradiction].
    intros resp s2 [rest [-> [Hrest _]]]. exists [], rest.
    split; [reflexivity | exact Hrest].
Qed.

(** X16: a callback that reports success, carries a non-empty [user_id]
    and a [state] of the form [apple_<id>] connects the aggregator for
    the user with that id: with a database that accepts every statement
    it answers 200, the user's aggregator Credential then carries that
    [user_id] as external user id while every other Credential and the
    biometric records are as before, and a following sync for the user
    answers with an aggregator outcome of status success as its last
    outcome. *)
Theorem callback_connects_for_sync (e : Env) (s : State) (b : CallbackBody.t)
        (q : string) (n : Z) (x : string) :
  jsval_eqb_str (CallbackBody.status b) "success" = true ->
  CallbackBody.state b = JStr ("apple_" ++ q) ->
  parseInt q = Some n -> n <> 0 ->
  text_column (CallbackBody.user_id b) = Some x -> x <> "" ->
  (forall k, db_rejects e k = false) ->
  let connected := apple_callback (Some b) e s in
  fst connected = Ok connected_successfully
  /\ holds n "apple_health" (terra_authorized x)
           (wearableTokens s) (wearableTokens (snd connected))
  /\ wearableData (snd connected) = wearableData s
  /\ (forall userId,
         parseInt userId = Some n ->
         exists tracker d,
           fst (sync userId e (snd connected))
           = Ok (Response.json
                   (JsonSync (tracker
                              ++ [SyncOutcome.success "apple_health" (FromSimulator d)])%list))).
Proof.
  intros Hstatus Hstate Hparse Hn Htext Hx Hdb connected. subst connected.
  pose proof (apple_callback_runs e s b q n x Hstatus Hstate Hparse Hn Htext Hdb) as H.
  apply wp_returns in H. destruct H as [resp [Hrun [-> [Hholds Hrows]]]].
  split; [exact Hrun | ]. split; [exact Hholds | ]. split; [exact Hrows | ].
  intros userId Hparse'.
  pose proof (sync_accepted e (snd (apple_callback (Some b) e s)) userId n Hparse' Hn Hdb)
    as H.
  apply wp_returns in H. destruct H as [resp [Hsync [tracker [rest [-> Hrest]]]]].
  destruct Hholds as [[c [Hc [_ Hext]]] _].
  unfold aggregator_outcomes in Hrest. rewrite Hc in Hrest. simpl in Hrest.
  rewrite Hext in Hrest.
  assert (Hne : String.eqb x "" = false) by (apply String.eqb_neq, Hx).
  rewrite Hne in Hrest. simpl in Hrest. destruct Hrest as [d ->].
  exists tracker, d. exact Hsync.
Qed.

Lemma callback_connects_for_sync_witness :
  let connected :=
    apple_callback
      (Some (CallbackBody.mk (JStr "terra-user-abc") (JStr "APPLE") (JStr "success")
                             (JStr ("apple_" ++ "5"))))
      tracker_down (store_of [fresh_tracker_credential]) in
  fst connected = Ok connected_successfully
  /\ holds 5 "apple_health" (terra_authorized "terra-user-abc")
           (wearableTokens (store_of [fresh_tracker_credential]))
           (wearableTokens (snd connected))
  /\ wearableData (snd connected) = wearableData (store_of [fresh_tracker_credential])
  /\ (forall userId,
         parseInt userId = Some 5 ->
         exists tracker d,
           fst (sync userId tracker_down (snd connected))
           = Ok (Response.json
                   (JsonSync (tracker
                              ++ [SyncOutcome.success "apple_health" (FromSimulator d)])%list))).
Proof.
  refine (callback_connects_for_sync tracker_down (store_of [fresh_tracker_credential])
            (CallbackBody.mk (JStr "terra-user-abc") (JStr "APPLE") (JStr "success")
                             (JStr ("apple_" ++ "5")))
            "5" 5 "terra-user-abc" _ _ _ _ _ _ _).
  - reflexivity.
  - reflexivity.
  - reflexivity.
  - discriminate.
  - reflexivity.
  - discriminate.
  - reflexivity.
Defined.

End Authorization.

(* ================================================================== *)
(** ** storage.ts: the queries of the in-memory storage *)

Module MemQueries.

Import MemStorage.
Import Stdlib.Sorting.Sorted Stdlib.Sorting.Permutation.

(** [Array.prototype.sort(compare)].  The sort is stable, so for a
    comparator that orders by a key its result is the one insertion from
    the right gives: an element goes before the first element it does not
    compare greater than. *)
Fixpoint sort_insert {A : Type} (compare : A -> A -> Z) (x : A) (sorted : list A) : list A :=
  match sorted with
  | [] => [x]
  | y :: rest => if compare x y <=? 0 then x :: sorted else y :: sort_insert compare x rest
  end.

Definition Array_sort {A : Type} (compare : A -> A -> Z) (l : list A) : list A :=
  fold_right (sort_insert compare) [] l.

(** [l.slice(0, end)]: a negative [end] counts from the end of [l]. *)
Definition Array_slice {A : Type} (end_ : Z) (l : list A) : list A :=
  if end_ <? 0
  then firstn (Z.to_nat (Z.of_nat (length l) + end_)) l
  else firstn (Z.to_nat end_) l.

(** [Array.from(this.wearableData.values())] *)
Definition values (this : t) : list WearableData.t := map snd (wearableData this).

(** [(a, b) => new Date(b.recordedAt).getTime() - new Date(a.recordedAt).getTime()] *)
Definition by_recordedAt (a b : WearableData.t) : Z :=
  WearableData.recordedAt b - WearableData.recordedAt a.

Definition of_user (userId : Z) (data : WearableData.t) : bool :=
  WearableData.userId data =? userId.

Definition getLatestWearableData (userId : Z) (this : t) : option WearableData.t :=
  let userWearableData := Array_sort by_recordedAt (filter (of_user userId) (values this)) in
  hd_error userWearableData.

(** [limit] is [None] when the caller passes no limit. *)
Definition getWearableDataByUserId (userId : Z) (limit : option Z) (this : t)
  : list WearableData.t :=
  let limit := match limit with Some l => l | None => 10 end in
  Array_slice limit (Array_sort by_recordedAt (filter (of_user userId) (values this))).

(** The fields of a fresh [MemStorage]. *)
Definition empty : t := mk [] 1.

(** Most recent first. *)
Definition newer_first (a b : WearableData.t) : Prop :=
  WearableData.recordedAt b <= WearableData.recordedAt a.

Lemma sort_insert_perm {A : Type} (compare : A -> A -> Z) x l :
  Permutation (sort_insert compare x l) (x :: l).
Proof.
  induction l as [ | y l IH]; simpl; [apply Permutation_refl | ].
  destruct (compare x y <=? 0); [apply Permutation_refl | ].
  eapply Permutation_trans; [apply perm_skip, IH | apply perm_swap].
Qed.

Lemma Array_sort_perm {A : Type} (compare : A -> A -> Z) l :
  Permutation (Array_sort compare l) l.
Proof.
  induction l as [ | x l IH]; simpl; [apply perm_nil | ].
  eapply Permutation_trans; [apply sort_insert_perm | apply perm_skip, IH].
Qed.

Lemma sort_insert_sorted x l :
  StronglySorted newer_first l -> StronglySorted newer_first (sort_insert by_recordedAt x l).
Proof.
  induction l as [ | y l IH]; simpl; intros Hl.
  - repeat constructor.
  - inversion Hl as [ | ? ? Hsorted Hy]; subst.
    destruct (by_recordedAt x y <=? 0) eqn:E.
    + apply Z.leb_le in E. unfold by_recordedAt in E. constructor; [exact Hl | ].
      constructor; [unfold newer_first; lia | ].
      eapply Forall_impl; [ | exact Hy]. unfold newer_first. intros z Hz. lia.
    + apply Z.leb_gt in E. unfold by_recordedAt in E. constructor; [apply IH, Hsorted | ].
      eapply Permutation_Forall; [apply Permutation_sym, sort_insert_perm | ].
      constructor; [unfold newer_first; lia | exact Hy].
Qed.

Lemma Array_sort_sorted l : StronglySorted newer_first (Array_sort by_recordedAt l).
Proof.
  induction l as [ | x l IH]; simpl; [constructor | apply sort_insert_sorted, IH].
Qed.

Lemma in_firstn {A : Type} k (l : list A) x : In x (firstn k l) -> In x l.
Proof.
  revert k. induction l as [ | y l IH]; intros k H; destruct k; simpl in H;
    try contradiction.
  destruct H as [<- | H]; [left; reflexivity | right; exact (IH k H)].
Qed.

Lemma in_skipn {A : Type} k (l : list A) x : In x (skipn k l) -> In x l.
Proof.
  revert k. induction l as [ | y l IH]; intros k H; destruct k; simpl in H;
    try contradiction; try exact H.
  right. exact (IH k H).
Qed.

Lemma sorted_firstn {A : Type} (R : A -> A -> Prop) k l :
  StronglySorted R l -> StronglySorted R (firstn k l).
Proof.
  revert k. induction l as [ | x l IH]; intros k Hl; destruct k; simpl; try constructor.
  - inversion Hl; subst. apply IH. assumption.
  - inversion Hl as [ | ? ? _ Hx]; subst. rewrite Forall_forall in *.
    intros y Hy. apply Hx. exact (in_firstn _ _ _ Hy).
Qed.

Lemma sorted_split {A : Type} (R : A -> A -> Prop) k l x y :
  StronglySorted R l -> In y (firstn k l) -> In x (skipn k l) -> R y x.
Proof.
  revert k. induction l as [ | z l IH]; intros k Hl Hy Hx.
  - rewrite firstn_nil in Hy. contradiction.
  - destruct k; simpl in Hy, Hx; [contradiction | ].
    inversion Hl as [ | ? ? Hsorted Hz]; subst. destruct Hy as [<- | Hy].
    + rewrite Forall_forall in Hz. apply Hz. exact (in_skipn _ _ _ Hx).
    + exact (IH k Hsorted Hy Hx).
Qed.

Lemma in_sorted_of_user userId this d :
  In d (Array_sort by_recordedAt (filter (of_user userId) (values this)))
  <-> In d (values this) /\ WearableData.userId d = userId.
Proof.
  split.
  - intros H. apply (Permutation_in _ (Array_sort_perm _ _)) in H.
    apply filter_In in H. destruct H as [H1 H2]. split; [exact H1 | ].
    apply Z.eqb_eq. exact H2.
  - intros [H1 H2]. apply (Permutation_in _ (Permutation_sym (Array_sort_perm _ _))).
    apply filter_In. split; [exact H1 | apply Z.eqb_eq, H2].
Qed.

Lemma slice_is_firstn {A : Type} (end_ : Z) (l : list A) :
  exists k, Array_slice end_ l = firstn k l /\ (0 <= end_ -> k = Z.to_nat end_).
Proof.
  unfold Array_slice. destruct (end_ <? 0) eqn:E.
  - eexists. split; [reflexivity | ]. apply Z.ltb_lt in E. lia.
  - eexists. split; [reflexivity | trivial].
Qed.

(** X17: [getWearableDataByUserId] returns stored records of the user
    only, the most recent first; with a limit that is not negative (10
    when none is given) it returns no more records than the limit, and
    every stored record of the user that it leaves out is at most as
    recent as each record it returns. *)
Theorem wearable_data_by_user_is_most_recent (this : t) (userId : Z) (limit : option Z) :
  let found := getWearableDataByUserId userId limit this in
  let bound := match limit with Some l => l | None => 10 end in
  Forall (fun d => In d (values this) /\ WearableData.userId d = userId) found
  /\ StronglySorted newer_first found
  /\ (0 <= bound -> Z.of_nat (length found) <= bound)
  /\ (forall d y,
         In d (values this) -> WearableData.userId d = userId -> In y found ->
         In d found \/ newer_first y d).
Proof.
  intros found bound. subst found bound. unfold getWearableDataByUserId.
  set (bound := match limit with Some l => l | None => 10 end).
  set (sorted := Array_sort by_recordedAt (filter (of_user userId) (values this))).
  destruct (slice_is_firstn bound sorted) as [k [-> Hk]].
  split; [ | split; [ | split]].
  - apply Forall_forall. intros d Hd. apply in_sorted_of_user. exact (in_firstn _ _ _ Hd).
  - apply sorted_firstn, Array_sort_sorted.
  - intros Hbound. rewrite (Hk Hbound). pose proof (length_firstn (Z.to_nat bound) sorted). lia.
  - intros d y Hd Hu Hy.
    assert (Hin : In d sorted) by (apply in_sorted_of_user; split; assumption).
    rewrite <- (firstn_skipn k sorted) in Hin. apply in_app_or in Hin.
    destruct Hin as [Hin | Hin]; [left; exact Hin | right].
    exact (sorted_split newer_first k sorted d y (Array_sort_sorted _) Hy Hin).
Qed.

(** Three records: two of user 1, stored at times 100 and 300, and one of
    user 2. *)
Definition three_records : t :=
  mk [(1, WearableData.mk 1 1 "whoop" (Some 80) None None None None 100);
      (2, WearableData.mk 2 2 "whoop" (Some 70) None None None None 200);
      (3, WearableData.mk 3 1 "apple_watch" (Some 90) None None None None 300)]
     4.

Lemma wearable_data_by_user_is_most_recent_witness :
  Z.of_nat (length (getWearableDataByUserId 1 (Some 1) three_records)) <= 1
  /\ StronglySorted newer_first (getWearableDataByUserId 1 None three_records).
Proof.
  pose proof (wearable_data_by_user_is_most_recent three_records 1 (Some 1)) as H1.
  pose proof (wearable_data_by_user_is_most_recent three_records 1 None) as H2.
  cbv zeta in H1, H2. destruct H1 as [_ [_ [H1 _]]]. destruct H2 as [_ [H2 _]].
  split; [apply H1; lia | exact H2].
Defined.

(** The head of a sorted list, computed without sorting: the first of the
    elements with the greatest key. *)
Definition pick (x : WearableData.t) (best : option WearableData.t) : option WearableData.t :=
  match best with
  | None => Some x
  | Some y => if by_recordedAt x y <=? 0 then Some x else Some y
  end.

Lemma hd_sort_insert x l :
  hd_error (sort_insert by_recordedAt x l) = pick x (hd_error l).
Proof. destruct l as [ | y l]; simpl; [reflexivity | ]. destruct (_ <=? 0); reflexivity. Qed.

Lemma hd_sorted_from base l :
  hd_error (fold_right (sort_insert by_recordedAt) base l) = fold_right pick (hd_error base) l.
Proof.
  induction l as [ | x l IH]; simpl; [reflexivity | ]. rewrite hd_sort_insert, IH. reflexivity.
Qed.

Lemma Array_sort_app x l :
  Array_sort by_recordedAt (l ++ [x])%list = fold_right (sort_insert by_recordedAt) [x] l.
Proof. unfold Array_sort. rewrite fold_right_app. reflexivity. Qed.

(** The head after one more element came last in the input. *)
Definition latest_of (x : WearableData.t) (previous : option WearableData.t)
  : option WearableData.t :=
  match previous with
  | None => Some x
  | Some y => if WearableData.recordedAt y <? WearableData.recordedAt x then Some x else Some y
  end.

Ltac order_facts :=
  repeat match goal with
         | H : (_ <? _) = true |- _ => apply Z.ltb_lt in H
         | H : (_ <? _) = false |- _ => apply Z.ltb_ge in H
         | H : (_ <=? _) = true |- _ => apply Z.leb_le in H
         | H : (_ <=? _) = false |- _ => apply Z.leb_gt in H
         end.

Lemma pick_last x l :
  fold_right pick (Some x) l = latest_of x (fold_right pick None l).
Proof.
  induction l as [ | a l IH]; simpl; [reflexivity | ]. rewrite IH.
  destruct (fold_right pick None l) as [y | ]; unfold latest_of, pick, by_recordedAt.
  - destruct (WearableData.recordedAt y <? WearableData.recordedAt x) eqn:E1;
      cbn beta iota;
      destruct (WearableData.recordedAt y - WearableData.recordedAt a <=? 0) eqn:E3;
      cbn beta iota;
      destruct (WearableData.recordedAt x - WearableData.recordedAt a <=? 0) eqn:E2;
      cbn beta iota;
      destruct (WearableData.recordedAt a <? WearableData.recordedAt x) eqn:E4;
      cbn beta iota; try rewrite E1; try reflexivity; order_facts; lia.
  - destruct (WearableData.recordedAt x - WearableData.recordedAt a <=? 0) eqn:E2;
      cbn beta iota;
      destruct (WearableData.recordedAt a <? WearableData.recordedAt x) eqn:E4;
      try reflexivity; order_facts; lia.
Qed.

Lemma latest_after_append userId rows x :
  hd_error (Array_sort by_recordedAt (filter (of_user userId) (rows ++ [x])%list))
  = if of_user userId x
    then latest_of x (hd_error (Array_sort by_recordedAt (filter (of_user userId) rows)))
    else hd_error (Array_sort by_recordedAt (filter (of_user userId) rows)).
Proof.
  rewrite filter_app. simpl. destruct (of_user userId x); [ | rewrite app_nil_r; reflexivity].
  rewrite Array_sort_app, hd_sorted_from. simpl hd_error. rewrite pick_last.
  unfold Array_sort. rewrite (hd_sorted_from [] _). reflexivity.
Qed.

(** Every key of the map is below the counter the next id comes from. *)
Definition ids_below_counter (this : t) : Prop :=
  Forall (fun entry => fst entry < currentWearableDataId this) (wearableData this).

Lemma map_set_fresh k v m :
  Forall (fun entry => fst entry < k) m -> map_set k v m = (m ++ [(k, v)])%list.
Proof.
  induction m as [ | [k' v'] m IH]; simpl; intros H; [reflexivity | ].
  inversion H as [ | ? ? Hk Hm]; subst. simpl in Hk.
  assert (E : (k' =? k) = false) by (apply Z.eqb_neq; lia). rewrite E, (IH Hm). reflexivity.
Qed.

(** X18: [getLatestWearableData] returns the first record of what
    [getWearableDataByUserId] returns for any limit of at least 1 and for
    the default limit.  It returns nothing exactly when no record of the
    user is stored; a record it returns is a stored record of the user and
    at least as recent as every stored record of the user. *)
Theorem latest_wearable_data_is_most_recent (this : t) (userId : Z) :
  (forall limit, 1 <= limit ->
     getLatestWearableData userId this
     = hd_error (getWearableDataByUserId userId (Some limit) this))
  /\ getLatestWearableData userId this = hd_error (getWearableDataByUserId userId None this)
  /\ match getLatestWearableData userId this with
     | Some y =>
         In y (values this) /\ WearableData.userId y = userId
         /\ forall d, In d (values this) -> WearableData.userId d = userId -> newer_first y d
     | None => forall d, In d (values this) -> WearableData.userId d <> userId
     end.
Proof.
  unfold getLatestWearableData, getWearableDataByUserId, Array_slice.
  set (sorted := Array_sort by_recordedAt (filter (of_user userId) (values this))).
  assert (Hhead : forall k, (1 <= k)%nat -> hd_error (firstn k sorted) = hd_error sorted).
  { intros k Hk. destruct k; [lia | ]. destruct sorted; reflexivity. }
  assert (Hlimit : forall limit, 1 <= limit ->
                     hd_error sorted
                     = hd_error (if limit <? 0
                                 then firstn (Z.to_nat (Z.of_nat (length sorted) + limit)) sorted
                                 else firstn (Z.to_nat limit) sorted)).
  { intros limit Hlimit. assert (E : (limit <? 0) = false) by (apply Z.ltb_ge; lia).
    rewrite E. symmetry. apply Hhead. lia. }
  split; [exact Hlimit | split; [exact (Hlimit 10 ltac:(lia)) | ]].
  - pose proof (Array_sort_sorted (filter (of_user userId) (values this))) as Hsorted.
    fold sorted in Hsorted.
    assert (Hin : forall d, In d sorted <-> In d (values this) /\ WearableData.userId d = userId)
      by (intros d; apply in_sorted_of_user).
    destruct sorted as [ | y rest]; simpl.
    + intros d Hd Hu. apply (proj2 (Hin d)). split; assumption.
    + destruct (proj1 (Hin y) (or_introl eq_refl)) as [Hy Hu]. split; [exact Hy | ].
      split; [exact Hu | ]. intros d Hd Hud.
      destruct (proj2 (Hin d) (conj Hd Hud)) as [<- | Hrest]; [unfold newer_first; lia | ].
      inversion Hsorted as [ | ? ? _ Hall]; subst. rewrite Forall_forall in Hall.
      exact (Hall d Hrest).
Qed.

Lemma latest_wearable_data_is_most_recent_witness :
  getLatestWearableData 1 three_records
  = hd_error (getWearableDataByUserId 1 (Some 2) three_records)
  /\ getLatestWearableData 1 three_records
     = Some (WearableData.mk 3 1 "apple_watch" (Some 90) None None None None 300).
Proof.
  split.
  - apply (proj1 (latest_wearable_data_is_most_recent three_records 1) 2). lia.
  - reflexivity.
Defined.

(** X19: in a storage whose ids are all below its counter, as in a fresh
    one and after every [createWearableData], a new record gets the
    counter as its id and is added after the stored records, none of which
    is replaced.  For the user of the new record the latest record is then
    the new one only when it is strictly more recent than the latest one
    before: with an equal time the older record stays the latest.  For
    every other user the latest record is the one it was. *)
Theorem created_record_and_the_latest (this : t) (insertData : InsertWearableData.t)
        (date : Z) :
  ids_below_counter this ->
  let created := fst (createWearableData insertData date this) in
  let after := snd (createWearableData insertData date this) in
  WearableData.id created = currentWearableDataId this
  /\ values after = (values this ++ [created])%list
  /\ ids_below_counter after
  /\ getLatestWearableData (InsertWearableData.userId insertData) after
     = latest_of created
                 (getLatestWearableData (InsertWearableData.userId insertData) this)
  /\ (forall userId,
         userId <> InsertWearableData.userId insertData ->
         getLatestWearableData userId after = getLatestWearableData userId this).
Proof.
  intros Hids created after. subst created after.
  unfold createWearableData. cbn [fst snd].
  set (created := WearableData.mk _ _ _ _ _ _ _ _ _).
  assert (Hvalues : values (mk (map_set (currentWearableDataId this) created
                                        (wearableData this))
                               (currentWearableDataId this + 1))
                    = (values this ++ [created])%list).
  { unfold values. simpl. rewrite (map_set_fresh _ _ _ Hids), map_app. reflexivity. }
  split; [reflexivity | ]. split; [exact Hvalues | ]. split; [ | split].
  - unfold ids_below_counter in *. simpl. rewrite (map_set_fresh _ _ _ Hids).
    apply Forall_app. split.
    + eapply Forall_impl; [ | exact Hids]. intros entry H. simpl in H. lia.
    + repeat constructor. simpl. lia.
  - unfold getLatestWearableData. cbv zeta. rewrite Hvalues, latest_after_append.
    unfold of_user at 1. subst created. simpl WearableData.userId. rewrite Z.eqb_refl.
    reflexivity.
  - intros userId Hne. unfold getLatestWearableData. cbv zeta.
    rewrite Hvalues, latest_after_append.
    unfold of_user at 1. subst created. simpl WearableData.userId.
    assert (E : (InsertWearableData.userId insertData =? userId) = false)
      by (apply Z.eqb_neq; congruence).
    rewrite E. reflexivity.
Qed.

Lemma ids_below_counter_empty : ids_below_counter empty.
Proof. constructor. Qed.

Lemma created_record_and_the_latest_witness :
  let insertData := InsertWearableData.mk 1 "whoop" (Some 85) None None None None in
  let created := fst (createWearableData insertData 300 three_records) in
  let after := snd (createWearableData insertData 300 three_records) in
  WearableData.id created = currentWearableDataId three_records
  /\ values after = (values three_records ++ [created])%list
  /\ ids_below_counter after
  /\ getLatestWearableData (InsertWearableData.userId insertData) after
     = latest_of created
                 (getLatestWearableData (InsertWearableData.userId insertData) three_records)
  /\ (forall userId,
         userId <> InsertWearableData.userId insertData ->
         getLatestWearableData userId after = getLatestWearableData userId three_records).
Proof.
  refine (created_record_and_the_latest three_records
            (InsertWearableData.mk 1 "whoop" (Some 85) None None None None) 300 _).
  repeat constructor.
Defined.

End MemQueries.

(* ================================================================== *)
(** ** storage.ts: the users of the in-memory storage *)

Module MemUsers.

Module User.
Record t : Type := mk {
  id : Z;
  username : string;
  email : string;
  subscriptionTier : string;
  createdAt : Z
}.
End User.

(** [InsertUser], with the fields the constructor of [MemStorage] passes. *)
Module InsertUser.
Record t : Type := mk {
  username : string;
  email : string;
  subscriptionTier : option string
}.
End InsertUser.

(** The [users] map and its counter. *)
Record t : Type := mk {
  users : list (Z * User.t);
  currentUserId : Z
}.

(** [Map.prototype.set] and [Map.prototype.get] *)
Fixpoint map_set (k : Z) (v : User.t) (m : list (Z * User.t)) : list (Z * User.t) :=
  match m with
  | [] => [(k, v)]
  | (k', v') :: rest => if k' =? k then (k, v) :: rest else (k', v') :: map_set k v rest
  end.

Definition map_get (k : Z) (m : list (Z * User.t)) : option User.t :=
  option_map snd (find (fun entry => fst entry =? k) m).

Definition getUser (id : Z) (this : t) : option User.t := map_get id (users this).

Definition getUserByEmail (email : string) (this : t) : option User.t :=
  find (fun user => String.eqb (User.email user) email) (map snd (users this)).

(** [date] is what [new Date()] returns. *)
Definition createUser (insertUser : InsertUser.t) (date : Z) (this : t) : User.t * t :=
  let id := currentUserId this in
  let user :=
    User.mk id
            (InsertUser.username insertUser)
            (InsertUser.email insertUser)
            (match str_or_null (InsertUser.subscriptionTier insertUser) with
             | Some tier => tier
             | None => "basic"
             end)
            date in
  (user, mk (map_set id user (users this)) (id + 1)).

(** [new MemStorage()] *)
Definition constructor (date : Z) : t :=
  snd (createUser (InsertUser.mk "john_doe" "john@example.com" (Some "basic")) date (mk [] 1)).

Definition ids_below_counter (this : t) : Prop :=
  Forall (fun entry => fst entry < currentUserId this) (users this).

Lemma users_set_fresh k v m :
  Forall (fun entry => fst entry < k) m -> map_set k v m = (m ++ [(k, v)])%list.
Proof.
  induction m as [ | [k' v'] m IH]; simpl; intros H; [reflexivity | ].
  inversion H as [ | ? ? Hk Hm]; subst. simpl in Hk.
  assert (E : (k' =? k) = false) by (apply Z.eqb_neq; lia). rewrite E, (IH Hm). reflexivity.
Qed.

Lemma find_app {A : Type} (f : A -> bool) (l l' : list A) :
  find f (l ++ l')%list = match find f l with Some x => Some x | None => find f l' end.
Proof.
  induction l as [ | x l IH]; simpl; [reflexivity | ]. destruct (f x); [reflexivity | exact IH].
Qed.

Lemma map_get_below k m :
  Forall (fun entry => fst entry < k) m -> map_get k m = None.
Proof.
  unfold map_get. induction m as [ | [k' v'] m IH]; simpl; intros H; [reflexivity | ].
  inversion H as [ | ? ? Hk Hm]; subst. simpl in Hk.
  assert (E : (k' =? k) = false) by (apply Z.eqb_neq; lia). rewrite E. exact (IH Hm).
Qed.

(** X20: in a storage whose user ids are all below its counter, as after
    the constructor and after every [createUser], a new user gets the
    counter as id, the subscription tier passed or [basic] when none or
    an empty one is passed, and is found by [getUser] under that id,
    while every other id finds what it found before.  [getUserByEmail]
    keeps finding the user it found before: a second user created with
    the same email address is stored but not found by email. *)
Theorem created_user_is_found (this : t) (insertUser : InsertUser.t) (date : Z) :
  ids_below_counter this ->
  let created := fst (createUser insertUser date this) in
  let after := snd (createUser insertUser date this) in
  User.id created = currentUserId this
  /\ User.subscriptionTier created
     = match InsertUser.subscriptionTier insertUser with
       | Some tier => if String.eqb tier "" then "basic" else tier
       | None => "basic"
       end
  /\ ids_below_counter after
  /\ getUser (User.id created) after = Some created
  /\ (forall id, id <> User.id created -> getUser id after = getUser id this)
  /\ (forall email,
         getUserByEmail email after
         = match getUserByEmail email this with
           | Some user => Some user
           | None => if String.eqb (InsertUser.email insertUser) email
                     then Some created else None
           end).
Proof.
  intros Hids created after. subst created after. unfold createUser. cbn [fst snd].
  set (created := User.mk _ _ _ _ _).
  split; [reflexivity | ]. split; [ | split; [ | split; [ | split]]].
  - subst created. simpl. destruct (InsertUser.subscriptionTier insertUser) as [tier | ];
      [ | reflexivity].
    simpl. destruct (String.eqb tier ""); reflexivity.
  - unfold ids_below_counter in *. simpl. rewrite (users_set_fresh _ _ _ Hids).
    apply Forall_app. split.
    + eapply Forall_impl; [ | exact Hids]. intros entry H. simpl in H. lia.
    + repeat constructor. simpl. lia.
  - unfold getUser, map_get. simpl users. rewrite (users_set_fresh _ _ _ Hids), find_app.
    pose proof (map_get_below _ _ Hids) as Hnone. unfold map_get in Hnone.
    destruct (find _ (users this)); [discriminate Hnone | ].
    simpl. subst created. simpl. rewrite Z.eqb_refl. reflexivity.
  - intros id Hne. unfold getUser, map_get. simpl users.
    rewrite (users_set_fresh _ _ _ Hids), find_app.
    destruct (find _ (users this)); [reflexivity | ].
    simpl. subst created. simpl in *.
    assert (E : (currentUserId this =? id) = false) by (apply Z.eqb_neq; congruence).
    rewrite E. reflexivity.
  - intros email. unfold getUserByEmail. simpl users.
    rewrite (users_set_fresh _ _ _ Hids), map_app, find_app.
    destruct (find _ (map snd (users this))); [reflexivity | ].
    simpl. destruct (String.eqb (InsertUser.email insertUser) email); reflexivity.
Qed.

Lemma constructor_ids_below_counter date : ids_below_counter (constructor date).
Proof. repeat constructor. Qed.

Lemma created_user_is_found_witness :
  let insertUser := InsertUser.mk "john_2" "john@example.com" None in
  let created := fst (createUser insertUser 200 (constructor 100)) in
  let after := snd (createUser insertUser 200 (constructor 100)) in
  User.id created = currentUserId (constructor 100)
  /\ User.subscriptionTier created
     = match InsertUser.subscriptionTier insertUser with
       | Some tier => if String.eqb tier "" then "basic" else tier
       | None => "basic"
       end
  /\ ids_below_counter after
  /\ getUser (User.id created) after = Some created
  /\ (forall id, id <> User.id created -> getUser id after = getUser id (constructor 100))
  /\ (forall email,
         getUserByEmail email after
         = match getUserByEmail email (constructor 100) with
           | Some user => Some user
           | None => if String.eqb (InsertUser.email insertUser) email
                     then Some created else None
           end).
Proof.
  refine (created_user_is_found (constructor 100)
            (InsertUser.mk "john_2" "john@example.com" None) 200 _).
  repeat constructor.
Defined.

End MemUsers.

(* ================================================================== *)
(** ** What a request leaves untouched *)

Module Isolation.

Import DatabaseStorage Routes Scenarios TokenTable Provenance.

(** Compared with the table [rows0], no Credential was added or removed,
    and only the Credential of the pair may have changed. *)
Definition touches_only (userId : Z) (provider : string) (rows0 : list WearableToken.t)
           (s : State) : Prop :=
  map key (wearableTokens s) = map key rows0
  /\ (forall userId' provider',
         (userId', provider') <> (userId, provider) ->
         find (token_matches userId' provider') (wearableTokens s)
         = find (token_matches userId' provider') rows0).

Lemma touches_only_update userId provider rows0 updates :
  stable (touches_only userId provider rows0)
         (set_wearableTokens (update_rows userId provider updates)).
Proof.
  intros s [Hkeys Hothers]. split; simpl.
  - rewrite key_update_rows. exact Hkeys.
  - intros userId' provider' Hne. rewrite find_update_rows_frame by exact Hne.
    apply Hothers, Hne.
Qed.

(** The records stored since the table held [base] are records of the user. *)
Definition stores_for (userId : Z) (base : list WearableData.t) (s : State) : Prop :=
  rows_from base (fun row => WearableData.userId row = userId) s.

Definition same_records (base : list WearableData.t) (s : State) : Prop :=
  wearableData s = base.

Definition same_credentials (rows0 : list WearableToken.t) (s : State) : Prop :=
  wearableTokens s = rows0.

Section Frames.

Context (e : Env).

Lemma sync_touches_only userId n rows0 :
  parseInt userId = Some n ->
  keeps e (touches_only n "whoop" rows0) (sync userId) (fun _ => True).
Proof.
  intros Hparse.
  unfold sync, sync_whoop, refresh_if_stale, fetch_real, demo_fallback, sync_apple.
  rewrite Hparse. keeps_walk; intros; apply touches_only_update.
Qed.

Lemma sync_stores_for userId n base :
  parseInt userId = Some n ->
  keeps e (stores_for n base) (sync userId) (fun _ => True).
Proof.
  intros Hparse.
  unfold sync, sync_whoop, refresh_if_stale, fetch_real, demo_fallback, sync_apple.
  rewrite Hparse. keeps_walk; intros; apply rows_from_append; reflexivity.
Qed.

Lemma terra_webhook_same_credentials reqBody rows0 :
  keeps e (same_credentials rows0) (terra_webhook reqBody) (fun _ => True).
Proof. unfold terra_webhook, terra_webhook_try. keeps_walk. Qed.

Lemma terra_webhook_appends reqBody base :
  keeps e (rows_from base (fun _ => True)) (terra_webhook reqBody) (fun _ => True).
Proof.
  unfold terra_webhook, terra_webhook_try. keeps_walk; intros; apply rows_from_append; exact I.
Qed.

Lemma sync_tail_appends userId base :
  keeps e (rows_from base (fun _ => True))
        (appleToken <- getWearableToken userId "apple_health" ;;
         (if has_externalUserId appleToken then sync_apple userId else ret tt) ;;
         rs <- get_results ;;
         ret (Response.json (JsonSync rs)))
        (fun _ => True).
Proof. unfold sync_apple. keeps_walk; intros; apply rows_from_append; exact I. Qed.

Lemma apple_callback_same_records reqBody base :
  keeps e (same_records base) (apple_callback reqBody) (fun _ => True).
Proof. unfold apple_callback. keeps_walk. Qed.

Lemma disconnect_same_records provider userId base :
  keeps e (same_records base) (disconnect provider userId) (fun _ => True).
Proof. unfold disconnect. keeps_walk. Qed.

Lemma wearable_status_same_records userId base :
  keeps e (same_records base) (wearable_status userId) (fun _ => True).
Proof. unfold wearable_status. keeps_walk. Qed.

Lemma wearable_status_same_credentials userId rows0 :
  keeps e (same_credentials rows0) (wearable_status userId) (fun _ => True).
Proof. unfold wearable_status. keeps_walk. Qed.

Lemma handleAuthentication_same_records accessToken refreshToken expires_in user_id base :
  keeps e (same_records base)
        (WhoopStrategy.handleAuthentication accessToken refreshToken expires_in user_id)
        (fun _ => True).
Proof.
  unfold WhoopStrategy.handleAuthentication, WhoopStrategy.toString. keeps_walk.
Qed.

End Frames.

(** X21: a sync request for a user, whatever the providers answer and
    whatever the database rejects, adds no Credential and removes none,
    leaves the Credential of every other user and the user's aggregator
    Credential as they were, keeps every biometric record that was stored
    and adds records of that user only. *)
Theorem sync_touches_one_user (e : Env) (s : State) (userId : string) (n : Z) :
  parseInt userId = Some n ->
  touches_only n "whoop" (wearableTokens s) (snd (sync userId e s))
  /\ stores_for n (wearableData s) (snd (sync userId e s)).
Proof.
  intros Hparse. split.
  - apply (keeps_final e _ _ _ s (sync_touches_only e userId n _ Hparse)).
    split; [reflexivity | intros; reflexivity].
  - apply (keeps_final e _ _ _ s (sync_stores_for e userId n _ Hparse)).
    apply rows_from_start.
Qed.

Lemma sync_touches_one_user_witness :
  touches_only 5 "whoop"
    (wearableTokens
       (store_of [stale_tracker_credential; AggregatorCredentials.aggregator_credential]))
    (snd (sync "5" Refresh.refresh_accepted
               (store_of [stale_tracker_credential;
                          AggregatorCredentials.aggregator_credential])))
  /\ stores_for 5
       (wearableData
          (store_of [stale_tracker_credential; AggregatorCredentials.aggregator_credential]))
       (snd (sync "5" Refresh.refresh_accepted
                  (store_of [stale_tracker_credential;
                             AggregatorCredentials.aggregator_credential]))).
Proof.
  refine (sync_touches_one_user Refresh.refresh_accepted
            (store_of [stale_tracker_credential; AggregatorCredentials.aggregator_credential])
            "5" 5 _).
  reflexivity.
Defined.

(** X22: whatever the request and the environment, the webhook handler
    leaves the credential table as it is and keeps every stored biometric
    record; the aggregator's callback, the disconnect handler, the status
    handler and the tracker's verify callback leave the biometric records
    as they are, and the status handler the credential table too. *)
Theorem handlers_leave_the_other_table (e : Env) (s : State) :
  (forall reqBody,
      wearableTokens (snd (terra_webhook reqBody e s)) = wearableTokens s
      /\ exists new, wearableData (snd (terra_webhook reqBody e s)) = (wearableData s ++ new)%list)
  /\ (forall reqBody, wearableData (snd (apple_callback reqBody e s)) = wearableData s)
  /\ (forall provider userId, wearableData (snd (disconnect provider userId e s)) = wearableData s)
  /\ (forall userId,
         wearableData (snd (wearable_status userId e s)) = wearableData s
         /\ wearableTokens (snd (wearable_status userId e s)) = wearableTokens s)
  /\ (forall accessToken refreshToken expires_in user_id,
         wearableData (snd (WhoopStrategy.handleAuthentication accessToken refreshToken
                              expires_in user_id e s))
         = wearableData s).
Proof.
  split; [ | split; [ | split; [ | split]]].
  - intros reqBody. split.
    + exact (keeps_final e _ _ _ s (terra_webhook_same_credentials e reqBody _) eq_refl).
    + destruct (keeps_final e _ _ _ s (terra_webhook_appends e reqBody _)
                            (rows_from_start _ s)) as [new [H _]].
      exists new. exact H.
  - intros reqBody.
    exact (keeps_final e _ _ _ s (apple_callback_same_records e reqBody _) eq_refl).
  - intros provider userId.
    exact (keeps_final e _ _ _ s (disconnect_same_records e provider userId _) eq_refl).
  - intros userId. split.
    + exact (keeps_final e _ _ _ s (wearable_status_same_records e userId _) eq_refl).
    + exact (keeps_final e _ _ _ s (wearable_status_same_credentials e userId _) eq_refl).
  - intros accessToken refreshToken expires_in user_id.
    exact (keeps_final e _ _ _ s
             (handleAuthentication_same_records e accessToken refreshToken expires_in
                                                user_id _) eq_refl).
Qed.

End Isolation.

(* ================================================================== *)
(** ** routes.ts: the order in which the GET routes are registered *)

Module Router.

Import Routes Authorization.

(** A segment of a route path: literal text, or a named parameter
    [:name], which stands for any non-empty segment. *)
Inductive Segment : Type :=
| Literal (text : string)
| Param (name : string).

Definition to_lower (c : ascii) : ascii :=
  let n := N_of_ascii c in
  if (65 <=? n)%N && (n <=? 90)%N then ascii_of_N (n + 32) else c.

Fixpoint lower_string (s : string) : string :=
  match s with
  | EmptyString => EmptyString
  | String c rest => String (to_lower c) (lower_string rest)
  end.

(** Route paths are compared without regard to case. *)
Definition same_text (a b : string) : bool := String.eqb (lower_string a) (lower_string b).

Definition non_empty (s : string) : bool :=
  match s with EmptyString => false | String _ _ => true end.

(** The parameters a request path, given by its segments, binds when it
    matches the route path. *)
Fixpoint matches (pattern : list Segment) (path : list string)
  : option (list (string * string)) :=
  match pattern, path with
  | [], [] => Some []
  | Literal text :: pattern', segment :: path' =>
      if same_text text segment then matches pattern' path' else None
  | Param name :: pattern', segment :: path' =>
      if non_empty segment
      then option_map (cons (name, segment)) (matches pattern' path')
      else None
  | _, _ => None
  end.

(** The handlers [registerRoutes] registers with [app.get]. *)
Inductive GetRoute : Type :=
| Dashboard
| Devices
| WhoopAuth
| WhoopDemo
| Test
| WhoopCallback
| AppleAuthUrl
| AppleMock
| WearableStatus
| CoachingSessionsOf
| CoachingLatest
| CoachingSessions
| RecommendationsAll
| Preferences
| CoachingLatestOf
| RecommendationsAllOf
| PreferencesOf
| PerformanceScores.

Definition whoop_demo_path : list Segment :=
  [Literal "api"; Literal "auth"; Literal "whoop"; Literal "demo"].

Definition whoop_callback_path : list Segment :=
  [Literal "api"; Literal "auth"; Literal "whoop"; Literal "callback"].

Definition apple_mock_path : list Segment :=
  [Literal "api"; Literal "auth"; Literal "apple"; Literal "mock"].

(** The [app.get] calls of [registerRoutes], in the order they are made. *)
Definition get_routes : list (list Segment * GetRoute) :=
  [ ([Literal "api"; Literal "dashboard"; Param "userId"], Dashboard);
    ([Literal "api"; Literal "devices"; Param "userId"], Devices);
    ([Literal "api"; Literal "auth"; Literal "whoop"; Param "userId"], WhoopAuth);
    (whoop_demo_path, WhoopDemo);
    ([Literal "api"; Literal "test"], Test);
    (whoop_callback_path, WhoopCallback);
    ([Literal "api"; Literal "auth"; Literal "apple"; Param "userId"], AppleAuthUrl);
    (apple_mock_path, AppleMock);
    ([Literal "api"; Literal "wearable-status"; Param "userId"], WearableStatus);
    ([Literal "api"; Literal "coaching"; Literal "sessions"; Param "userId"],
     CoachingSessionsOf);
    ([Literal "api"; Literal "coaching"; Literal "latest"], CoachingLatest);
    ([Literal "api"; Literal "coaching"; Literal "sessions"], CoachingSessions);
    ([Literal "api"; Literal "coaching"; Literal "recommendations"; Literal "all"],
     RecommendationsAll);
    ([Literal "api"; Literal "preferences"], Preferences);
    ([Literal "api"; Literal "coaching"; Literal "latest"; Param "userId"], CoachingLatestOf);
    ([Literal "api"; Literal "coaching"; Literal "recommendations"; Literal "all";
      Param "userId"], RecommendationsAllOf);
    ([Literal "api"; Literal "preferences"; Param "userId"], PreferencesOf);
    ([Literal "api"; Literal "performance-scores"; Param "userId"], PerformanceScores) ].

(** The first registered route the path matches: its handler is the one
    that runs first. *)
Fixpoint first_match (routes : list (list Segment * GetRoute)) (path : list string)
  : option (GetRoute * list (string * string)) :=
  match routes with
  | [] => None
  | (pattern, route) :: rest =>
      match matches pattern path with
      | Some params => Some (route, params)
      | None => first_match rest path
      end
  end.

Lemma lower_non_empty segment text :
  lower_string segment = text -> non_empty text = true -> non_empty segment = true.
Proof. intros <-. destruct segment; [discriminate | reflexivity]. Qed.

(** A path of four segments that reads [api], [auth], [provider] and
    [last] without regard to case. *)
Lemma matches_four provider last path params :
  matches [Literal "api"; Literal "auth"; Literal provider; Literal last] path = Some params ->
  exists a b c d,
    path = [a; b; c; d]
    /\ lower_string a = "api" /\ lower_string b = "auth"
    /\ lower_string c = lower_string provider /\ lower_string d = lower_string last.
Proof.
  destruct path as [ | a [ | b [ | c [ | d [ | x path]]]]]; simpl; try discriminate;
    unfold same_text.
  - destruct (String.eqb _ (lower_string a)); discriminate.
  - destruct (String.eqb _ (lower_string a)); [ | discriminate].
    destruct (String.eqb _ (lower_string b)); discriminate.
  - destruct (String.eqb _ (lower_string a)); [ | discriminate].
    destruct (String.eqb _ (lower_string b)); [ | discriminate].
    destruct (String.eqb _ (lower_string c)); discriminate.
  - destruct (String.eqb _ (lower_string a)) eqn:Ha; [ | discriminate].
    destruct (String.eqb _ (lower_string b)) eqn:Hb; [ | discriminate].
    destruct (String.eqb _ (lower_string c)) eqn:Hc; [ | discriminate].
    destruct (String.eqb _ (lower_string d)) eqn:Hd; [ | discriminate].
    intros _. apply String.eqb_eq in Ha, Hb, Hc, Hd. exists a, b, c, d.
    repeat split; symmetry; assumption.
  - destruct (String.eqb _ (lower_string a)); [ | discriminate].
    destruct (String.eqb _ (lower_string b)); [ | discriminate].
    destruct (String.eqb _ (lower_string c)); [ | discriminate].
    destruct (String.eqb _ (lower_string d)); discriminate.
Qed.

Lemma parseInt_mock segment : lower_string segment = "mock" -> parseInt segment = None.
Proof.
  destruct segment as [ | c rest]; [discriminate | ]. simpl. intros H. injection H as Hc _.
  destruct c as [[] [] [] [] [] [] [] []]; try discriminate Hc; reflexivity.
Qed.

Ltac first_of_four Ha Hb Hc Hd :=
  unfold get_routes, whoop_demo_path, whoop_callback_path, apple_mock_path, first_match,
    matches, same_text;
  rewrite ?Ha, ?Hb, ?Hc, ?Hd; simpl;
  rewrite (lower_non_empty _ _ Hd eq_refl); reflexivity.

(** X23: the routes are tried in the order they are registered, and the
    route with the parameter [:userId] is registered before the literal
    routes under the same prefix.  So for every path that the mock
    authorization's route [/api/auth/apple/mock] matches, the handler that
    runs is the one that hands out the authorization URL, with [userId]
    bound to the last segment; it answers 400 and the state is unchanged,
    so the mock authorization does not run.  Likewise the first handler
    to run for a path of [/api/auth/whoop/demo] or
    [/api/auth/whoop/callback] is the one of [/api/auth/whoop/:userId]. *)
Theorem literal_routes_are_shadowed (path : list string) (params : list (string * string)) :
  (matches apple_mock_path path = Some params ->
   exists segment,
     first_match get_routes path = Some (AppleAuthUrl, [("userId", segment)])
     /\ forall e s,
          apple_auth_url segment e s = (Ok (AuthUrlError 400 "Invalid user ID"), s))
  /\ (matches whoop_demo_path path = Some params
      \/ matches whoop_callback_path path = Some params ->
      exists segment, first_match get_routes path = Some (WhoopAuth, [("userId", segment)])).
Proof.
  split.
  - intros H. apply matches_four in H.
    destruct H as [a [b [c [d [-> [Ha [Hb [Hc Hd]]]]]]]]. simpl in Hc, Hd.
    exists d. split; [first_of_four Ha Hb Hc Hd | ].
    intros e s. unfold apple_auth_url, try_catch. rewrite (parseInt_mock d Hd). reflexivity.
  - intros [H | H]; apply matches_four in H;
      destruct H as [a [b [c [d [-> [Ha [Hb [Hc Hd]]]]]]]]; simpl in Hc, Hd;
      exists d; first_of_four Ha Hb Hc Hd.
Qed.

Lemma literal_routes_are_shadowed_witness :
  (exists segment,
      first_match get_routes ["api"; "auth"; "apple"; "mock"]
      = Some (AppleAuthUrl, [("userId", segment)])
      /\ forall e s,
           apple_auth_url segment e s = (Ok (AuthUrlError 400 "Invalid user ID"), s))
  /\ exists segment,
       first_match get_routes ["api"; "auth"; "whoop"; "demo"]
       = Some (WhoopAuth, [("userId", segment)]).
Proof.
  split.
  - apply (proj1 (literal_routes_are_shadowed ["api"; "auth"; "apple"; "mock"] [])).
    reflexivity.
  - apply (proj2 (literal_routes_are_shadowed ["api"; "auth"; "whoop"; "demo"] [])).
    left. reflexivity.
Defined.

End Router.

(* ================================================================== *)
(** ** The sync handler when the database rejects a write *)

Module SyncFailures.

Import DatabaseStorage Routes Scenarios SyncOutcomes Fallback SyncPaths.

(** The outcomes pushed so far begin with [rs0]. *)
Definition begins_with (rs0 : list SyncOutcome.t) (s : State) : Prop :=
  exists rest, results s = (rs0 ++ rest)%list.

(** An answer of status 200 lists outcomes that begin with [rs0]. *)
Definition answer_begins_with (rs0 : list SyncOutcome.t) (resp : Response.t) : Prop :=
  Response.status resp = 200 ->
  exists rest, Response.body resp = JsonSync (rs0 ++ rest)%list.

Lemma begins_with_push rs0 o :
  stable (begins_with rs0) (set_results (fun rs => rs ++ [o])%list).
Proof.
  intros s [rest E]. exists (rest ++ [o])%list. simpl. rewrite E. symmetry. apply app_assoc.
Qed.

Section Tail.

Context (e : Env).

Lemma sync_tail_begins userId rs0 :
  triple e (begins_with rs0)
         (appleToken <- getWearableToken userId "apple_health" ;;
          (if has_externalUserId appleToken then sync_apple userId else ret tt) ;;
          rs <- get_results ;;
          ret (Response.json (JsonSync rs)))
         (fun resp _ => answer_begins_with rs0 resp) (fun _ _ => True).
Proof.
  unfold sync_apple.
  eapply triple_after with (V := fun _ => True); [keeps_walk | trivial | intros appleToken _].
  eapply triple_after with (V := fun _ => True);
    [keeps_walk; intros; apply begins_with_push | trivial | intros ? _].
  intros s [rest Hs]. apply wp_bind, wp_get_results, wp_ret.
  intros _. exists rest. simpl. rewrite Hs. reflexivity.
Qed.

Lemma sync_tail_same_credentials userId rows0 :
  keeps e (Isolation.same_credentials rows0)
        (appleToken <- getWearableToken userId "apple_health" ;;
         (if has_externalUserId appleToken then sync_apple userId else ret tt) ;;
         rs <- get_results ;;
         ret (Response.json (JsonSync rs)))
        (fun _ => True).
Proof. unfold sync_apple. keeps_walk. Qed.

End Tail.

Definition database_error : SyncOutcome.t := SyncOutcome.failure "whoop" "database error".

(** X24: when the tracker Credential is stale and the provider accepts the
    refresh, but the database rejects the update that would store the new
    tokens, the tracker block ends there: the only request made to the
    tracker's API is the refresh, the credential table is exactly as
    before, so the tokens the provider returned are not kept, and an
    answer of status 200 lists the tracker outcome first, of status error
    with the database's message. *)
Theorem rejected_update_loses_refreshed_tokens (e : Env) (s : State) (userId : string) (n : Z)
        (w : WearableToken.t) (expiresAt : Z) (refreshed : RefreshedTokens.t) :
  parseInt userId = Some n -> n <> 0 ->
  db_rejects e (db_statements s) = false ->
  db_rejects e (S (db_statements s)) = true ->
  find (token_matches n "whoop") (wearableTokens s) = Some w ->
  WearableToken.expiresAt w = Some expiresAt ->
  expiresAt < Date_now e (clock_reads s) ->
  refreshAccessToken e (WearableToken.refreshToken w) = Ok refreshed ->
  exists resp,
    fst (sync userId e s) = Ok resp
    /\ answer_begins_with [database_error] resp
    /\ wearableTokens (snd (sync userId e s)) = wearableTokens s
    /\ provider_calls (snd (sync userId e s))
       = (provider_calls s ++ [CallRefresh (WearableToken.refreshToken w)])%list.
Proof.
  intros Hparse Hn Hlookup Hupdate Hfound Hexpires Hstale Hrefreshed.
  set (cs := (provider_calls s ++ [CallRefresh (WearableToken.refreshToken w)])%list).
  assert (H : wp e (sync userId)
                 (fun resp s' =>
                    answer_begins_with [database_error] resp
                    /\ Isolation.same_credentials (wearableTokens s) s'
                    /\ calls_are cs s')
                 (fun _ _ => False) s).
  { unfold sync. rewrite Hparse. apply Z.eqb_neq in Hn. simpl. rewrite Hn. simpl.
    wp_step.
    eapply wp_weaken with
      (Q := fun resp s' =>
              answer_begins_with [database_error] resp
              /\ Isolation.same_credentials (wearableTokens s) s' /\ calls_are cs s')
      (X := fun _ s' => Isolation.same_credentials (wearableTokens s) s' /\ calls_are cs s');
      [ | trivial | ].
    - repeat wp_step. state_simpl. rewrite Hlookup, Hfound. state_simpl. wp_step.
      unfold sync_whoop. wp_step. wp_step. unfold refresh_if_stale. rewrite Hexpires.
      repeat wp_step. state_simpl. apply Z.ltb_lt in Hstale. rewrite Hstale.
      repeat wp_step. rewrite Hrefreshed. repeat wp_step. state_simpl. rewrite Hupdate.
      wp_step.
      eapply wp_weaken; [ | | ].
      + apply wp_conj; [apply wp_conj | ].
        * apply (sync_tail_begins e n [database_error]). exists []. reflexivity.
        * apply (sync_tail_same_credentials e n (wearableTokens s)). reflexivity.
        * apply (sync_tail_calls e n cs). reflexivity.
      + intros resp s' [[H1 [H2 _]] [H3 _]]. repeat split; assumption.
      + intros msg s' [[_ H2] H3]. split; assumption.
    - intros msg s' [H2 H3]. apply wp_ret. split; [ | split; assumption].
      intros Hstatus. discriminate Hstatus. }
  apply Authorization.wp_returns in H. destruct H as [resp [Hrun [H1 [H2 H3]]]].
  exists resp. repeat split; assumption.
Qed.

(** The database rejects the second statement of the request. *)
Definition update_rejected : Env :=
  mkEnv (clock_from 1700000000000)
        (fun _ => 1 # 2)
        (fun k => Nat.eqb k 1)
        (fun _ => Ok Refresh.accepted_tokens)
        (fun _ _ => Throw "WHOOP API error: 503")
        (fun _ _ => Throw "WHOOP API error: 503")
        (fun _ _ => Throw "WHOOP API error: 503")
        (fun _ _ _ => Throw "unexpected payload")
        (fun _ _ _ => Throw "unexpected payload").

Lemma rejected_update_loses_refreshed_tokens_witness :
  exists resp,
    fst (sync "5" update_rejected (store_of [stale_tracker_credential])) = Ok resp
    /\ answer_begins_with [database_error] resp
    /\ wearableTokens (snd (sync "5" update_rejected (store_of [stale_tracker_credential])))
       = wearableTokens (store_of [stale_tracker_credential])
    /\ provider_calls (snd (sync "5" update_rejected (store_of [stale_tracker_credential])))
       = (provider_calls (store_of [stale_tracker_credential])
          ++ [CallRefresh (WearableToken.refreshToken stale_tracker_credential)])%list.
Proof.
  refine (rejected_update_loses_refreshed_tokens update_rejected
            (store_of [stale_tracker_credential]) "5" 5 stale_tracker_credential
            1600000000000 Refresh.accepted_tokens _ _ _ _ _ _ _ _).
  - reflexivity.
  - discriminate.
  - reflexivity.
  - reflexivity.
  - reflexivity.
  - reflexivity.
  - reflexivity.
  - reflexivity.
Defined.

Lemma refresh_if_stale_fresh e n w s0 :
  is_stale (Date_now e (clock_reads s0)) w = false ->
  refresh_if_stale n w e s0 = (Ok (WearableToken.accessToken w), s0)
  \/ refresh_if_stale n w e s0 = (Ok (WearableToken.accessToken w), tick_clock s0).
Proof.
  unfold is_stale, refresh_if_stale. destruct (WearableToken.expiresAt w) as [expiresAt | ].
  - intros H. right. unfold bind, now. rewrite H. reflexivity.
  - intros _. left. reflexivity.
Qed.

Lemma demo_fallback_stores_then_fails e n s0 :
  db_rejects e (db_statements s0) = false ->
  db_rejects e (S (db_statements s0)) = true ->
  wp e (demo_fallback n)
     (fun _ _ => False)
     (fun msg s' =>
        msg = "database error"
        /\ results s' = results s0
        /\ exists row,
             wearableData s' = (wearableData s0 ++ [row])%list
             /\ WearableData.userId row = n /\ WearableData.deviceType row = "whoop")
     s0.
Proof.
  intros Hinsert Hupdate. unfold demo_fallback. repeat wp_step. state_simpl.
  rewrite Hinsert. state_simpl. repeat wp_step. state_simpl. rewrite Hupdate.
  split; [reflexivity | ]. split; [reflexivity | ].
  eexists. split; [reflexivity | split; reflexivity].
Qed.

(** X25: the tracker block is not all-or-nothing.  When the Credential is
    not stale, fetching or transforming fails, and the database accepts
    the insert of the simulated record but rejects the update that stamps
    the Credential, the simulated record stays stored for the user, yet an
    answer of status 200 lists the tracker outcome first with status
    error and the database's message. *)
Theorem error_outcome_with_a_stored_record (e : Env) (s : State) (userId : string) (n : Z)
        (w : WearableToken.t) (msg : string) :
  parseInt userId = Some n -> n <> 0 ->
  db_rejects e (db_statements s) = false ->
  db_rejects e (S (db_statements s)) = false ->
  db_rejects e (S (S (db_statements s))) = true ->
  find (token_matches n "whoop") (wearableTokens s) = Some w ->
  is_stale (Date_now e (clock_reads s)) w = false ->
  fetch_and_transform e (WearableToken.accessToken w) = Throw msg ->
  exists resp row more,
    fst (sync userId e s) = Ok resp
    /\ answer_begins_with [database_error] resp
    /\ wearableData (snd (sync userId e s)) = (wearableData s ++ row :: more)%list
    /\ WearableData.userId row = n
    /\ WearableData.deviceType row = "whoop".
Proof.
  intros Hparse Hn Hlookup Hinsert Hupdate Hfound Hfresh Hfetch.
  assert (H : wp e (sync userId)
                 (fun resp s' =>
                    answer_begins_with [database_error] resp
                    /\ exists row more,
                         wearableData s' = (wearableData s ++ row :: more)%list
                         /\ WearableData.userId row = n
                         /\ WearableData.deviceType row = "whoop")
                 (fun _ _ => False) s).
  { unfold sync. rewrite Hparse. apply Z.eqb_neq in Hn. simpl. rewrite Hn. simpl.
    wp_step.
    eapply wp_weaken with
      (Q := fun resp s' =>
              answer_begins_with [database_error] resp
              /\ exists row more,
                   wearableData s' = (wearableData s ++ row :: more)%list
                   /\ WearableData.userId row = n
                   /\ WearableData.deviceType row = "whoop")
      (X := fun _ s' =>
              exists row more,
                wearableData s' = (wearableData s ++ row :: more)%list
                /\ WearableData.userId row = n
                /\ WearableData.deviceType row = "whoop");
      [ | trivial | ].
    - repeat wp_step. state_simpl. rewrite Hlookup, Hfound. state_simpl. wp_step.
      assert (Hblock :
                wp e (sync_whoop n w)
                   (fun _ s' =>
                      results s' = [database_error]
                      /\ exists row,
                           wearableData s' = (wearableData s ++ [row])%list
                           /\ WearableData.userId row = n
                           /\ WearableData.deviceType row = "whoop")
                   (fun _ _ => False)
                   (count_statement (set_results (fun _ => []) s))).
      { unfold sync_whoop. wp_step. wp_step. unfold wp at 1.
        destruct (refresh_if_stale_fresh e n w (count_statement (set_results (fun _ => []) s))
                                         Hfresh) as [-> | ->];
          unfold useRealWhoop; wp_step; unfold wp at 1;
          rewrite (fetch_real_failed e n (WearableToken.accessToken w) msg _ Hfetch);
          repeat wp_step; unfold fetched; state_simpl; simpl no_whoop_success; cbv iota;
          (eapply wp_weaken;
           [apply demo_fallback_stores_then_fails; state_simpl; assumption
           | contradiction | ]);
          intros m s' [-> [Hrs [row Hrow]]]; apply wp_push_result; state_simpl;
          (split; [rewrite Hrs; reflexivity | exists row; exact Hrow]). }
      eapply wp_weaken; [exact Hblock | | contradiction].
      intros ? s1 [Hrs1 [row [Hrows1 [Huser Hdevice]]]].
      eapply wp_weaken; [ | | ].
      + apply wp_conj.
        * apply (sync_tail_begins e n [database_error]). exists []. rewrite Hrs1. reflexivity.
        * apply (Isolation.sync_tail_appends e n (wearableData s1)).
          apply Provenance.rows_from_start.
      + intros resp s2 [H1 [[more [Hrows2 _]] _]]. split; [exact H1 | ].
        exists row, more. rewrite Hrows2, Hrows1, <- app_assoc. repeat split; assumption.
      + intros m s2 [_ [more [Hrows2 _]]].
        exists row, more. rewrite Hrows2, Hrows1, <- app_assoc. repeat split; assumption.
    - intros m s' Hrows. apply wp_ret. split; [ | exact Hrows].
      intros Hstatus. discriminate Hstatus. }
  apply Authorization.wp_returns in H.
  destruct H as [resp [Hrun [H1 [row [more H2]]]]].
  exists resp, row, more. split; [exact Hrun | split; [exact H1 | exact H2]].
Qed.

(** The tracker's API is down and the database rejects the third
    statement of the request. *)
Definition stamp_rejected : Env :=
  mkEnv (clock_from 1700000000000)
        (fun _ => 1 # 2)
        (fun k => Nat.eqb k 2)
        (fun _ => Throw "WHOOP token refresh failed: invalid_grant")
        (fun _ _ => Throw "WHOOP API error: 503")
        (fun _ _ => Throw "WHOOP API error: 503")
        (fun _ _ => Throw "WHOOP API error: 503")
        (fun _ _ _ => Throw "unexpected payload")
        (fun _ _ _ => Throw "unexpected payload").

Lemma error_outcome_with_a_stored_record_witness :
  exists resp row more,
    fst (sync "5" stamp_rejected (store_of [fresh_tracker_credential])) = Ok resp
    /\ answer_begins_with [database_error] resp
    /\ wearableData (snd (sync "5" stamp_rejected (store_of [fresh_tracker_credential])))
       = (wearableData (store_of [fresh_tracker_credential]) ++ row :: more)%list
    /\ WearableData.userId row = 5
    /\ WearableData.deviceType row = "whoop".
Proof.
  refine (error_outcome_with_a_stored_record stamp_rejected
            (store_of [fresh_tracker_credential]) "5" 5 fresh_tracker_credential
            "WHOOP API error: 503" _ _ _ _ _ _ _ _).
  - reflexivity.
  - discriminate.
  - reflexivity.
  - reflexivity.
  - reflexivity.
  - reflexivity.
  - reflexivity.
  - reflexivity.
Defined.

End SyncFailures.

(* ================================================================== *)
(** ** A request whose first statement the database rejects *)

Module DatabaseDown.

Import DatabaseStorage Routes Scenarios SyncOutcomes.

(** Nothing was written and no provider was called. *)
Definition nothing_done (s s' : State) : Prop :=
  wearableTokens s' = wearableTokens s
  /\ wearableData s' = wearableData s
  /\ provider_calls s' = provider_calls s.

Definition failed (message : string) : Response.t := Response.mk 500 (JsonError message).

(** X26: when the database rejects the first statement of a request, the
    lookup of the Credential (for a disconnect, the delete), the handler
    answers 500 with its own message, or hands [done] the error, and
    nothing else happens: no table changes and no provider is called. *)
Theorem rejected_first_statement_fails_the_request (e : Env) (s : State) :
  db_rejects e (db_statements s) = true ->
  (forall userId n,
      parseInt userId = Some n -> n <> 0 ->
      fst (sync userId e s) = Ok (failed "Failed to sync wearable data")
      /\ nothing_done s (snd (sync userId e s)))
  /\ (forall provider userId n,
         parseInt userId = Some n -> n <> 0 -> known_provider provider = true ->
         fst (disconnect provider userId e s) = Ok (failed "Failed to disconnect device")
         /\ nothing_done s (snd (disconnect provider userId e s)))
  /\ (forall q n,
         parseInt q = Some n -> 0 < n ->
         fst (whoop_demo_auth (Some q) e s) = Ok (failed "Failed to connect WHOOP demo")
         /\ nothing_done s (snd (whoop_demo_auth (Some q) e s)))
  /\ (forall q n,
         parseInt q = Some n -> n <> 0 ->
         fst (apple_mock_auth (Some q) e s) = Ok (failed "Failed to connect Apple Health")
         /\ nothing_done s (snd (apple_mock_auth (Some q) e s)))
  /\ (forall accessToken refreshToken expires_in user_id,
         fst (WhoopStrategy.handleAuthentication accessToken refreshToken expires_in user_id e s)
         = Ok (WhoopStrategy.DoneError "database error")
         /\ nothing_done s
              (snd (WhoopStrategy.handleAuthentication accessToken refreshToken expires_in
                      user_id e s))).
Proof.
  intros Hdb. split; [ | split; [ | split; [ | split]]].
  - intros userId n Hparse Hn. apply Z.eqb_neq in Hn.
    unfold sync, try_catch, bind, reset_results, getWearableToken, statement.
    rewrite Hparse. simpl. rewrite Hn. simpl. rewrite Hdb. simpl.
    repeat split.
  - intros provider userId n Hparse Hn Hknown. apply Z.eqb_neq in Hn.
    unfold disconnect, try_catch, bind, deleteWearableToken, statement.
    rewrite Hparse. simpl. rewrite Hn, Hknown. simpl. rewrite Hdb. simpl.
    repeat split.
  - intros q n Hparse Hn. apply Z.leb_gt in Hn.
    unfold whoop_demo_auth, try_catch, bind, getWearableToken, statement.
    rewrite Hparse, Hn, Hdb. simpl. repeat split.
  - intros q n Hparse Hn. apply Z.eqb_neq in Hn.
    unfold apple_mock_auth, try_catch, bind, now, getWearableToken, statement.
    rewrite Hparse. simpl. rewrite Hn. simpl. rewrite Hdb. simpl. repeat split.
  - intros accessToken refreshToken expires_in user_id.
    unfold WhoopStrategy.handleAuthentication, try_catch, bind, now, getWearableToken,
      statement.
    simpl. rewrite Hdb. simpl. repeat split.
Qed.

(** The database rejects every statement. *)
Definition database_down : Env :=
  mkEnv (clock_from 1700000000000)
        (fun _ => 1 # 2)
        (fun _ => true)
        (fun _ => Ok Refresh.accepted_tokens)
        (fun _ _ => Ok "{}")
        (fun _ _ => Ok "{}")
        (fun _ _ => Ok "{}")
        (fun _ _ _ => Throw "unexpected payload")
        (fun _ _ _ => Throw "unexpected payload").

Lemma rejected_first_statement_fails_the_request_witness :
  fst (sync "5" database_down (store_of [stale_tracker_credential]))
  = Ok (failed "Failed to sync wearable data")
  /\ nothing_done (store_of [stale_tracker_credential])
                  (snd (sync "5" database_down (store_of [stale_tracker_credential]))).
Proof.
  refine (proj1 (rejected_first_statement_fails_the_request database_down
                   (store_of [stale_tracker_credential]) _) "5" 5 _ _).
  - reflexivity.
  - reflexivity.
  - discriminate.
Defined.

End DatabaseDown.

(* ================================================================== *)
(** ** The aggregator block: what is reported and what is stored *)

Module AggregatorSync.

Import DatabaseStorage Routes Scenarios SyncOutcomes SyncRuns Fallback.

Section Accepted.

Context (e : Env) (Hdb : forall k, db_rejects e k = false).

Lemma sync_apple_stores userId s0 :
  wp e (sync_apple userId)
     (fun _ s' =>
        exists d row,
          results s' = (results s0 ++ [SyncOutcome.success "apple_health" (FromSimulator d)])%list
          /\ wearableData s' = (wearableData s0 ++ [row])%list
          /\ stored_as userId d row)
     (fun _ _ => False) s0.
Proof.
  unfold sync_apple. repeat wp_step. rewrite Hdb. state_simpl.
  repeat wp_step. do 2 eexists. split; [reflexivity | ]. split; [reflexivity | ].
  repeat split.
Qed.

End Accepted.

(** What the handler answers and leaves stored: the aggregator's outcome
    last, reporting the simulated record [d], and the row [row] last. *)
Definition reports_last_stored (n : Z) (resp : Response.t) (s' : State) : Prop :=
  exists tracker d before row,
    resp = Response.json
             (JsonSync (tracker ++ [SyncOutcome.success "apple_health" (FromSimulator d)])%list)
    /\ wearableData s' = (before ++ [row])%list
    /\ stored_as n d row.

Lemma sync_tail_stores e n s1 :
  (forall k, db_rejects e k = false) ->
  has_externalUserId (find (token_matches n "apple_health") (wearableTokens s1)) = true ->
  wp e (appleToken <- getWearableToken n "apple_health" ;;
        (if has_externalUserId appleToken then sync_apple n else ret tt) ;;
        rs <- get_results ;;
        ret (Response.json (JsonSync rs)))
     (reports_last_stored n) (fun _ _ => False) s1.
Proof.
  intros Hdb Happle. repeat wp_step. rewrite Hdb. state_simpl. rewrite Happle. wp_step.
  eapply wp_weaken; [apply (sync_apple_stores e Hdb) | | contradiction].
  intros ? s2 [d [row [Hrs [Hrows Hstored]]]].
  cbn [wearableData results count_statement] in Hrs, Hrows.
  repeat wp_step. rewrite Hrs.
  exists (results s1), d, (wearableData s1), row.
  split; [reflexivity | split; [exact Hrows | exact Hstored]].
Qed.

(** X27: when the user has an aggregator Credential with a non-empty
    external user id and the database accepts every statement, whatever
    the tracker block did, the last outcome of the answer is the
    aggregator's, of status success, and the last record stored is the one
    it reports: for the user, with the reported device type, sleep score,
    sleep duration, HRV and heart rate, and with the reported strain
    number as text. *)
Theorem aggregator_outcome_is_what_is_stored (e : Env) (s : State) (userId : string) (n : Z) :
  parseInt userId = Some n -> n <> 0 ->
  (forall k, db_rejects e k = false) ->
  has_externalUserId (find (token_matches n "apple_health") (wearableTokens s)) = true ->
  exists resp,
    fst (sync userId e s) = Ok resp
    /\ reports_last_stored n resp (snd (sync userId e s)).
Proof.
  intros Hparse Hn Hdb Happle.
  apply Authorization.wp_returns.
  unfold sync. rewrite Hparse. apply Z.eqb_neq in Hn. simpl. rewrite Hn. simpl.
  repeat wp_step. rewrite Hdb. state_simpl.
  destruct (find (token_matches n "whoop") (wearableTokens s)) as [whoopToken | ].
  - wp_step. eapply wp_weaken; [ | | ].
    + apply wp_conj.
      * apply (sync_whoop_pushes e [] n whoopToken eq_refl). reflexivity.
      * apply (sync_whoop_spares_aggregator e n whoopToken
                 (find (token_matches n "apple_health") (wearableTokens s))).
        reflexivity.
    + intros ? s1 [_ [Hsame _]]. cbv beta. unfold aggregator_lookup in Hsame.
      eapply wp_weaken;
        [apply (sync_tail_stores e n s1 Hdb); rewrite Hsame; exact Happle
        | trivial | contradiction].
    + intros msg s1 [[] _].
  - wp_step. wp_step. cbv beta.
    eapply wp_weaken; [apply (sync_tail_stores e n _ Hdb); exact Happle | trivial | contradiction].
Qed.

Lemma aggregator_outcome_is_what_is_stored_witness :
  exists resp,
    fst (sync "5" tracker_down
              (store_of [fresh_tracker_credential; AggregatorCredentials.aggregator_credential]))
    = Ok resp
    /\ reports_last_stored 5 resp
         (snd (sync "5" tracker_down
                    (store_of [fresh_tracker_credential;
                               AggregatorCredentials.aggregator_credential]))).
Proof.
  refine (aggregator_outcome_is_what_is_stored tracker_down
            (store_of [fresh_tracker_credential; AggregatorCredentials.aggregator_credential])
            "5" 5 _ _ _ _).
  - reflexivity.
  - discriminate.
  - reflexivity.
  - reflexivity.
Defined.

End AggregatorSync.
